(** * License management backend: subscription lifecycle and credentials

    A shallow embedding of the Go sources
    - package [models]: [Subscription], [SubscriptionPack], [User] and
      [Customer] with their methods,
    - package [handlers]: [BaseHandler], [SubscriptionHandler], [SDKHandler],
      [UserHandler] and [CustomerHandler],
    followed by the properties of the lifecycle engine and of the login
    handlers.

    Conventions of the embedding.
    - A database table is a finite map from the primary key to the row,
      together with the next value of the key sequence.  The [ID] field of
      a Go struct is the key of the map.
    - [gorm]'s bookkeeping columns [CreatedAt]/[UpdatedAt] are not part of
      the rows: what is said of a row is said of its other columns, and a
      [Save] that leaves them all as they were still moves [UpdatedAt].
    - The relationship pointers filled by [Preload] are not stored; a
      preloaded relation is looked up where the handler uses it or sends
      it.
    - A handler is a function from the database and the request inputs to
      a response and a database.  [time.Now()] is an input of the handler,
      as are the results of [strconv.ParseUint], [ShouldBindJSON],
      [c.Get("user_id")] and [rand.Read].
    - [bcrypt] and the JWT signature are parameters of the development. *)

From Stdlib Require Import ZArith NArith Ascii String List Lia.
From stdpp Require Import base option list gmap strings fin_maps.

Local Open Scope Z_scope.

(** ** [time.Time]

    A time is an instant, a count of seconds since the Unix epoch and a
    nanosecond offset, together with the location in which its date and
    clock are read.  The calendar arithmetic is that of package [time]
    where the years are of a magnitude below [2 ^ 31]; the additions of
    [AddDate] are additions of [int] and wrap around. *)

Module GoTime.

(** [int] arithmetic, 64 bits wide, wraps around. *)
Definition wrap_int (z : Z) : Z := ((z + 2 ^ 63) mod 2 ^ 64 - 2 ^ 63)%Z.

Definition is_int (z : Z) : Prop := (- 2 ^ 63 ≤ z < 2 ^ 63)%Z.

(** A [*Location], by its [lookup]: for a Unix time, the offset in seconds
    east of UTC of the zone in effect at that time, and the Unix times
    [start] and [end] between which that zone is in effect. *)
Record Location : Type := { lookup : Z → Z * Z * Z }.

Definition alpha : Z := - 2 ^ 63.
Definition omega : Z := 2 ^ 63 - 1.

(** [time.FixedZone(name, offset)] and [time.UTC]. *)
Definition FixedZone (offset : Z) : Location := {| lookup _ := (offset, alpha, omega) |}.

Definition UTC : Location := FixedZone 0.

Record Time : Type := mkTime { unix : Z; nsec : Z; loc : Location }.

(** [t.Before(u)], [t.After(u)] and [t.Equal(u)] compare the instants. *)
Definition Before (t u : Time) : bool :=
  (unix t <? unix u) || ((unix t =? unix u) && (nsec t <? nsec u)).

Definition After (t u : Time) : bool :=
  (unix u <? unix t) || ((unix u =? unix t) && (nsec u <? nsec t)).

Definition Equal (t u : Time) : bool :=
  (unix t =? unix u) && (nsec t =? nsec u).

Definition isLeap (year : Z) : bool :=
  (Z.rem year 4 =? 0) && (negb (Z.rem year 100 =? 0) || (Z.rem year 400 =? 0)).

(** [daysBefore[m]]: days of a non-leap year before month [m+1]. *)
Definition daysBefore_tbl : list Z :=
  [0; 31; 59; 90; 120; 151; 181; 212; 243; 273; 304; 334; 365].

Definition daysBefore (m : Z) : Z := nth (Z.to_nat m) daysBefore_tbl 0.

(** [norm(hi, lo, base)]: carry [lo] into [hi] so that [0 <= lo < base]. *)
Definition norm (hi lo base : Z) : Z * Z := (hi + lo / base, lo mod base).

(** Days from 0001-01-01 to the first of January of [year]. *)
Definition daysSinceYear1 (year : Z) : Z :=
  let p := year - 1 in 365 * p + p / 4 - p / 100 + p / 400.

(** 1970-01-01 as a day count from 0001-01-01. *)
Definition unixEpochDay : Z := 719162.

(** The year and the day within the year of a day count, peeling off cycles
    of 400, 100, 4 and 1 years as [absDate] does. *)
Definition yearDay (d : Z) : Z * Z :=
  let n400 := d / 146097 in
  let d := d - 146097 * n400 in
  let n100 := d / 36524 in
  let n100 := n100 - n100 / 4 in
  let d := d - 36524 * n100 in
  let n4 := d / 1461 in
  let d := d - 1461 * n4 in
  let n1 := d / 365 in
  let n1 := n1 - n1 / 4 in
  let d := d - 365 * n1 in
  (1 + 400 * n400 + 100 * n100 + 4 * n4 + n1, d).

(** Month (1..12) and day of the month from the year and day of the year. *)
Definition monthDay (year yday : Z) : Z * Z :=
  if isLeap year && (yday =? 31 + 29 - 1) then (2, 29)
  else
    let day := if isLeap year && (31 + 29 - 1 <? yday) then yday - 1 else yday in
    let month := day / 31 in
    let e := daysBefore (month + 1) in
    if e <=? day then (month + 2, day - e + 1)
    else (month + 1, day - daysBefore month + 1).

(** *** The wall clock

    [Date], [t.Date()] and [t.Clock()] compute on the wall clock of the
    location: the seconds, counted like Unix time, that a clock set to the
    zone in effect shows.  [wall.Date], [wall.civil] and [wall.clock] are
    these computations with the zone set aside; they are the three
    functions in the location UTC. *)
Module wall.

Record Time : Type := mkTime { unix : Z; nsec : Z }.

(** The fields may lie outside their usual ranges and are normalised, month
    into year and the clock fields into the day, and the day is then added
    as an offset from the first of the month, so that a day beyond the end
    of the month runs over into the following month. *)
Definition Date (year month day hour min sec ns : Z) : Time :=
  let '(year, m) := norm year (month - 1) 12 in
  let '(sec, ns) := norm sec ns 1000000000 in
  let '(min, sec) := norm min sec 60 in
  let '(hour, min) := norm hour min 60 in
  let '(day, hour) := norm day hour 24 in
  let d := daysSinceYear1 year + daysBefore m
           + (if isLeap year && (2 <=? m) then 1 else 0)
           + (day - 1) in
  mkTime ((d - unixEpochDay) * 86400 + hour * 3600 + min * 60 + sec) ns.

Definition civil (t : Time) : Z * Z * Z :=
  let '(year, yday) := yearDay (unix t / 86400 + unixEpochDay) in
  let '(month, day) := monthDay year yday in
  (year, month, day).

Definition clock (t : Time) : Z * Z * Z :=
  let s := unix t mod 86400 in
  (s / 3600, (s mod 3600) / 60, s mod 60).

End wall.

(** The offset of the zone in effect at a Unix time. *)
Definition offsetAt (l : Location) (sec : Z) : Z := (lookup l sec).1.1.

(** [t.abs()]: the wall clock of [t] in its location. *)
Definition abs (t : Time) : wall.Time :=
  wall.mkTime (unix t + offsetAt (loc t) (unix t)) (nsec t).

(** [time.Date(year, month, day, hour, min, sec, nsec, loc)]: the wall clock
    reading is computed, the zone in effect is looked up with the reading
    taken as a Unix time, and looked up once more when the time found lies
    outside the period of that zone. *)
Definition Date (year month day hour min sec ns : Z) (loc : Location) : Time :=
  let w := wall.Date year month day hour min sec ns in
  let unix := wall.unix w in
  let '(offset, start, end_) := lookup loc unix in
  let offset :=
    if negb (offset =? 0) then
      let utc := unix - offset in
      if (utc <? start) || (end_ <=? utc) then offsetAt loc utc else offset
    else offset in
  mkTime (unix - offset) (wall.nsec w) loc.

(** [t.Date()]. *)
Definition civil (t : Time) : Z * Z * Z := wall.civil (abs t).

(** [t.Clock()]. *)
Definition clock (t : Time) : Z * Z * Z := wall.clock (abs t).

(** [t.AddDate(years, months, days)], in the location of [t]. *)
Definition AddDate (t : Time) (years months days : Z) : Time :=
  let '(year, month, day) := civil t in
  let '(hour, min, sec) := clock t in
  Date (wrap_int (year + years)) (wrap_int (month + months)) (wrap_int (day + days))
       hour min sec (nsec t) (loc t).

(** *** The civil calendar, for the statements about [AddDate] *)

(** Days of a year. *)
Definition yearLen (year : Z) : Z := if isLeap year then 366 else 365.

(** Days of a month, given whether the year is a leap year. *)
Definition daysInMonth (leap : bool) (month : Z) : Z :=
  if month =? 2 then (if leap then 29 else 28)
  else if (month =? 4) || (month =? 6) || (month =? 9) || (month =? 11) then 30
  else 31.

Definition daysIn (year month : Z) : Z := daysInMonth (isLeap year) month.

(** A date of the calendar: a month of the year and a day that the month
    has. *)
Definition valid_date (year month day : Z) : Prop :=
  1 ≤ month ≤ 12 ∧ 1 ≤ day ≤ daysIn year month.

(** The day of the year, from 0, that [Date] adds to the days before the
    year; with the leap flag as a parameter, and for a year. *)
Definition dayOfYear (leap : bool) (month day : Z) : Z :=
  daysBefore (month - 1) + (if leap && (2 <=? month - 1) then 1 else 0) + (day - 1).

Definition yearDayOf (year month day : Z) : Z := dayOfYear (isLeap year) month day.

(** [monthDay] with the leap flag as a parameter: the two agree by
    computation, and this one can be evaluated on every day of a year. *)
Definition monthDay_with (leap : bool) (yday : Z) : Z * Z :=
  if leap && (yday =? 31 + 29 - 1) then (2, 29)
  else
    let day := if leap && (31 + 29 - 1 <? yday) then yday - 1 else yday in
    let month := day / 31 in
    let e := daysBefore (month + 1) in
    if e <=? day then (month + 2, day - e + 1)
    else (month + 1, day - daysBefore month + 1).

(** A year, or a number of months, of a magnitude for which the arithmetic
    of [Date] does not overflow. *)
Definition in_range (z : Z) : Prop := - 2 ^ 31 ≤ z < 2 ^ 31.

(** The offsets of the location are within a day of UTC. *)
Definition bounded (l : Location) : Prop :=
  ∀ sec, - 86400 ≤ offsetAt l sec ≤ 86400.

(** The zone [lookup] gives for a Unix time is in effect over the whole
    period it gives with it. *)
Definition coherent (l : Location) : Prop :=
  ∀ sec sec' offset start end_,
    lookup l sec = (offset, start, end_) → start ≤ sec' < end_ →
    lookup l sec' = (offset, start, end_).

(** A wall clock reading whose zone [Date] finds at its first lookup: the
    reading, taken as a Unix time, and the time it stands for lie in the
    period of the same zone.  This fails only within an offset's distance
    of a change of zone. *)
Definition settled (l : Location) (reading : Z) : Prop :=
  let '(offset, start, end_) := lookup l reading in
  offset = 0 ∨ start ≤ reading - offset < end_.

End GoTime.

Import GoTime.

Local Open Scope string_scope.

(** ** HTTP responses ([gin.Context.JSON]) *)

Definition StatusBadRequest : Z := 400.
Definition StatusUnauthorized : Z := 401.
Definition StatusNotFound : Z := 404.
Definition StatusConflict : Z := 409.
Definition StatusInternalServerError : Z := 500.

(** ** Tables of the persistence layer *)

Record Table (A : Type) : Type := mkTable {
  rows : gmap N A;      (* primary key |-> row *)
  next_id : N           (* next value of the key sequence *)
}.
Arguments mkTable {A} _ _.
Arguments rows {A} _.
Arguments next_id {A} _.

Section Queries.
Context {A : Type}.

Definition empty_table : Table A := mkTable ∅ 1%N.

(** [db.First(&row, id)]: the row under a primary key. *)
Definition by_id (t : Table A) (id : N) : option A := rows t !! id.

(** [db.Where(cond).First(&row)]: the matching row of least primary key
    ([First] orders by the primary key). *)
Definition least (kv : N * A) (acc : option (N * A)) : option (N * A) :=
  match acc with
  | Some kv' => if (kv.1 <? kv'.1)%N then Some kv else acc
  | None => Some kv
  end.

Definition first_where (cond : N → A → bool) (t : Table A) : option (N * A) :=
  foldr (λ kv acc, if cond kv.1 kv.2 then least kv acc else acc)
        None (map_to_list (rows t)).

(** [db.Model(..).Where(cond).Count(&count)]. *)
Definition count_where (cond : N → A → bool) (t : Table A) : Z :=
  Z.of_nat (length (List.filter (λ kv, cond kv.1 kv.2) (map_to_list (rows t)))).

(** [db.Create(&row)] on a table without constraints: the row is stored
    under the next key of the sequence. *)
Definition create (t : Table A) (a : A) : N * Table A :=
  (next_id t, mkTable (<[next_id t := a]> (rows t)) (N.succ (next_id t))).

(** [db.Save(&row)] for a row read under key [id]: all columns written. *)
Definition save (t : Table A) (id : N) (a : A) : Table A :=
  mkTable (<[id := a]> (rows t)) (next_id t).

(** [db.Delete(&row)] on a model without a [DeletedAt] column. *)
Definition hard_delete (t : Table A) (id : N) : Table A :=
  mkTable (delete id (rows t)) (next_id t).

(** Every stored key was drawn from the sequence. *)
Definition keys_below_next (t : Table A) : Prop :=
  ∀ id a, rows t !! id = Some a → (id < next_id t)%N.
End Queries.
Arguments empty_table : clear implicits.

Module models.

(** *** [SubscriptionPack] *)
Module SubscriptionPack.
(** [Price] (a [float64]) is left out: no operation below reads it.
    [ValidityMonths] is an [int]: its values are those of [is_int], and
    [AddDate] adds it to the month as an [int]. *)
Record t : Type := mk {
  Name : string;
  Description : string;
  SKU : string;
  ValidityMonths : Z;
  DeletedAt : option Time
}.

Definition IsValid (sp : t) : bool :=
  match DeletedAt sp with None => true | Some _ => false end.
End SubscriptionPack.

(** *** [Subscription] *)
Definition SubscriptionStatus : Type := string.
Definition StatusRequested : SubscriptionStatus := "requested".
Definition StatusApproved : SubscriptionStatus := "approved".
Definition StatusActive : SubscriptionStatus := "active".
Definition StatusInactive : SubscriptionStatus := "inactive".
Definition StatusExpired : SubscriptionStatus := "expired".

Module Subscription.
Record t : Type := mk {
  CustomerID : N;
  PackID : N;
  Status : SubscriptionStatus;
  RequestedAt : Time;
  ApprovedAt : option Time;
  AssignedAt : option Time;
  ExpiresAt : option Time;
  DeactivatedAt : option Time
}.

Definition set_Status (v : SubscriptionStatus) (s : t) : t :=
  mk (CustomerID s) (PackID s) v (RequestedAt s) (ApprovedAt s)
     (AssignedAt s) (ExpiresAt s) (DeactivatedAt s).
Definition set_ApprovedAt (v : option Time) (s : t) : t :=
  mk (CustomerID s) (PackID s) (Status s) (RequestedAt s) v
     (AssignedAt s) (ExpiresAt s) (DeactivatedAt s).
Definition set_AssignedAt (v : option Time) (s : t) : t :=
  mk (CustomerID s) (PackID s) (Status s) (RequestedAt s) (ApprovedAt s)
     v (ExpiresAt s) (DeactivatedAt s).
Definition set_ExpiresAt (v : option Time) (s : t) : t :=
  mk (CustomerID s) (PackID s) (Status s) (RequestedAt s) (ApprovedAt s)
     (AssignedAt s) v (DeactivatedAt s).
Definition set_DeactivatedAt (v : option Time) (s : t) : t :=
  mk (CustomerID s) (PackID s) (Status s) (RequestedAt s) (ApprovedAt s)
     (AssignedAt s) (ExpiresAt s) v.

(** The map literal of [CanTransitionTo]. *)
Definition validTransitions : list (SubscriptionStatus * list SubscriptionStatus) :=
  [ (StatusRequested, [StatusApproved; StatusInactive]);
    (StatusApproved,  [StatusActive; StatusInactive]);
    (StatusActive,    [StatusInactive; StatusExpired]);
    (StatusInactive,  [StatusActive]);
    (StatusExpired,   [StatusRequested]) ].

(** [validTransitions[k]] with its [exists] flag. *)
Fixpoint map_index (m : list (SubscriptionStatus * list SubscriptionStatus))
         (k : SubscriptionStatus) : option (list SubscriptionStatus) :=
  match m with
  | [] => None
  | (k', v) :: m' => if String.eqb k' k then Some v else map_index m' k
  end.

(** The [for _, allowed := range allowedStatuses] loop. *)
Fixpoint range_has (allowedStatuses : list SubscriptionStatus)
         (newStatus : SubscriptionStatus) : bool :=
  match allowedStatuses with
  | [] => false
  | allowed :: rest =>
      if String.eqb allowed newStatus then true else range_has rest newStatus
  end.

Definition CanTransitionTo (s : t) (newStatus : SubscriptionStatus) : bool :=
  match map_index validTransitions (Status s) with
  | None => false
  | Some allowedStatuses => range_has allowedStatuses newStatus
  end.

(** [IsActive], with [time.Now()] as [now]. *)
Definition IsActive (s : t) (now : Time) : bool :=
  String.eqb (Status s) StatusActive &&
  match ExpiresAt s with
  | Some e => After e now
  | None => false
  end.

(** [IsExpired], with [time.Now()] as [now]. *)
Definition IsExpired (s : t) (now : Time) : bool :=
  match ExpiresAt s with
  | Some e => Before e now
  | None => false
  end.

(** [CalculateExpiry(pack)].  [pack] is a pointer: [None] is the nil pack,
    and reading [pack.ValidityMonths] through it panics, which is the
    result [None]. *)
Definition CalculateExpiry (s : t) (pack : option SubscriptionPack.t) : option t :=
  match AssignedAt s with
  | Some a =>
      match pack with
      | Some p =>
          let expiry := AddDate a 0 (SubscriptionPack.ValidityMonths p) 0 in
          Some (set_ExpiresAt (Some expiry) s)
      | None => None
      end
  | None => Some s
  end.
End Subscription.

(** *** [User] *)

(** The cryptographic collaborators: [bcrypt.GenerateFromPassword] (or its
    error), [bcrypt.CompareHashAndPassword(hash, password) == nil], and the
    HS256 signature of the claims [user_id], [email], [role], [exp], [iat]
    (or its error). *)
Class Crypto : Type := {
  bcrypt_GenerateFromPassword : string → option string;
  bcrypt_CompareHashAndPassword : string → string → bool;
  jwt_SignedString : N → string → string → Z → Z → option string
}.

(** [hex.EncodeToString]. *)
Definition hexdigit (n : N) : ascii :=
  nth (N.to_nat n) (list_ascii_of_string "0123456789abcdef") "0"%char.

Definition EncodeToString (bytes : list Byte.byte) : string :=
  string_of_list_ascii
    (flat_map (λ b, [hexdigit (Byte.to_N b / 16); hexdigit (Byte.to_N b mod 16)]) bytes).

Module User.
Record t : Type := mk {
  Email : string;
  Password : string;
  Role : string;
  APIKey : option string
}.

#[global] Instance eq_dec : EqDecision t.
Proof. solve_decision. Defined.

Definition set_Password (v : string) (u : t) : t :=
  mk (Email u) v (Role u) (APIKey u).
Definition set_APIKey (v : option string) (u : t) : t :=
  mk (Email u) (Password u) (Role u) v.

Definition HashPassword `{Crypto} (u : t) : option t :=
  match bcrypt_GenerateFromPassword (Password u) with
  | None => None
  | Some hashedPassword => Some (set_Password hashedPassword u)
  end.

Definition CheckPassword `{Crypto} (u : t) (password : string) : bool :=
  bcrypt_CompareHashAndPassword (Password u) password.

Definition IsAdmin (u : t) : bool := String.eqb (Role u) "admin".
Definition IsCustomer (u : t) : bool := String.eqb (Role u) "customer".

(** [GenerateAPIKey]; [random] is the outcome of [rand.Read] on the
    16-byte buffer, [None] for its error. *)
Definition GenerateAPIKey (u : t) (random : option (list Byte.byte)) : option t :=
  match random with
  | None => None
  | Some bytes =>
      let apiKey := "sk-sdk-" +:+ EncodeToString bytes in
      Some (set_APIKey (Some apiKey) u)
  end.

Definition HasAPIKey (u : t) : bool :=
  match APIKey u with
  | Some k => negb (String.eqb k EmptyString)
  | None => false
  end.
End User.

(** *** [Customer] *)
Module Customer.
Record t : Type := mk {
  UserID : N;
  Name : string;
  Phone : string;
  DeletedAt : option Time
}.

(** The condition ["customer_id = ? AND status = ?", c.ID, "active"]. *)
Definition active_of (id : N) (_ : N) (s : Subscription.t) : bool :=
  N.eqb (Subscription.CustomerID s) id && String.eqb (Subscription.Status s) "active".

(** [GetActiveSubscription] of the customer stored under key [id]. *)
Definition GetActiveSubscription (id : N) (subscriptions : Table Subscription.t)
  : option (N * Subscription.t) :=
  first_where (active_of id) subscriptions.

(** [HasActiveSubscription] of the customer stored under key [id]. *)
Definition HasActiveSubscription (id : N) (subscriptions : Table Subscription.t) : bool :=
  let count := count_where (active_of id) subscriptions in
  (0 <? count)%Z.
End Customer.

End models.

Import models.

(** ** The database *)

Record DB : Type := mkDB {
  users : Table User.t;
  customers : Table Customer.t;
  subscription_packs : Table SubscriptionPack.t;
  subscriptions : Table Subscription.t
}.

Definition with_users (t : Table User.t) (db : DB) : DB :=
  mkDB t (customers db) (subscription_packs db) (subscriptions db).
Definition with_customers (t : Table Customer.t) (db : DB) : DB :=
  mkDB (users db) t (subscription_packs db) (subscriptions db).
Definition with_subscriptions (t : Table Subscription.t) (db : DB) : DB :=
  mkDB (users db) (customers db) (subscription_packs db) t.

(** Reads of the soft-deletable models carry [deleted_at IS NULL]. *)
Definition live_customer (c : Customer.t) : bool :=
  match Customer.DeletedAt c with None => true | Some _ => false end.

Definition find_customer (db : DB) (id : N) : option Customer.t :=
  match by_id (customers db) id with
  | Some c => if live_customer c then Some c else None
  | None => None
  end.

Definition find_pack (db : DB) (id : N) : option SubscriptionPack.t :=
  match by_id (subscription_packs db) id with
  | Some p => if SubscriptionPack.IsValid p then Some p else None
  | None => None
  end.

(** [db.Where("sku = ?", sku).First(&pack)]. *)
Definition find_pack_by_sku (db : DB) (sku : string) : option (N * SubscriptionPack.t) :=
  first_where (λ _ p, String.eqb (SubscriptionPack.SKU p) sku && SubscriptionPack.IsValid p)
              (subscription_packs db).

(** [Preload("Customer")] of the user under key [uid]. *)
Definition customer_of_user (db : DB) (uid : N) : option (N * Customer.t) :=
  first_where (λ _ c, N.eqb (Customer.UserID c) uid && live_customer c) (customers db).

(** [db.Where("email = ? AND role = ?", email, role).First(&user)]. *)
Definition find_user_by_email_role (db : DB) (email role : string) : option (N * User.t) :=
  first_where (λ _ u, String.eqb (User.Email u) email && String.eqb (User.Role u) role)
              (users db).

(** [db.Where("email = ?", email).First(&user)]. *)
Definition find_user_by_email (db : DB) (email : string) : option (N * User.t) :=
  first_where (λ _ u, String.eqb (User.Email u) email) (users db).

(** The unique indexes of [users] ([email], and [api_key] where it is not
    NULL): does a row other than [self] collide with [u]? *)
Definition user_collides (self : option N) (u : User.t) (id : N) (v : User.t) : bool :=
  negb (bool_decide (self = Some id)) &&
  (String.eqb (User.Email v) (User.Email u) ||
   match User.APIKey u, User.APIKey v with
   | Some k, Some k' => String.eqb k k'
   | _, _ => false
   end).

Definition create_user (t : Table User.t) (u : User.t) : option (N * Table User.t) :=
  match first_where (user_collides None u) t with
  | Some _ => None
  | None => Some (create t u)
  end.

Definition save_user (t : Table User.t) (id : N) (u : User.t) : option (Table User.t) :=
  match first_where (user_collides (Some id) u) t with
  | Some _ => None
  | None => Some (save t id u)
  end.

(** The unique index of [customers] on [user_id]. *)
Definition create_customer (t : Table Customer.t) (c : Customer.t)
  : option (N * Table Customer.t) :=
  match first_where (λ _ v, N.eqb (Customer.UserID v) (Customer.UserID c)) t with
  | Some _ => None
  | None => Some (create t c)
  end.

(** ** handlers *)

Module handlers.

(** The [data] member of a success body.  A login response carries the
    user and, with it, the customer profile that was preloaded into the
    user ([None] where none was: the field is then left out of the
    body). *)
Inductive Data : Type :=
| DSubscription (id : N) (s : Subscription.t)
| DCustomer (id : N) (c : Customer.t)
| DLoginResponse (Token : string) (id : N) (user : User.t)
                 (Customer : option (N * Customer.t))
| DSDKLoginResponse (APIKey : string) (id : N) (user : User.t)
                    (Customer : option (N * Customer.t))
| DMessage (message : string).

(** The [gin.H] bodies the handlers send. *)
Record H : Type := mkH {
  h_success : bool;
  h_data : option Data;
  h_message : option string;
  h_error : option string
}.

(** What a handler does to the connection: [c.JSON(code, body)], or a
    run-time panic before any body was written. *)
Inductive Outcome : Type :=
| JSON (code : Z) (body : H)
| Panicked.

(** *** [BaseHandler] *)
Module BaseHandler.
(** [GetCurrentUser]; [user_id] is [c.Get("user_id")]. *)
Definition GetCurrentUser (db : DB) (user_id : option N)
  : option (N * User.t * option (N * Customer.t)) :=
  match user_id with
  | None => None
  | Some userID =>
      match by_id (users db) userID with
      | None => None
      | Some user => Some (userID, user, customer_of_user db userID)
      end
  end.

Definition GetCurrentCustomer (db : DB) (user_id : option N) : option (N * Customer.t) :=
  match GetCurrentUser db user_id with
  | None => None
  | Some (_, _, customer) => customer
  end.

Definition SuccessResponse (data : Data) (message : string) : Outcome :=
  JSON 200 (mkH true (Some data)
                (if String.eqb message EmptyString then None else Some message) None).

Definition ErrorResponse (statusCode : Z) (message : string) : Outcome :=
  JSON statusCode (mkH false None None (Some message)).
End BaseHandler.
Import BaseHandler.

Module SubscriptionRequest.
Record t : Type := mk { PackSKU : string }.
End SubscriptionRequest.

Module CreateSubscriptionRequest.
Record t : Type := mk { CustomerID : N; PackSKU : string }.
End CreateSubscriptionRequest.

Module LoginRequest.
Record t : Type := mk { Email : string; Password : string }.
End LoginRequest.

Module SignupRequest.
Record t : Type := mk { Email : string; Password : string; Name : string; Phone : string }.
End SignupRequest.

Module CreateCustomerRequest.
Record t : Type := mk { Email : string; Password : string; Name : string; Phone : string }.
End CreateCustomerRequest.

(** *** [SubscriptionHandler]

    In every handler [id] is the result of [strconv.ParseUint] on the path
    parameter and [req] that of [ShouldBindJSON], [None] for an error. *)
Module SubscriptionHandler.

Definition CreateSubscription (db : DB) (req : option CreateSubscriptionRequest.t)
           (now : Time) : Outcome * DB :=
  match req with
  | None => (ErrorResponse StatusBadRequest "Invalid request format", db)
  | Some req =>
  match find_customer db (CreateSubscriptionRequest.CustomerID req) with
  | None => (ErrorResponse StatusNotFound "Customer not found", db)
  | Some customer =>
  match find_pack_by_sku db (CreateSubscriptionRequest.PackSKU req) with
  | None => (ErrorResponse StatusNotFound "Subscription pack not found", db)
  | Some (packID, pack) =>
  if Customer.HasActiveSubscription (CreateSubscriptionRequest.CustomerID req)
                                    (subscriptions db)
  then (ErrorResponse StatusConflict "Customer already has an active subscription", db)
  else
    let subscription :=
      Subscription.mk (CreateSubscriptionRequest.CustomerID req) packID
                      StatusRequested now None None None None in
    let '(id, tbl) := create (subscriptions db) subscription in
    (SuccessResponse (DSubscription id subscription) "Subscription created successfully",
     with_subscriptions tbl db)
  end end end.

Definition ApproveSubscription (db : DB) (id : option N) (now : Time) : Outcome * DB :=
  match id with
  | None => (ErrorResponse StatusBadRequest "Invalid subscription ID", db)
  | Some id =>
  match by_id (subscriptions db) id with
  | None => (ErrorResponse StatusNotFound "Subscription not found", db)
  | Some subscription =>
  if negb (Subscription.CanTransitionTo subscription StatusApproved)
  then (ErrorResponse StatusBadRequest "Subscription cannot be approved in current status", db)
  else
    let subscription := Subscription.set_Status StatusApproved subscription in
    let subscription := Subscription.set_ApprovedAt (Some now) subscription in
    (SuccessResponse (DSubscription id subscription) "Subscription approved successfully",
     with_subscriptions (save (subscriptions db) id subscription) db)
  end end.

Definition AssignSubscription (db : DB) (id : option N) (now : Time) : Outcome * DB :=
  match id with
  | None => (ErrorResponse StatusBadRequest "Invalid subscription ID", db)
  | Some id =>
  match by_id (subscriptions db) id with
  | None => (ErrorResponse StatusNotFound "Subscription not found", db)
  | Some subscription =>
  (* Preload("Pack") *)
  let Pack := find_pack db (Subscription.PackID subscription) in
  if negb (Subscription.CanTransitionTo subscription StatusActive)
  then (ErrorResponse StatusBadRequest "Subscription cannot be assigned in current status", db)
  else
  match find_customer db (Subscription.CustomerID subscription) with
  | None => (ErrorResponse StatusNotFound "Customer not found", db)
  | Some customer =>
  if Customer.HasActiveSubscription (Subscription.CustomerID subscription)
                                    (subscriptions db)
  then (ErrorResponse StatusConflict "Customer already has an active subscription", db)
  else
    let subscription := Subscription.set_Status StatusActive subscription in
    let subscription := Subscription.set_AssignedAt (Some now) subscription in
    match Subscription.CalculateExpiry subscription Pack with
    | None => (Panicked, db)
    | Some subscription =>
        (SuccessResponse (DSubscription id subscription) "Subscription assigned successfully",
         with_subscriptions (save (subscriptions db) id subscription) db)
    end
  end end end.

Definition UnassignSubscription (db : DB) (id : option N) (now : Time) : Outcome * DB :=
  match id with
  | None => (ErrorResponse StatusBadRequest "Invalid subscription ID", db)
  | Some id =>
  match by_id (subscriptions db) id with
  | None => (ErrorResponse StatusNotFound "Subscription not found", db)
  | Some subscription =>
  if negb (String.eqb (Subscription.Status subscription) StatusActive)
  then (ErrorResponse StatusBadRequest "Only active subscriptions can be unassigned", db)
  else
    let subscription := Subscription.set_Status StatusInactive subscription in
    let subscription := Subscription.set_DeactivatedAt (Some now) subscription in
    (SuccessResponse (DSubscription id subscription) "Subscription unassigned successfully",
     with_subscriptions (save (subscriptions db) id subscription) db)
  end end.

Definition DeleteSubscription (db : DB) (id : option N) : Outcome * DB :=
  match id with
  | None => (ErrorResponse StatusBadRequest "Invalid subscription ID", db)
  | Some id =>
  match by_id (subscriptions db) id with
  | None => (ErrorResponse StatusNotFound "Subscription not found", db)
  | Some subscription =>
    (SuccessResponse (DMessage "Subscription deleted successfully") EmptyString,
     with_subscriptions (hard_delete (subscriptions db) id) db)
  end end.

Definition GetCurrentSubscription (db : DB) (user_id : option N) : Outcome * DB :=
  match GetCurrentCustomer db user_id with
  | None => (ErrorResponse StatusUnauthorized "Customer not found", db)
  | Some (customerID, customer) =>
  match Customer.GetActiveSubscription customerID (subscriptions db) with
  | None => (ErrorResponse StatusNotFound "No active subscription found", db)
  | Some (id, subscription) =>
    (SuccessResponse (DSubscription id subscription) "Current subscription retrieved", db)
  end end.

Definition RequestSubscription (db : DB) (user_id : option N)
           (req : option SubscriptionRequest.t) (now : Time) : Outcome * DB :=
  match GetCurrentCustomer db user_id with
  | None => (ErrorResponse StatusUnauthorized "Customer not found", db)
  | Some (customerID, customer) =>
  match req with
  | None => (ErrorResponse StatusBadRequest "Invalid request format", db)
  | Some req =>
  if Customer.HasActiveSubscription customerID (subscriptions db)
  then (ErrorResponse StatusConflict "Customer already has an active subscription", db)
  else
  match find_pack_by_sku db (SubscriptionRequest.PackSKU req) with
  | None => (ErrorResponse StatusBadRequest "Invalid subscription pack", db)
  | Some (packID, pack) =>
    let subscription :=
      Subscription.mk customerID packID StatusRequested now None None None None in
    let '(id, tbl) := create (subscriptions db) subscription in
    (SuccessResponse (DSubscription id subscription)
                     "Subscription request created successfully",
     with_subscriptions tbl db)
  end end end.

Definition DeactivateSubscription (db : DB) (user_id : option N) (now : Time)
  : Outcome * DB :=
  match GetCurrentCustomer db user_id with
  | None => (ErrorResponse StatusUnauthorized "Customer not found", db)
  | Some (customerID, customer) =>
  match Customer.GetActiveSubscription customerID (subscriptions db) with
  | None => (ErrorResponse StatusNotFound "No active subscription found", db)
  | Some (id, subscription) =>
    let subscription := Subscription.set_Status StatusInactive subscription in
    let subscription := Subscription.set_DeactivatedAt (Some now) subscription in
    (SuccessResponse (DSubscription id subscription) "Subscription deactivated successfully",
     with_subscriptions (save (subscriptions db) id subscription) db)
  end end.

End SubscriptionHandler.

(** *** [UserHandler] *)
Module UserHandler.
Section WithCrypto.
Context `{Crypto}.

(** [generateJWT]: the token expires 24 hours after [now]. *)
Definition generateJWT (id : N) (user : User.t) (now : Time) : option string :=
  jwt_SignedString id (User.Email user) (User.Role user)
                   (unix now + 24 * 3600)%Z (unix now).

Definition AdminLogin (db : DB) (req : option LoginRequest.t) (now : Time)
  : Outcome * DB :=
  match req with
  | None => (ErrorResponse StatusBadRequest "Invalid request format", db)
  | Some req =>
  match find_user_by_email_role db (LoginRequest.Email req) "admin" with
  | None => (ErrorResponse StatusUnauthorized "Invalid credentials", db)
  | Some (id, user) =>
  if negb (User.CheckPassword user (LoginRequest.Password req))
  then (ErrorResponse StatusUnauthorized "Invalid credentials", db)
  else
  match generateJWT id user now with
  | None => (ErrorResponse StatusInternalServerError "Failed to generate token", db)
  | Some token =>
    let user := User.set_Password EmptyString user in
    let user := User.set_APIKey None user in
    (SuccessResponse (DLoginResponse token id user None) "Login successful", db)
  end end end.

Definition CustomerLogin (db : DB) (req : option LoginRequest.t) (now : Time)
  : Outcome * DB :=
  match req with
  | None => (ErrorResponse StatusBadRequest "Invalid request format", db)
  | Some req =>
  match find_user_by_email_role db (LoginRequest.Email req) "customer" with
  | None => (ErrorResponse StatusUnauthorized "Invalid credentials", db)
  | Some (id, user) =>
  (* Preload("Customer") *)
  let Customer := customer_of_user db id in
  if negb (User.CheckPassword user (LoginRequest.Password req))
  then (ErrorResponse StatusUnauthorized "Invalid credentials", db)
  else
  match generateJWT id user now with
  | None => (ErrorResponse StatusInternalServerError "Failed to generate token", db)
  | Some token =>
    let user := User.set_Password EmptyString user in
    let user := User.set_APIKey None user in
    (SuccessResponse (DLoginResponse token id user Customer) "Login successful", db)
  end end end.

(** [CustomerSignup]; [random] is the outcome of [rand.Read]. *)
Definition CustomerSignup (db : DB) (req : option SignupRequest.t)
           (random : option (list Byte.byte)) (now : Time) : Outcome * DB :=
  match req with
  | None => (ErrorResponse StatusBadRequest "Invalid request format", db)
  | Some req =>
  match find_user_by_email db (SignupRequest.Email req) with
  | Some existingUser => (ErrorResponse StatusConflict "Email already registered", db)
  | None =>
  let user := User.mk (SignupRequest.Email req) (SignupRequest.Password req)
                      "customer" None in
  match User.HashPassword user with
  | None => (ErrorResponse StatusInternalServerError "Failed to process password", db)
  | Some user =>
  match User.GenerateAPIKey user random with
  | None => (ErrorResponse StatusInternalServerError "Failed to generate API key", db)
  | Some user =>
  match create_user (users db) user with
  | None => (ErrorResponse StatusInternalServerError "Failed to create user", db)
  | Some (id, utbl) =>
  let db := with_users utbl db in
  let customer := Customer.mk id (SignupRequest.Name req) (SignupRequest.Phone req) None in
  match create_customer (customers db) customer with
  | None => (ErrorResponse StatusInternalServerError "Failed to create customer profile", db)
  | Some (_, ctbl) =>
  let db := with_customers ctbl db in
  match generateJWT id user now with
  | None => (ErrorResponse StatusInternalServerError "Failed to generate token", db)
  | Some token =>
    (* Preload("Customer").First(user, user.ID) *)
    let Customer := customer_of_user db id in
    let user := User.set_Password EmptyString user in
    let user := User.set_APIKey None user in
    (SuccessResponse (DLoginResponse token id user Customer) "Registration successful", db)
  end end end end end end end.

End WithCrypto.
End UserHandler.

(** *** [CustomerHandler] *)
Module CustomerHandler.
Section WithCrypto.
Context `{Crypto}.

Definition CreateCustomer (db : DB) (req : option CreateCustomerRequest.t)
  : Outcome * DB :=
  match req with
  | None => (ErrorResponse StatusBadRequest "Invalid request format", db)
  | Some req =>
  match find_user_by_email db (CreateCustomerRequest.Email req) with
  | Some existingUser => (ErrorResponse StatusConflict "Email already registered", db)
  | None =>
  let user := User.mk (CreateCustomerRequest.Email req)
                      (CreateCustomerRequest.Password req) "customer" None in
  match User.HashPassword user with
  | None => (ErrorResponse StatusInternalServerError "Failed to process password", db)
  | Some user =>
  match create_user (users db) user with
  | None => (ErrorResponse StatusInternalServerError "Failed to create user", db)
  | Some (id, utbl) =>
  let db := with_users utbl db in
  let customer := Customer.mk id (CreateCustomerRequest.Name req)
                              (CreateCustomerRequest.Phone req) None in
  match create_customer (customers db) customer with
  | None => (ErrorResponse StatusInternalServerError "Failed to create customer profile", db)
  | Some (customerID, ctbl) =>
    (SuccessResponse (DCustomer customerID customer) "Customer created successfully",
     with_customers ctbl db)
  end end end end end.

End WithCrypto.
End CustomerHandler.

(** *** [SDKHandler] *)
Module SDKHandler.
Section WithCrypto.
Context `{Crypto}.

(** [Login]; [random] is the outcome of [rand.Read], consulted only when
    a key has to be generated. *)
Definition Login (db : DB) (req : option LoginRequest.t)
           (random : option (list Byte.byte)) : Outcome * DB :=
  match req with
  | None => (ErrorResponse StatusBadRequest "Invalid request format", db)
  | Some req =>
  match find_user_by_email_role db (LoginRequest.Email req) "customer" with
  | None => (ErrorResponse StatusUnauthorized "Invalid credentials", db)
  | Some (id, user) =>
  (* Preload("Customer") *)
  let Customer := customer_of_user db id in
  if negb (User.CheckPassword user (LoginRequest.Password req))
  then (ErrorResponse StatusUnauthorized "Invalid credentials", db)
  else
    let respond (user : User.t) (db : DB) : Outcome * DB :=
      let user := User.set_Password EmptyString user in
      let apiKey := match User.APIKey user with Some k => k | None => EmptyString end in
      (SuccessResponse (DSDKLoginResponse apiKey id user Customer)
                       "SDK authentication successful",
       db) in
    if negb (User.HasAPIKey user) then
      match User.GenerateAPIKey user random with
      | None => (ErrorResponse StatusInternalServerError "Failed to generate API key", db)
      | Some user =>
          match save_user (users db) id user with
          | None => (ErrorResponse StatusInternalServerError "Failed to save API key", db)
          | Some utbl => respond user (with_users utbl db)
          end
      end
    else respond user db
  end end.

End WithCrypto.

Definition GetCurrentSubscription (db : DB) (user_id : option N) : Outcome * DB :=
  match GetCurrentCustomer db user_id with
  | None => (ErrorResponse StatusUnauthorized "Customer not found", db)
  | Some (customerID, customer) =>
  match Customer.GetActiveSubscription customerID (subscriptions db) with
  | None => (ErrorResponse StatusNotFound "No active subscription found", db)
  | Some (id, subscription) =>
    (SuccessResponse (DSubscription id subscription) "Current subscription retrieved", db)
  end end.

Definition RequestSubscription (db : DB) (user_id : option N)
           (req : option SubscriptionRequest.t) (now : Time) : Outcome * DB :=
  match GetCurrentCustomer db user_id with
  | None => (ErrorResponse StatusUnauthorized "Customer not found", db)
  | Some (customerID, customer) =>
  match req with
  | None => (ErrorResponse StatusBadRequest "Invalid request format", db)
  | Some req =>
  if Customer.HasActiveSubscription customerID (subscriptions db)
  then (ErrorResponse StatusConflict "Customer already has an active subscription", db)
  else
  match find_pack_by_sku db (SubscriptionRequest.PackSKU req) with
  | None => (ErrorResponse StatusBadRequest "Invalid subscription pack", db)
  | Some (packID, pack) =>
    let subscription :=
      Subscription.mk customerID packID StatusRequested now None None None None in
    let '(id, tbl) := create (subscriptions db) subscription in
    (SuccessResponse (DSubscription id subscription)
                     "Subscription request created successfully",
     with_subscriptions tbl db)
  end end end.

Definition DeactivateSubscription (db : DB) (user_id : option N) (now : Time)
  : Outcome * DB :=
  match GetCurrentCustomer db user_id with
  | None => (ErrorResponse StatusUnauthorized "Customer not found", db)
  | Some (customerID, customer) =>
  match Customer.GetActiveSubscription customerID (subscriptions db) with
  | None => (ErrorResponse StatusNotFound "No active subscription found", db)
  | Some (id, subscription) =>
    let subscription := Subscription.set_Status StatusInactive subscription in
    let subscription := Subscription.set_DeactivatedAt (Some now) subscription in
    (SuccessResponse (DSubscription id subscription) "Subscription deactivated successfully",
     with_subscriptions (save (subscriptions db) id subscription) db)
  end end.

End SDKHandler.

End handlers.

Import handlers.
Import BaseHandler.

(** * Specification-level definitions *)

(** The table of the specification, as pairs (from, to). *)
Definition spec_transition_table : list (SubscriptionStatus * SubscriptionStatus) :=
  [ (StatusRequested, StatusApproved); (StatusRequested, StatusInactive);
    (StatusApproved, StatusActive);    (StatusApproved, StatusInactive);
    (StatusActive, StatusInactive);    (StatusActive, StatusExpired);
    (StatusInactive, StatusActive);
    (StatusExpired, StatusRequested) ].

Ltac case_status x :=
  repeat match goal with
         | |- context [String.eqb ?c x] =>
             let E := fresh "E" in
             destruct (String.eqb c x) eqn:E;
             [apply String.eqb_eq in E; try subst x | apply String.eqb_neq in E]
         end.

(** ** The lifecycle operations as a step relation *)

(** One request to the lifecycle engine, with its inputs. *)
Inductive Op : Type :=
| OpRequest (user_id : option N) (req : option SubscriptionRequest.t) (now : Time)
| OpSDKRequest (user_id : option N) (req : option SubscriptionRequest.t) (now : Time)
| OpCreate (req : option CreateSubscriptionRequest.t) (now : Time)
| OpApprove (id : option N) (now : Time)
| OpAssign (id : option N) (now : Time)
| OpUnassign (id : option N) (now : Time)
| OpDeactivate (user_id : option N) (now : Time)
| OpSDKDeactivate (user_id : option N) (now : Time)
| OpDelete (id : option N).

Definition run_op (op : Op) (db : DB) : Outcome * DB :=
  match op with
  | OpRequest user_id req now => SubscriptionHandler.RequestSubscription db user_id req now
  | OpSDKRequest user_id req now => SDKHandler.RequestSubscription db user_id req now
  | OpCreate req now => SubscriptionHandler.CreateSubscription db req now
  | OpApprove id now => SubscriptionHandler.ApproveSubscription db id now
  | OpAssign id now => SubscriptionHandler.AssignSubscription db id now
  | OpUnassign id now => SubscriptionHandler.UnassignSubscription db id now
  | OpDeactivate user_id now => SubscriptionHandler.DeactivateSubscription db user_id now
  | OpSDKDeactivate user_id now => SDKHandler.DeactivateSubscription db user_id now
  | OpDelete id => SubscriptionHandler.DeleteSubscription db id
  end.

(** Requests are served one after the other. *)
Inductive Step : DB → DB → Prop :=
| Step_op (db : DB) (op : Op) : Step db (run_op op db).2.

Definition Steps : DB → DB → Prop := rtc Step.

Definition run (ops : list Op) (db : DB) : DB :=
  fold_left (λ db op, (run_op op db).2) ops db.

(** At most one subscription of a customer has the stored status [active]. *)
Definition one_active_per_customer (db : DB) : Prop :=
  ∀ i j s1 s2,
    rows (subscriptions db) !! i = Some s1 →
    rows (subscriptions db) !! j = Some s2 →
    Subscription.CustomerID s1 = Subscription.CustomerID s2 →
    Subscription.Status s1 = StatusActive →
    Subscription.Status s2 = StatusActive →
    i = j.

(** The customer an operation would give a new or newly activated
    subscription to, if its inputs name one. *)
Definition beneficiary (op : Op) (db : DB) : option N :=
  match op with
  | OpRequest user_id _ _ | OpSDKRequest user_id _ _ =>
      fst <$> GetCurrentCustomer db user_id
  | OpCreate (Some req) _ => Some (CreateSubscriptionRequest.CustomerID req)
  | OpAssign (Some id) _ => Subscription.CustomerID <$> by_id (subscriptions db) id
  | _ => None
  end.

(** A response that reports an error of the client. *)
Definition client_error (o : Outcome) : Prop :=
  ∃ code message, o = ErrorResponse code message ∧ (400 ≤ code < 500)%Z.

Definition conflict : Outcome :=
  ErrorResponse StatusConflict "Customer already has an active subscription".

Definition invalid_credentials : Outcome :=
  ErrorResponse StatusUnauthorized "Invalid credentials".

(** No subscription has the stored status [expired]. *)
Definition no_expired (db : DB) : Prop :=
  ∀ i s, rows (subscriptions db) !! i = Some s → Subscription.Status s ≠ StatusExpired.

(** The writes the lifecycle handlers make: each request leaves the database
    as it is, or stores one new [requested] row, or saves one row it has
    read with its status advanced, or removes one row.  Only the
    [subscriptions] table is written. *)
Inductive Write : DB → DB → Prop :=
| Write_nothing db :
    Write db db
| Write_requested db customerID packID now :
    Customer.HasActiveSubscription customerID (subscriptions db) = false →
    Write db (with_subscriptions
                (create (subscriptions db)
                   (Subscription.mk customerID packID StatusRequested now
                                    None None None None)).2 db)
| Write_approved db id s now :
    by_id (subscriptions db) id = Some s →
    Subscription.CanTransitionTo s StatusApproved = true →
    Write db (with_subscriptions
                (save (subscriptions db) id
                   (Subscription.set_ApprovedAt (Some now)
                      (Subscription.set_Status StatusApproved s))) db)
| Write_active db id s pack now :
    by_id (subscriptions db) id = Some s →
    Subscription.CanTransitionTo s StatusActive = true →
    Customer.HasActiveSubscription (Subscription.CustomerID s) (subscriptions db) = false →
    find_pack db (Subscription.PackID s) = Some pack →
    Write db (with_subscriptions
                (save (subscriptions db) id
                   (Subscription.set_ExpiresAt
                      (Some (AddDate now 0 (SubscriptionPack.ValidityMonths pack) 0))
                      (Subscription.set_AssignedAt (Some now)
                         (Subscription.set_Status StatusActive s)))) db)
| Write_inactive db id s now :
    by_id (subscriptions db) id = Some s →
    Subscription.Status s = StatusActive →
    Write db (with_subscriptions
                (save (subscriptions db) id
                   (Subscription.set_DeactivatedAt (Some now)
                      (Subscription.set_Status StatusInactive s))) db)
| Write_deleted db id s :
    by_id (subscriptions db) id = Some s →
    Write db (with_subscriptions (hard_delete (subscriptions db) id) db).

(** ** Sample data on which the handlers are run *)

(** A stand-in for the cryptographic collaborators. *)
Definition demo_crypto : Crypto := {|
  bcrypt_GenerateFromPassword p := Some ("bcrypt:" +:+ p);
  bcrypt_CompareHashAndPassword h p := String.eqb h ("bcrypt:" +:+ p);
  jwt_SignedString id email role exp iat := Some ("jwt:" +:+ email)
|}.

Definition t0 : Time := Date 2024 1 31 0 0 0 0 UTC.

(** One customer (user 1, customer 1), one pack ("basic", one month), no
    subscription. *)
Definition sample_db : DB :=
  mkDB (mkTable {[ 1%N := User.mk "ann@example.com" "bcrypt:secret" "customer" None ]} 2%N)
       (mkTable {[ 1%N := Customer.mk 1%N "Ann" "555" None ]} 2%N)
       (mkTable {[ 1%N := SubscriptionPack.mk "Basic" "One month" "basic" 1 None ]} 2%N)
       (empty_table _).

Definition basic : SubscriptionRequest.t := SubscriptionRequest.mk "basic".

(** Two requests of customer 1, both approved, the first one assigned. *)
Definition sample_active_db : DB :=
  run [ OpRequest (Some 1%N) (Some basic) t0;
        OpSDKRequest (Some 1%N) (Some basic) t0;
        OpApprove (Some 1%N) t0;
        OpApprove (Some 2%N) t0;
        OpAssign (Some 1%N) t0 ] sample_db.

(** The operations that take a subscription out of the [active] status. *)
Definition is_deactivation (op : Op) : bool :=
  match op with
  | OpUnassign _ _ | OpDeactivate _ _ | OpSDKDeactivate _ _ => true
  | _ => false
  end.

(** A subscription after its deactivation at [now]: the status and
    [DeactivatedAt] are written, every other column is as it was read. *)
Definition deactivated (s : Subscription.t) (now : Time) : Subscription.t :=
  Subscription.mk (Subscription.CustomerID s) (Subscription.PackID s) StatusInactive
                  (Subscription.RequestedAt s) (Subscription.ApprovedAt s)
                  (Subscription.AssignedAt s) (Subscription.ExpiresAt s) (Some now).

(** [Requests db customerID sku now op]: [op] is a request, at [now], of a
    subscription to the pack [sku] for the customer [customerID], made by
    the customer (web or SDK, the customer being the one of the
    authenticated user) or by an admin on the customer's behalf. *)
Inductive Requests (db : DB) (customerID : N) (sku : string) (now : Time) : Op → Prop :=
| Requests_customer user_id customer :
    GetCurrentCustomer db user_id = Some (customerID, customer) →
    Requests db customerID sku now
             (OpRequest user_id (Some (SubscriptionRequest.mk sku)) now)
| Requests_sdk user_id customer :
    GetCurrentCustomer db user_id = Some (customerID, customer) →
    Requests db customerID sku now
             (OpSDKRequest user_id (Some (SubscriptionRequest.mk sku)) now)
| Requests_admin customer :
    find_customer db customerID = Some customer →
    Requests db customerID sku now
             (OpCreate (Some (CreateSubscriptionRequest.mk customerID sku)) now).

(** The customer has a stored subscription of status [active]. *)
Definition active_row (db : DB) (customerID : N) : Prop :=
  ∃ id s, rows (subscriptions db) !! id = Some s ∧
          Subscription.CustomerID s = customerID ∧
          Subscription.Status s = StatusActive.

(** The row [packID] of the packs has the SKU and is not deleted. *)
Definition live_pack (db : DB) (sku : string) (packID : N) (p : SubscriptionPack.t) : Prop :=
  rows (subscription_packs db) !! packID = Some p ∧
  SubscriptionPack.SKU p = sku ∧
  SubscriptionPack.DeletedAt p = None.

Definition not_found_or_bad_request (o : Outcome) : Prop :=
  ∃ message, o = ErrorResponse StatusNotFound message ∨
             o = ErrorResponse StatusBadRequest message.

(** The subscription a request creates. *)
Definition requested (customerID packID : N) (now : Time) : Subscription.t :=
  Subscription.mk customerID packID StatusRequested now None None None None.

(** A subscription deactivated in March 2024 whose expiry date has passed
    by 2025. *)
Definition lapsed_inactive : Subscription.t :=
  Subscription.mk 1%N 1%N StatusInactive t0 (Some t0) (Some t0)
                  (Some (Date 2024 3 2 0 0 0 0 UTC)) (Some (Date 2024 2 10 0 0 0 0 UTC)).

Definition new_year_2025 : Time := Date 2025 1 1 0 0 0 0 UTC.

(** A subscription assigned on 2024-01-31 at midnight, before
    [CalculateExpiry]. *)
Definition assigned_jan31 : Subscription.t :=
  Subscription.mk 1%N 1%N StatusActive t0 (Some t0) (Some t0) None None.

Definition one_month_pack : SubscriptionPack.t :=
  SubscriptionPack.mk "Basic" "One month" "basic" 1 None.

(** A subscription after its activation at [now] with the pack [pack]. *)
Definition activated (s : Subscription.t) (pack : SubscriptionPack.t) (now : Time)
  : Subscription.t :=
  Subscription.mk (Subscription.CustomerID s) (Subscription.PackID s) StatusActive
                  (Subscription.RequestedAt s) (Subscription.ApprovedAt s)
                  (Some now)
                  (Some (AddDate now 0 (SubscriptionPack.ValidityMonths pack) 0))
                  (Subscription.DeactivatedAt s).

(** ** The three logins *)

Inductive LoginKind : Type := AdminLoginKind | CustomerLoginKind | SDKLoginKind.

(** The role the login looks the email up with. *)
Definition login_role (kind : LoginKind) : string :=
  match kind with
  | AdminLoginKind => "admin"
  | CustomerLoginKind | SDKLoginKind => "customer"
  end.

Definition login `{Crypto} (kind : LoginKind) (db : DB) (req : option LoginRequest.t)
           (now : Time) (random : option (list Byte.byte)) : Outcome * DB :=
  match kind with
  | AdminLoginKind => UserHandler.AdminLogin db req now
  | CustomerLoginKind => UserHandler.CustomerLogin db req now
  | SDKLoginKind => SDKHandler.Login db req random
  end.

(** The user and the API key a successful SDK login answers with. *)
Definition issued_key (o : Outcome) : option (N * string) :=
  match o with
  | JSON 200 (mkH true (Some (DSDKLoginResponse APIKey id _ _)) _ _) => Some (id, APIKey)
  | _ => None
  end.

(** The user a successful signup or JWT login answers with. *)
Definition logged_in (o : Outcome) : option N :=
  match o with
  | JSON 200 (mkH true (Some (DLoginResponse _ id _ _)) _ _) => Some id
  | _ => None
  end.

(** The user of the customer a successful admin creation answers with. *)
Definition created_customer_user (o : Outcome) : option N :=
  match o with
  | JSON 200 (mkH true (Some (DCustomer _ c)) _ _) => Some (Customer.UserID c)
  | _ => None
  end.

Definition sixteen_bytes : list Byte.byte :=
  [Byte.x00; Byte.x01; Byte.x02; Byte.x03; Byte.x04; Byte.x05; Byte.x06; Byte.x07;
   Byte.x08; Byte.x09; Byte.x0a; Byte.x0b; Byte.x0c; Byte.x0d; Byte.x0e; Byte.xff].

Definition bob_signup : SignupRequest.t :=
  SignupRequest.mk "bob@example.com" "hunter22" "Bob" "555-0102".

Definition carol_create : CreateCustomerRequest.t :=
  CreateCustomerRequest.mk "carol@example.com" "s3cret!" "Carol" "555-0103".

Definition ann_login : LoginRequest.t := LoginRequest.mk "ann@example.com" "secret".
Definition ann_typo : LoginRequest.t := LoginRequest.mk "ann@example.com" "secrte".
Definition nobody_login : LoginRequest.t := LoginRequest.mk "nobody@example.com" "secret".


(** * Further properties: definitions *)

(** The subscription a success response carries. *)
Definition returned_subscription (o : Outcome) : option (N * Subscription.t) :=
  match o with
  | JSON 200 (mkH true (Some (DSubscription id s)) _ _) => Some (id, s)
  | _ => None
  end.

(** A subscription after its approval at [now]. *)
Definition approved (s : Subscription.t) (now : Time) : Subscription.t :=
  Subscription.mk (Subscription.CustomerID s) (Subscription.PackID s) StatusApproved
                  (Subscription.RequestedAt s) (Some now)
                  (Subscription.AssignedAt s) (Subscription.ExpiresAt s)
                  (Subscription.DeactivatedAt s).

(** The timestamps that go with each stored status in a table that the
    lifecycle handlers have filled. *)
Definition row_shape (s : Subscription.t) : Prop :=
  (Subscription.Status s = StatusRequested ∧
   Subscription.ApprovedAt s = None ∧ Subscription.AssignedAt s = None ∧
   Subscription.ExpiresAt s = None ∧ Subscription.DeactivatedAt s = None) ∨
  (Subscription.Status s = StatusApproved ∧
   is_Some (Subscription.ApprovedAt s) ∧ Subscription.AssignedAt s = None ∧
   Subscription.ExpiresAt s = None ∧ Subscription.DeactivatedAt s = None) ∨
  (Subscription.Status s = StatusActive ∧
   is_Some (Subscription.ApprovedAt s) ∧ is_Some (Subscription.AssignedAt s) ∧
   is_Some (Subscription.ExpiresAt s)) ∨
  (Subscription.Status s = StatusInactive ∧
   is_Some (Subscription.ApprovedAt s) ∧ is_Some (Subscription.AssignedAt s) ∧
   is_Some (Subscription.ExpiresAt s) ∧ is_Some (Subscription.DeactivatedAt s)).

Definition lifecycle_shape (db : DB) : Prop :=
  ∀ i s, rows (subscriptions db) !! i = Some s → row_shape s.

(** The columns of a subscription that say whose it is and since when. *)
Definition same_identity (s s' : Subscription.t) : Prop :=
  Subscription.CustomerID s' = Subscription.CustomerID s ∧
  Subscription.PackID s' = Subscription.PackID s ∧
  Subscription.RequestedAt s' = Subscription.RequestedAt s.

(** ** The users and their credentials *)

(** The requests that write to the [users] and [customers] tables. *)
Inductive UserOp : Type :=
| OpSignup (req : option SignupRequest.t) (random : option (list Byte.byte)) (now : Time)
| OpCreateCustomer (req : option CreateCustomerRequest.t)
| OpLogin (kind : LoginKind) (req : option LoginRequest.t) (now : Time)
          (random : option (list Byte.byte)).

Definition run_user_op `{Crypto} (op : UserOp) (db : DB) : Outcome * DB :=
  match op with
  | OpSignup req random now => UserHandler.CustomerSignup db req random now
  | OpCreateCustomer req => CustomerHandler.CreateCustomer db req
  | OpLogin kind req now random => login kind db req now random
  end.

(** No two users share an email; no two users share an API key. *)
Definition unique_emails (db : DB) : Prop :=
  ∀ i j u v, rows (users db) !! i = Some u → rows (users db) !! j = Some v →
             User.Email u = User.Email v → i = j.

Definition unique_api_keys (db : DB) : Prop :=
  ∀ i j u v k, rows (users db) !! i = Some u → rows (users db) !! j = Some v →
               User.APIKey u = Some k → User.APIKey v = Some k → i = j.

(** Every customer profile belongs to a user drawn from the sequence. *)
Definition customers_reference_users (db : DB) : Prop :=
  ∀ i c, rows (customers db) !! i = Some c → (Customer.UserID c < next_id (users db))%N.

Definition email_taken : Outcome := ErrorResponse StatusConflict "Email already registered".

(** The password hashes this [Crypto] produces verify against their
    password, and signing a token does not fail. *)
Definition bcrypt_sound `{Crypto} (password : string) : Prop :=
  ∀ h, bcrypt_GenerateFromPassword password = Some h →
       bcrypt_CompareHashAndPassword h password = true.

Definition signing_total `{Crypto} : Prop :=
  ∀ id email role exp iat, is_Some (jwt_SignedString id email role exp iat).

Definition hexchars : list ascii := list_ascii_of_string "0123456789abcdef".

Definition failed_to_create_user : Outcome :=
  ErrorResponse StatusInternalServerError "Failed to create user".

Definition failed_to_create_profile : Outcome :=
  ErrorResponse StatusInternalServerError "Failed to create customer profile".

(** ** middleware *)

Definition StatusForbidden : Z := 403.

Module middleware.

(** The custom claims of a token. *)
Record Claims : Type := mkClaims {
  UserID : N;
  Email : string;
  Role : string
}.

(** [jwt.ParseWithClaims] under the key of the code: the claims of a token
    that parses and is valid at the time of the request, [None] for an
    error or an invalid token. *)
Class JWT : Type := {
  jwt_ParseWithClaims : string → Time → option Claims
}.

(** The keys the middleware sets in the gin context. *)
Record Keys : Type := mkKeys {
  user_id : option N;
  user_email : option string;
  user_role : option string
}.

Definition no_keys : Keys := mkKeys None None None.

(** A middleware answers and aborts, or passes the context on. *)
Inductive Result : Type :=
| Abort (code : Z) (error : string)
| Next (c : Keys).

(** [strings.HasPrefix] and [strings.TrimPrefix]. *)
Definition HasPrefix (s prefix : string) : bool := String.prefix prefix s.

Definition TrimPrefix (s prefix : string) : string :=
  if HasPrefix s prefix
  then String.substring (String.length prefix) (String.length s - String.length prefix) s
  else s.

(** [JWTAuth].  The token is parsed into a [Claims] value, so the type
    assertion on its claims always succeeds. *)
Definition JWTAuth `{JWT} (authHeader : string) (now : Time) (c : Keys) : Result :=
  if String.eqb authHeader EmptyString
  then Abort StatusUnauthorized "Authorization header required"
  else
  let tokenString := TrimPrefix authHeader "Bearer " in
  if String.eqb tokenString authHeader
  then Abort StatusUnauthorized "Invalid authorization header format"
  else
  match jwt_ParseWithClaims tokenString now with
  | None => Abort StatusUnauthorized "Invalid token"
  | Some claims =>
      Next (mkKeys (Some (UserID claims)) (Some (Email claims)) (Some (Role claims)))
  end.

Definition AdminOnly (c : Keys) : Result :=
  match user_role c with
  | Some role =>
      if negb (String.eqb role "admin")
      then Abort StatusForbidden "Admin access required"
      else Next c
  | None => Abort StatusForbidden "Admin access required"
  end.

Definition CustomerOnly (c : Keys) : Result :=
  match user_role c with
  | Some role =>
      if negb (String.eqb role "customer")
      then Abort StatusForbidden "Customer access required"
      else Next c
  | None => Abort StatusForbidden "Customer access required"
  end.

(** The condition ["api_key = ?", apiKey]. *)
Definition has_key (apiKey : string) (_ : N) (u : User.t) : bool :=
  match User.APIKey u with
  | Some k => String.eqb k apiKey
  | None => false
  end.

(** [APIKeyAuth]; [db] is the value under the context key "db". *)
Definition APIKeyAuth (apiKey : string) (db : option DB) (c : Keys) : Result :=
  if String.eqb apiKey EmptyString
  then Abort StatusUnauthorized "API key required"
  else
  match db with
  | None => Abort StatusInternalServerError "Database not available"
  | Some db =>
  match first_where (has_key apiKey) (users db) with
  | None => Abort StatusUnauthorized "Invalid API key"
  | Some (id, user) =>
  if negb (User.HasAPIKey user)
  then Abort StatusUnauthorized "Invalid API key"
  else Next (mkKeys (Some id) (Some (User.Email user)) (Some (User.Role user)))
  end end.

End middleware.

(** ** The routes of [setupRouter] *)

(** A chain of middleware runs until one of them aborts. *)
Definition and_then (r : middleware.Result) (f : middleware.Keys → middleware.Result)
  : middleware.Result :=
  match r with
  | middleware.Abort code error => middleware.Abort code error
  | middleware.Next c => f c
  end.

(** The groups [/api/v1/admin], [/api/v1/customer] and [/sdk/v1]. *)
Definition admin_group `{middleware.JWT} (authHeader : string) (now : Time)
  : middleware.Result :=
  and_then (middleware.JWTAuth authHeader now middleware.no_keys) middleware.AdminOnly.

Definition customer_group `{middleware.JWT} (authHeader : string) (now : Time)
  : middleware.Result :=
  and_then (middleware.JWTAuth authHeader now middleware.no_keys) middleware.CustomerOnly.

Definition sdk_group (apiKey : string) (db : DB) : middleware.Result :=
  middleware.APIKeyAuth apiKey (Some db) middleware.no_keys.

(** The token a successful login or signup answers with. *)
Definition issued_token (o : Outcome) : option (N * string * User.t) :=
  match o with
  | JSON 200 (mkH true (Some (DLoginResponse Token id user _)) _ _) => Some (id, Token, user)
  | _ => None
  end.

(** The keys the middleware sets for a user. *)
Definition keys_of (id : N) (email role : string) : middleware.Keys :=
  middleware.mkKeys (Some id) (Some email) (Some role).

(** The group a login's token is meant for, and the other one. *)
Definition own_group `{middleware.JWT} (kind : LoginKind) : string → Time → middleware.Result :=
  match kind with
  | AdminLoginKind => admin_group
  | CustomerLoginKind | SDKLoginKind => customer_group
  end.

Definition other_group `{middleware.JWT} (kind : LoginKind) : string → Time → middleware.Result :=
  match kind with
  | AdminLoginKind => customer_group
  | CustomerLoginKind | SDKLoginKind => admin_group
  end.

(** A stand-in for the token parser that knows the token of the sample
    user. *)
Definition demo_jwt : middleware.JWT := {|
  middleware.jwt_ParseWithClaims token now :=
    if String.eqb token "jwt:ann@example.com"
    then Some (middleware.mkClaims 1%N "ann@example.com" "customer")
    else None
|}.

Definition api_key_required : middleware.Result :=
  middleware.Abort StatusUnauthorized "API key required".

Definition invalid_api_key : middleware.Result :=
  middleware.Abort StatusUnauthorized "Invalid API key".

(** ** The default admin of [main] *)

Definition is_admin (_ : N) (u : User.t) : bool := String.eqb (User.Role u) "admin".

(** [createDefaultAdmin]; what it logs is left out. *)
Definition createDefaultAdmin `{Crypto} (db : DB) : DB :=
  let count := count_where is_admin (users db) in
  if (count =? 0)%Z then
    let admin := User.mk "admin@example.com" "admin123" "admin" None in
    match User.HashPassword admin with
    | None => db
    | Some admin =>
        match create_user (users db) admin with
        | None => db
        | Some (_, utbl) => with_users utbl db
        end
    end
  else db.

Definition default_admin_login : LoginRequest.t :=
  LoginRequest.mk "admin@example.com" "admin123".

Definition has_admin (db : DB) : Prop :=
  ∃ i u, rows (users db) !! i = Some u ∧ User.Role u = "admin".

(** ** The customer and pack handlers *)

Definition with_subscription_packs (t : Table SubscriptionPack.t) (db : DB) : DB :=
  mkDB (users db) (customers db) t (subscriptions db).

Module UpdateCustomerRequest.
Record t : Type := mk { Name : string; Phone : string }.
End UpdateCustomerRequest.

(** The methods of [CustomerHandler] on one customer.  The response data
    is the customer row; the relations preloaded into it are left out.
    [Save] writes the row whether or not a column has changed, and with it
    [UpdatedAt], which is not among the columns of the row here. *)
Module customer_handlers.

Definition GetCustomer (db : DB) (id : option N) : Outcome * DB :=
  match id with
  | None => (ErrorResponse StatusBadRequest "Invalid customer ID", db)
  | Some id =>
  match find_customer db id with
  | None => (ErrorResponse StatusNotFound "Customer not found", db)
  | Some customer =>
    (SuccessResponse (DCustomer id customer) "Customer retrieved successfully", db)
  end end.

Definition UpdateCustomer (db : DB) (id : option N) (req : option UpdateCustomerRequest.t)
  : Outcome * DB :=
  match id with
  | None => (ErrorResponse StatusBadRequest "Invalid customer ID", db)
  | Some id =>
  match req with
  | None => (ErrorResponse StatusBadRequest "Invalid request format", db)
  | Some req =>
  match find_customer db id with
  | None => (ErrorResponse StatusNotFound "Customer not found", db)
  | Some customer =>
    let customer :=
      if negb (String.eqb (UpdateCustomerRequest.Name req) EmptyString)
      then Customer.mk (Customer.UserID customer) (UpdateCustomerRequest.Name req)
                       (Customer.Phone customer) (Customer.DeletedAt customer)
      else customer in
    let customer :=
      if negb (String.eqb (UpdateCustomerRequest.Phone req) EmptyString)
      then Customer.mk (Customer.UserID customer) (Customer.Name customer)
                       (UpdateCustomerRequest.Phone req) (Customer.DeletedAt customer)
      else customer in
    (SuccessResponse (DCustomer id customer) "Customer updated successfully",
     with_customers (save (customers db) id customer) db)
  end end end.

(** [DeleteCustomer]: [db.Delete] on a model with a [DeletedAt] column sets
    the column to the time of the request. *)
Definition DeleteCustomer (db : DB) (id : option N) (now : Time) : Outcome * DB :=
  match id with
  | None => (ErrorResponse StatusBadRequest "Invalid customer ID", db)
  | Some id =>
  match find_customer db id with
  | None => (ErrorResponse StatusNotFound "Customer not found", db)
  | Some customer =>
    let customer := Customer.mk (Customer.UserID customer) (Customer.Name customer)
                                (Customer.Phone customer) (Some now) in
    (SuccessResponse (DMessage "Customer deleted successfully") EmptyString,
     with_customers (save (customers db) id customer) db)
  end end.

Definition GetProfile (db : DB) (user_id : option N) : Outcome * DB :=
  match GetCurrentCustomer db user_id with
  | None => (ErrorResponse StatusUnauthorized "Customer not found", db)
  | Some (customerID, customer) =>
    (SuccessResponse (DCustomer customerID customer) "Profile retrieved successfully", db)
  end.

Definition UpdateProfile (db : DB) (user_id : option N)
           (req : option UpdateCustomerRequest.t) : Outcome * DB :=
  match GetCurrentCustomer db user_id with
  | None => (ErrorResponse StatusUnauthorized "Customer not found", db)
  | Some (customerID, customer) =>
  match req with
  | None => (ErrorResponse StatusBadRequest "Invalid request format", db)
  | Some req =>
    let customer :=
      if negb (String.eqb (UpdateCustomerRequest.Name req) EmptyString)
      then Customer.mk (Customer.UserID customer) (UpdateCustomerRequest.Name req)
                       (Customer.Phone customer) (Customer.DeletedAt customer)
      else customer in
    let customer :=
      if negb (String.eqb (UpdateCustomerRequest.Phone req) EmptyString)
      then Customer.mk (Customer.UserID customer) (Customer.Name customer)
                       (UpdateCustomerRequest.Phone req) (Customer.DeletedAt customer)
      else customer in
    (SuccessResponse (DCustomer customerID customer) "Profile updated successfully",
     with_customers (save (customers db) customerID customer) db)
  end end.

End customer_handlers.

(** The methods of [SubscriptionPackHandler] that do not touch the price. *)
Module pack_handlers.

Definition DeletePack (db : DB) (id : option N) (now : Time) : Outcome * DB :=
  match id with
  | None => (ErrorResponse StatusBadRequest "Invalid subscription pack ID", db)
  | Some id =>
  match find_pack db id with
  | None => (ErrorResponse StatusNotFound "Subscription pack not found", db)
  | Some pack =>
    let pack := SubscriptionPack.mk (SubscriptionPack.Name pack)
                  (SubscriptionPack.Description pack) (SubscriptionPack.SKU pack)
                  (SubscriptionPack.ValidityMonths pack) (Some now) in
    (SuccessResponse (DMessage "Subscription pack deleted successfully") EmptyString,
     with_subscription_packs (save (subscription_packs db) id pack) db)
  end end.

End pack_handlers.

(** The columns of the customer row an update request leaves: empty fields
    of the request leave the name and the phone as they were. *)
Definition updated (req : UpdateCustomerRequest.t) (c : Customer.t) : Customer.t :=
  Customer.mk (Customer.UserID c)
    (if String.eqb (UpdateCustomerRequest.Name req) EmptyString
     then Customer.Name c else UpdateCustomerRequest.Name req)
    (if String.eqb (UpdateCustomerRequest.Phone req) EmptyString
     then Customer.Phone c else UpdateCustomerRequest.Phone req)
    (Customer.DeletedAt c).

(** No two customer profiles belong to the same user. *)
Definition unique_customer_users (db : DB) : Prop :=
  ∀ i j c c', rows (customers db) !! i = Some c → rows (customers db) !! j = Some c' →
              Customer.UserID c = Customer.UserID c' → i = j.

Definition customer_not_found : Outcome :=
  ErrorResponse StatusNotFound "Customer not found".

Definition no_customer : Outcome :=
  ErrorResponse StatusUnauthorized "Customer not found".

(** No two live packs share a SKU. *)
Definition unique_skus (db : DB) : Prop :=
  ∀ i j p p', rows (subscription_packs db) !! i = Some p →
              rows (subscription_packs db) !! j = Some p' →
              SubscriptionPack.SKU p = SubscriptionPack.SKU p' → i = j.

(** The user a successful login answers with, and the customer profile it
    sends along with the user. *)
Definition answered_user (o : Outcome) : option N :=
  match o with
  | JSON 200 (mkH true (Some (DLoginResponse _ id _ _)) _ _) => Some id
  | JSON 200 (mkH true (Some (DSDKLoginResponse _ id _ _)) _ _) => Some id
  | _ => None
  end.

Definition sent_customer (o : Outcome) : option (N * Customer.t) :=
  match o with
  | JSON 200 (mkH true (Some (DLoginResponse _ _ _ Customer)) _ _) => Customer
  | JSON 200 (mkH true (Some (DSDKLoginResponse _ _ _ Customer)) _ _) => Customer
  | _ => None
  end.

(** The response of a login with the customer profile taken out. *)
Definition without_customer (o : Outcome) : Outcome :=
  match o with
  | JSON code (mkH success (Some (DLoginResponse Token id user _)) message error) =>
      JSON code (mkH success (Some (DLoginResponse Token id user None)) message error)
  | JSON code (mkH success (Some (DSDKLoginResponse APIKey id user _)) message error) =>
      JSON code (mkH success (Some (DSDKLoginResponse APIKey id user None)) message error)
  | _ => o
  end.

Definition soft_deleted (c : Customer.t) (now : Time) : Customer.t :=
  Customer.mk (Customer.UserID c) (Customer.Name c) (Customer.Phone c) (Some now).

Definition retired (p : SubscriptionPack.t) (now : Time) : SubscriptionPack.t :=
  SubscriptionPack.mk (SubscriptionPack.Name p) (SubscriptionPack.Description p)
                      (SubscriptionPack.SKU p) (SubscriptionPack.ValidityMonths p) (Some now).

Definition pack_not_found : Outcome :=
  ErrorResponse StatusNotFound "Subscription pack not found".

(** ** The pagination of the list handlers *)

(** The statements with which [ListCustomers], [ListPacks],
    [ListSubscriptions] and both [GetSubscriptionHistory] handlers begin;
    [page] and [limit] are the results of [strconv.Atoi] on the query
    values.  The result is the page, the limit and the offset of the
    query. *)
Definition pagination (page limit : Z) : Z * Z * Z :=
  let page := if (page <? 1)%Z then 1%Z else page in
  let limit := if (limit <? 1)%Z || (limit >? 100)%Z then 10%Z else limit in
  let offset := wrap_int ((page - 1) * limit) in
  (page, limit, offset).

(** * Properties *)

(** ** Queries *)

Section QueryFacts.
Context {A : Type}.
Implicit Types (t : Table A) (cond : N → A → bool).

Lemma pick_least_elem cond (l : list (N * A)) kv :
  foldr (λ kv acc, if cond kv.1 kv.2 then least kv acc else acc) None l = Some kv →
  kv ∈ l ∧ cond kv.1 kv.2 = true.
Proof.
  revert kv. induction l as [|x l IH]; simpl; intros kv Hf; [discriminate|].
  destruct (cond x.1 x.2) eqn:Hc.
  - unfold least in Hf.
    destruct (foldr _ None l) as [kv'|] eqn:Hrec.
    + destruct (x.1 <? kv'.1)%N.
      * inversion Hf; subst. split; [left | done].
      * inversion Hf; subst. destruct (IH _ eq_refl). split; [by right | done].
    + inversion Hf; subst. split; [left | done].
  - destruct (IH _ Hf). split; [by right | done].
Qed.

Lemma pick_least_none cond (l : list (N * A)) :
  foldr (λ kv acc, if cond kv.1 kv.2 then least kv acc else acc) None l = None ↔
  ∀ kv, kv ∈ l → cond kv.1 kv.2 = false.
Proof.
  induction l as [|x l IH]; simpl.
  - split; [intros _ kv Hin; inversion Hin | done].
  - destruct (cond x.1 x.2) eqn:Hc.
    + split.
      * unfold least. destruct (foldr _ None l) as [kv'|]; [|discriminate].
        destruct (x.1 <? kv'.1)%N; discriminate.
      * intros Hall. rewrite (Hall x) in Hc; [discriminate | left].
    + rewrite IH. split.
      * intros Hall kv Hin. inversion Hin; subst; auto.
      * intros Hall kv Hin. apply Hall. by right.
Qed.

Lemma first_where_Some cond t k a :
  first_where cond t = Some (k, a) → rows t !! k = Some a ∧ cond k a = true.
Proof.
  unfold first_where. intros Hf. apply pick_least_elem in Hf as [Hin Hc].
  by apply elem_of_map_to_list in Hin.
Qed.

Lemma first_where_None cond t :
  first_where cond t = None ↔ ∀ k a, rows t !! k = Some a → cond k a = false.
Proof.
  unfold first_where. rewrite pick_least_none. split.
  - intros Hall k a Hl. apply (Hall (k, a)). by apply elem_of_map_to_list.
  - intros Hall [k a] Hin. apply Hall. by apply elem_of_map_to_list.
Qed.

Lemma first_where_is_Some cond t k a :
  rows t !! k = Some a → cond k a = true → is_Some (first_where cond t).
Proof.
  intros Hl Hc. destruct (first_where cond t) eqn:Hf; [by eexists|].
  rewrite first_where_None in Hf. rewrite (Hf _ _ Hl) in Hc. discriminate.
Qed.

Lemma pick_least_min cond (l : list (N * A)) kv :
  foldr (λ kv acc, if cond kv.1 kv.2 then least kv acc else acc) None l = Some kv →
  ∀ kv', kv' ∈ l → cond kv'.1 kv'.2 = true → (kv.1 ≤ kv'.1)%N.
Proof.
  revert kv. induction l as [|x l IH]; simpl; intros kv Hf kv' Hin Hc';
    [by apply elem_of_nil in Hin|].
  apply elem_of_cons in Hin.
  destruct (cond x.1 x.2) eqn:Hc.
  - unfold least in Hf. destruct (foldr _ None l) as [kv0|] eqn:Hrec.
    + specialize (IH kv0 eq_refl).
      destruct (N.ltb_spec x.1 kv0.1); inversion Hf; subst.
      * destruct Hin as [-> | Hin]; [lia|]. specialize (IH kv' Hin Hc'). lia.
      * destruct Hin as [-> | Hin]; [lia|]. by apply IH.
    + inversion Hf; subst. destruct Hin as [-> | Hin]; [lia|].
      pose proof (proj1 (pick_least_none cond l) Hrec kv' Hin) as Hnone.
      rewrite Hnone in Hc'. discriminate.
  - destruct Hin as [-> | Hin]; [congruence|]. by apply (IH kv Hf).
Qed.

(** [First] answers the matching row of least key. *)
Lemma first_where_least cond t k a :
  first_where cond t = Some (k, a) ↔
  rows t !! k = Some a ∧ cond k a = true ∧
  ∀ j b, rows t !! j = Some b → cond j b = true → (k ≤ j)%N.
Proof.
  split.
  - intros Hf. destruct (first_where_Some cond t k a Hf) as [Hl Hc].
    split; [done|]. split; [done|]. intros j b Hj Hb.
    apply (pick_least_min cond _ (k, a) Hf (j, b)); [|done].
    by apply elem_of_map_to_list.
  - intros (Hl & Hc & Hmin).
    destruct (first_where_is_Some cond t k a Hl Hc) as [[k' a'] Hf].
    destruct (first_where_Some cond t k' a' Hf) as [Hl' Hc'].
    assert (k' ≤ k)%N.
    { apply (pick_least_min cond _ (k', a') Hf (k, a)); [|done].
      by apply elem_of_map_to_list. }
    pose proof (Hmin k' a' Hl' Hc'). assert (k' = k) as -> by lia. congruence.
Qed.

Lemma filter_nonempty (f : N * A → bool) (l : list (N * A)) :
  (0 < length (List.filter f l))%nat ↔ ∃ kv, kv ∈ l ∧ f kv = true.
Proof.
  induction l as [|x l IH]; simpl.
  - split; [lia | intros (kv & Hin & _); inversion Hin].
  - destruct (f x) eqn:Hfx; simpl.
    + split; [intros _; exists x; split; [left | done] | lia].
    + rewrite IH. split.
      * intros (kv & Hin & Hkv). exists kv. split; [by right | done].
      * intros (kv & Hin & Hkv). inversion Hin; subst; [congruence|]. by exists kv.
Qed.

Lemma count_where_pos cond t :
  (0 <? count_where cond t)%Z = true ↔ ∃ k a, rows t !! k = Some a ∧ cond k a = true.
Proof.
  unfold count_where. rewrite Z.ltb_lt.
  rewrite <- (Nat2Z.inj_lt 0). rewrite filter_nonempty. split.
  - intros ([k a] & Hin & Hc). exists k, a. split; [|done].
    by apply elem_of_map_to_list.
  - intros (k & a & Hl & Hc). exists (k, a). split; [|done].
    by apply elem_of_map_to_list.
Qed.

Lemma count_where_zero cond t :
  (0 <? count_where cond t)%Z = false ↔ ∀ k a, rows t !! k = Some a → cond k a = false.
Proof.
  rewrite <- not_true_iff_false, count_where_pos. split.
  - intros Hn k a Hl. destruct (cond k a) eqn:Hc; [|done].
    exfalso. apply Hn. by exists k, a.
  - intros Hall (k & a & Hl & Hc). rewrite (Hall _ _ Hl) in Hc. discriminate.
Qed.
End QueryFacts.

(** ** The transition table *)

Lemma CanTransitionTo_iff_table (from to : SubscriptionStatus) cid pid rq ap asg ex de :
  Subscription.CanTransitionTo (Subscription.mk cid pid from rq ap asg ex de) to = true ↔
  In (from, to) spec_transition_table.
Proof.
  unfold Subscription.CanTransitionTo, Subscription.validTransitions,
    spec_transition_table, StatusRequested, StatusApproved, StatusActive,
    StatusInactive, StatusExpired.
  cbn [Subscription.Status Subscription.map_index In].
  case_status from; cbn [Subscription.range_has]; case_status to;
    (split; [intros Ht; first [discriminate Ht | tauto] | ]);
    intros Hin; try reflexivity; exfalso;
    repeat (destruct Hin as [Hin|Hin]; [inversion Hin; congruence|]); exact Hin.
Qed.

(** ** What the handlers write *)

Lemma GetActiveSubscription_Some cid tbl id s :
  Customer.GetActiveSubscription cid tbl = Some (id, s) →
  rows tbl !! id = Some s ∧ Subscription.CustomerID s = cid ∧
  Subscription.Status s = StatusActive.
Proof.
  unfold Customer.GetActiveSubscription. intros Hf.
  apply first_where_Some in Hf as [Hl Hc]. unfold Customer.active_of in Hc.
  apply andb_true_iff in Hc as [Hc1 Hc2].
  apply N.eqb_eq in Hc1. apply String.eqb_eq in Hc2. done.
Qed.

Lemma HasActiveSubscription_true cid tbl :
  Customer.HasActiveSubscription cid tbl = true ↔
  ∃ id s, rows tbl !! id = Some s ∧ Subscription.CustomerID s = cid ∧
          Subscription.Status s = StatusActive.
Proof.
  unfold Customer.HasActiveSubscription. cbv zeta. rewrite count_where_pos.
  unfold Customer.active_of. split.
  - intros (id & s & Hl & Hc). apply andb_true_iff in Hc as [Hc1 Hc2].
    apply N.eqb_eq in Hc1. apply String.eqb_eq in Hc2. by exists id, s.
  - intros (id & s & Hl & Hc1 & Hc2). exists id, s. split; [done|].
    apply andb_true_iff. split; [by apply N.eqb_eq | by apply String.eqb_eq].
Qed.

Lemma HasActiveSubscription_false cid tbl :
  Customer.HasActiveSubscription cid tbl = false ↔
  ∀ id s, rows tbl !! id = Some s → Subscription.CustomerID s = cid →
          Subscription.Status s ≠ StatusActive.
Proof.
  rewrite <- not_true_iff_false, HasActiveSubscription_true. split.
  - intros Hn id s Hl Hc Hs. apply Hn. by exists id, s.
  - intros Hall (id & s & Hl & Hc & Hs). by apply (Hall id s).
Qed.

Lemma CalculateExpiry_assigned s now pack s' :
  Subscription.CalculateExpiry (Subscription.set_AssignedAt (Some now) s) pack = Some s' →
  ∃ p, pack = Some p ∧
       s' = Subscription.set_ExpiresAt
              (Some (AddDate now 0 (SubscriptionPack.ValidityMonths p) 0))
              (Subscription.set_AssignedAt (Some now) s).
Proof.
  unfold Subscription.CalculateExpiry. cbn. destruct pack as [p|]; [|discriminate].
  intros [= <-]. by exists p.
Qed.

Ltac handler_cases :=
  repeat match goal with
         | |- context [match ?x with _ => _ end] =>
             lazymatch x with
             | context [match _ with _ => _ end] => fail
             | _ => let E := fresh "E" in destruct x eqn:E
             end
         end.

Lemma run_op_Write op db : Write db (run_op op db).2.
Proof.
  destruct op; cbn [run_op];
    unfold SubscriptionHandler.RequestSubscription, SDKHandler.RequestSubscription,
      SubscriptionHandler.CreateSubscription, SubscriptionHandler.ApproveSubscription,
      SubscriptionHandler.AssignSubscription, SubscriptionHandler.UnassignSubscription,
      SubscriptionHandler.DeactivateSubscription, SDKHandler.DeactivateSubscription,
      SubscriptionHandler.DeleteSubscription;
    handler_cases; cbn [snd fst]; try apply Write_nothing.
  all: try (match goal with
            | H : create _ _ = (_, ?t) |- _ =>
                unfold create in H; inversion H; subst; clear H
            end;
            match goal with
            | |- Write ?db (with_subscriptions (mkTable (<[_ := ?s]> _) _) _) =>
                apply (Write_requested db (Subscription.CustomerID s)
                         (Subscription.PackID s) (Subscription.RequestedAt s))
            end; done).
  all: try (eapply Write_deleted; eassumption).
  all: try (match goal with
            | H : Customer.GetActiveSubscription _ _ = Some _ |- _ =>
                apply GetActiveSubscription_Some in H as (? & ? & ?)
            end; by eapply Write_inactive).
  - apply Write_approved; [done|]. by apply negb_false_iff.
  - match goal with
    | H : Subscription.CalculateExpiry _ _ = Some _ |- _ =>
        apply CalculateExpiry_assigned in H as (p & Hp & ->)
    end.
    apply Write_active; [done | by apply negb_false_iff | done | done].
  - apply Write_inactive; [done|].
    match goal with H : negb _ = false |- _ => apply negb_false_iff in H end.
    by apply String.eqb_eq.
Qed.

(** ** At most one active subscription per customer *)

(** Storing a row whose status is not [active] keeps the invariant. *)
Lemma one_active_insert_other db id s :
  Subscription.Status s ≠ StatusActive →
  one_active_per_customer db →
  one_active_per_customer
    (with_subscriptions (mkTable (<[id := s]> (rows (subscriptions db)))
                                 (next_id (subscriptions db))) db).
Proof.
  intros Hs Hinv i j s1 s2. cbn.
  rewrite !lookup_insert_Some.
  intros [[-> <-]|[Hi H1]] [[-> <-]|[Hj H2]] Hc Ha1 Ha2; try done.
  by apply (Hinv i j s1 s2).
Qed.

Lemma Write_one_active db db' :
  Write db db' → one_active_per_customer db → one_active_per_customer db'.
Proof.
  destruct 1 as [db | db cid pid now Hno | db id s now Hl Hc
                 | db id s pack now Hl Hc Hno Hp | db id s now Hl Hs | db id s Hl];
    intros Hinv.
  - done.
  - intros i j s1 s2. cbn. rewrite !lookup_insert_Some.
    intros [[_ <-]|[Hi H1]] [[_ <-]|[Hj H2]] Hcust Ha1 Ha2; try done.
    by apply (Hinv i j s1 s2).
  - by apply (one_active_insert_other db id).
  - rewrite HasActiveSubscription_false in Hno.
    intros i j s1 s2. cbn. rewrite !lookup_insert_Some.
    intros [[<- <-]|[Hi H1]] [[Hj <-]|[Hj H2]] Hcust Ha1 Ha2; cbn in *; try done.
    + exfalso. by apply (Hno j s2).
    + exfalso. by apply (Hno i s1).
    + by apply (Hinv i j s1 s2).
  - by apply (one_active_insert_other db id).
  - intros i j s1 s2. cbn. rewrite !lookup_delete_Some.
    intros [Hi H1] [Hj H2]. by apply (Hinv i j s1 s2).
Qed.

Lemma run_op_one_active op db :
  one_active_per_customer db → one_active_per_customer (run_op op db).2.
Proof. apply Write_one_active, run_op_Write. Qed.

Lemma Steps_one_active db db' :
  Steps db db' → one_active_per_customer db → one_active_per_customer db'.
Proof.
  induction 1 as [db | db db1 db' Hstep _ IH]; [done|].
  intros Hinv. apply IH. destruct Hstep. by apply run_op_one_active.
Qed.

Lemma run_Steps ops db : Steps db (run ops db).
Proof.
  revert db. induction ops as [|op ops IH]; intros db; cbn.
  - apply rtc_refl.
  - eapply rtc_l; [apply Step_op | apply IH].
Qed.

(** ** The stored status [expired] is never written *)

Lemma Write_expired_was_expired db db' i s' :
  Write db db' →
  rows (subscriptions db') !! i = Some s' →
  Subscription.Status s' = StatusExpired →
  rows (subscriptions db) !! i = Some s'.
Proof.
  destruct 1 as [db | db cid pid now Hno | db id s now Hl Hc
                 | db id s pack now Hl Hc Hno Hp | db id s now Hl Hs | db id s Hl];
    cbn; try done.
  all: try (rewrite lookup_insert_Some; intros [[_ <-]|[_ H1]] Hs'; done).
  rewrite lookup_delete_Some. by intros [_ H1].
Qed.

(** ** Refusals when the customer already has an active subscription *)

Lemma client_error_ErrorResponse code message :
  (400 ≤ code < 500)%Z → client_error (ErrorResponse code message).
Proof. intros Hc. by exists code, message. Qed.

Lemma RequestSubscription_conflict db user_id customerID customer req now :
  GetCurrentCustomer db user_id = Some (customerID, customer) →
  Customer.HasActiveSubscription customerID (subscriptions db) = true →
  SubscriptionHandler.RequestSubscription db user_id (Some req) now = (conflict, db) ∧
  SDKHandler.RequestSubscription db user_id (Some req) now = (conflict, db).
Proof.
  intros Hc Ha.
  unfold SubscriptionHandler.RequestSubscription, SDKHandler.RequestSubscription.
  by rewrite Hc, Ha.
Qed.

Lemma CreateSubscription_conflict db req customer pack now :
  find_customer db (CreateSubscriptionRequest.CustomerID req) = Some customer →
  find_pack_by_sku db (CreateSubscriptionRequest.PackSKU req) = Some pack →
  Customer.HasActiveSubscription (CreateSubscriptionRequest.CustomerID req)
                                 (subscriptions db) = true →
  SubscriptionHandler.CreateSubscription db (Some req) now = (conflict, db).
Proof.
  intros Hc Hp Ha. unfold SubscriptionHandler.CreateSubscription.
  rewrite Hc, Hp, Ha. by destruct pack.
Qed.

Lemma AssignSubscription_conflict db id s customer now :
  by_id (subscriptions db) id = Some s →
  Subscription.CanTransitionTo s StatusActive = true →
  find_customer db (Subscription.CustomerID s) = Some customer →
  Customer.HasActiveSubscription (Subscription.CustomerID s) (subscriptions db) = true →
  SubscriptionHandler.AssignSubscription db (Some id) now = (conflict, db).
Proof.
  intros Hl Ht Hc Ha. unfold SubscriptionHandler.AssignSubscription.
  by rewrite Hl, Ht, Hc, Ha.
Qed.

Lemma refused_when_active op db customerID :
  beneficiary op db = Some customerID →
  Customer.HasActiveSubscription customerID (subscriptions db) = true →
  (run_op op db).2 = db ∧ client_error (run_op op db).1.
Proof.
  destruct op as [u r n|u r n|r n|i n|i n|i n|u n|u n|i]; cbn [beneficiary run_op];
    try discriminate.
  - destruct (GetCurrentCustomer db u) as [[cid c]|] eqn:Hc; [|discriminate].
    intros [= <-] Ha. unfold SubscriptionHandler.RequestSubscription. rewrite Hc.
    destruct r; [rewrite Ha|]; (split; [done | by apply client_error_ErrorResponse]).
  - destruct (GetCurrentCustomer db u) as [[cid c]|] eqn:Hc; [|discriminate].
    intros [= <-] Ha. unfold SDKHandler.RequestSubscription. rewrite Hc.
    destruct r; [rewrite Ha|]; (split; [done | by apply client_error_ErrorResponse]).
  - destruct r as [r|]; [|discriminate]. intros [= <-] Ha.
    unfold SubscriptionHandler.CreateSubscription.
    destruct (find_customer db _);
      [|split; [done | by apply client_error_ErrorResponse]].
    destruct (find_pack_by_sku db _) as [[pid p]|];
      [rewrite Ha|]; (split; [done | by apply client_error_ErrorResponse]).
  - destruct i as [i|]; [|discriminate].
    destruct (by_id (subscriptions db) i) as [s|] eqn:Hl; [|discriminate].
    intros [= <-] Ha. unfold SubscriptionHandler.AssignSubscription. rewrite Hl.
    destruct (negb _); [split; [done | by apply client_error_ErrorResponse]|].
    destruct (find_customer db _);
      [rewrite Ha|]; (split; [done | by apply client_error_ErrorResponse]).
Qed.

(** C1.  For every customer at most one subscription has the stored status
    [active], and every lifecycle operation (the customer's and the SDK's
    request, the admin's create, approve, assign, unassign, the customer's
    and the SDK's deactivate, delete) keeps it so, one at a time and along
    any sequence of them.  An operation that would give a subscription to a
    customer who already has an active one is refused: the database is
    left as it was and the answer is a client error, which is the 409
    conflict as soon as the handler reaches that check (for the request:
    always, given the customer and a well-formed body; for the create: when
    the pack exists; for the assign: when the status admits activation and
    the customer is found). *)
Theorem one_active_subscription_invariant (db : DB)
  (Hinv : one_active_per_customer db) :
  (∀ op, one_active_per_customer (run_op op db).2) ∧
  (∀ db', Steps db db' → one_active_per_customer db') ∧
  (∀ ops, one_active_per_customer (run ops db)) ∧
  (∀ op customerID,
      beneficiary op db = Some customerID →
      Customer.HasActiveSubscription customerID (subscriptions db) = true →
      (run_op op db).2 = db ∧ client_error (run_op op db).1) ∧
  (∀ user_id customerID customer req now,
      GetCurrentCustomer db user_id = Some (customerID, customer) →
      Customer.HasActiveSubscription customerID (subscriptions db) = true →
      SubscriptionHandler.RequestSubscription db user_id (Some req) now = (conflict, db) ∧
      SDKHandler.RequestSubscription db user_id (Some req) now = (conflict, db)) ∧
  (∀ req customer pack now,
      find_customer db (CreateSubscriptionRequest.CustomerID req) = Some customer →
      find_pack_by_sku db (CreateSubscriptionRequest.PackSKU req) = Some pack →
      Customer.HasActiveSubscription (CreateSubscriptionRequest.CustomerID req)
                                     (subscriptions db) = true →
      SubscriptionHandler.CreateSubscription db (Some req) now = (conflict, db)) ∧
  (∀ id s customer now,
      by_id (subscriptions db) id = Some s →
      Subscription.CanTransitionTo s StatusActive = true →
      find_customer db (Subscription.CustomerID s) = Some customer →
      Customer.HasActiveSubscription (Subscription.CustomerID s) (subscriptions db) = true →
      SubscriptionHandler.AssignSubscription db (Some id) now = (conflict, db)).
Proof.
  repeat split.
  - intros op. by apply run_op_one_active.
  - intros db' Hsteps. by apply (Steps_one_active db).
  - intros ops. apply (Steps_one_active db); [apply run_Steps | done].
  - by apply (refused_when_active op db customerID).
  - by apply (refused_when_active op db customerID).
  - by eapply RequestSubscription_conflict.
  - by eapply RequestSubscription_conflict.
  - apply CreateSubscription_conflict.
  - apply AssignSubscription_conflict.
Qed.

Lemma one_active_sample_db : one_active_per_customer sample_db.
Proof. intros i j s1 s2 H1. cbn in H1. by rewrite lookup_empty in H1. Qed.

(** On the sample data: customer 1 holds the active subscription 1, and the
    assignment of the approved subscription 2 is refused with the conflict. *)
Lemma one_active_subscription_invariant_witness :
  one_active_per_customer sample_active_db ∧
  SubscriptionHandler.AssignSubscription sample_active_db (Some 2%N) t0
  = (conflict, sample_active_db).
Proof.
  pose proof (one_active_subscription_invariant sample_db one_active_sample_db)
    as (_ & _ & Hrun & _).
  pose proof (Hrun [ OpRequest (Some 1%N) (Some basic) t0;
                     OpSDKRequest (Some 1%N) (Some basic) t0;
                     OpApprove (Some 1%N) t0;
                     OpApprove (Some 2%N) t0;
                     OpAssign (Some 1%N) t0 ]) as Hact.
  split; [exact Hact|].
  pose proof (one_active_subscription_invariant sample_active_db Hact)
    as (_ & _ & _ & _ & _ & _ & Hassign).
  apply (Hassign 2%N
           (Subscription.mk 1%N 1%N StatusApproved t0 (Some t0) None None None)
           (Customer.mk 1%N "Ann" "555" None) t0);
    vm_compute; reflexivity.
Defined.

(** The sample data after the five requests. *)
Example sample_active_db_rows :
  rows (subscriptions sample_active_db) !! 1%N
  = Some (Subscription.mk 1%N 1%N StatusActive t0 (Some t0) (Some t0)
                          (Some (Date 2024 3 2 0 0 0 0 UTC)) None) ∧
  rows (subscriptions sample_active_db) !! 2%N
  = Some (Subscription.mk 1%N 1%N StatusApproved t0 (Some t0) None None None) ∧
  next_id (subscriptions sample_active_db) = 3%N.
Proof. repeat split; vm_compute; reflexivity. Qed.

(** C10.  No lifecycle operation stores the status [expired]: along any
    sequence of operations a row whose stored status is [expired] was
    already stored, unchanged, under the same key before the sequence; so
    from a database without such a row, in particular from one whose
    subscriptions are all freshly created or whose table is empty, no row
    with the stored status [expired] is reachable. *)
Theorem expired_status_never_written (db db' : DB) (Hsteps : Steps db db') :
  (∀ i s', rows (subscriptions db') !! i = Some s' →
           Subscription.Status s' = StatusExpired →
           rows (subscriptions db) !! i = Some s') ∧
  (no_expired db → no_expired db') ∧
  (rows (subscriptions db) = ∅ → no_expired db').
Proof.
  assert (Hkeep : ∀ i s', rows (subscriptions db') !! i = Some s' →
                          Subscription.Status s' = StatusExpired →
                          rows (subscriptions db) !! i = Some s').
  { induction Hsteps as [db | db db1 db' Hstep _ IH]; [done|].
    intros i s' Hl Hs. destruct Hstep as [db op].
    apply (Write_expired_was_expired db (run_op op db).2); [apply run_op_Write| |done].
    by apply IH. }
  split; [exact Hkeep|]. split.
  - intros Hno i s' Hl Hs. by apply (Hno i s'); [apply Hkeep|].
  - intros Hempty i s' Hl Hs. apply Hkeep in Hl; [|done].
    rewrite Hempty, lookup_empty in Hl. discriminate.
Qed.

Lemma expired_status_never_written_witness :
  Steps sample_db sample_active_db ∧ no_expired sample_active_db.
Proof.
  assert (Hsteps : Steps sample_db sample_active_db) by apply run_Steps.
  split; [exact Hsteps|].
  by apply (expired_status_never_written sample_db sample_active_db Hsteps).
Defined.

(** ** Deactivation *)

Lemma GetCurrentCustomer_find_customer db user_id customerID customer :
  GetCurrentCustomer db user_id = Some (customerID, customer) →
  find_customer db customerID = Some customer.
Proof.
  unfold GetCurrentCustomer, GetCurrentUser, customer_of_user, find_customer, by_id.
  destruct user_id as [u|]; [|discriminate].
  destruct (rows (users db) !! u); [|discriminate].
  intros Hf. apply first_where_Some in Hf as [Hl Hc].
  apply andb_true_iff in Hc as [_ Hlive]. by rewrite Hl, Hlive.
Qed.

Lemma find_pack_by_sku_find_pack db sku packID pack :
  find_pack_by_sku db sku = Some (packID, pack) →
  find_pack db packID = Some pack ∧ SubscriptionPack.SKU pack = sku.
Proof.
  unfold find_pack_by_sku, find_pack, by_id. intros Hf.
  apply first_where_Some in Hf as [Hl Hc].
  apply andb_true_iff in Hc as [Hsku Hvalid]. apply String.eqb_eq in Hsku.
  by rewrite Hl, Hvalid.
Qed.

Lemma GetActiveSubscription_None cid tbl :
  Customer.GetActiveSubscription cid tbl = None ↔
  Customer.HasActiveSubscription cid tbl = false.
Proof.
  unfold Customer.GetActiveSubscription, Customer.HasActiveSubscription. cbv zeta.
  by rewrite first_where_None, count_where_zero.
Qed.

Lemma UnassignSubscription_not_active db id s now :
  by_id (subscriptions db) id = Some s →
  Subscription.Status s ≠ StatusActive →
  SubscriptionHandler.UnassignSubscription db (Some id) now
  = (ErrorResponse StatusBadRequest "Only active subscriptions can be unassigned", db).
Proof.
  intros Hl Hs. unfold SubscriptionHandler.UnassignSubscription. rewrite Hl.
  apply String.eqb_neq in Hs. by rewrite Hs.
Qed.

Lemma UnassignSubscription_active db id s now :
  by_id (subscriptions db) id = Some s →
  Subscription.Status s = StatusActive →
  SubscriptionHandler.UnassignSubscription db (Some id) now
  = (SuccessResponse (DSubscription id (deactivated s now))
                     "Subscription unassigned successfully",
     with_subscriptions (save (subscriptions db) id (deactivated s now)) db).
Proof.
  intros Hl Hs. unfold SubscriptionHandler.UnassignSubscription. rewrite Hl.
  apply String.eqb_eq in Hs. by rewrite Hs.
Qed.

Lemma DeactivateSubscription_none db user_id customerID customer now :
  GetCurrentCustomer db user_id = Some (customerID, customer) →
  Customer.HasActiveSubscription customerID (subscriptions db) = false →
  SubscriptionHandler.DeactivateSubscription db user_id now
  = (ErrorResponse StatusNotFound "No active subscription found", db) ∧
  SDKHandler.DeactivateSubscription db user_id now
  = (ErrorResponse StatusNotFound "No active subscription found", db).
Proof.
  intros Hc Ha. apply GetActiveSubscription_None in Ha.
  unfold SubscriptionHandler.DeactivateSubscription, SDKHandler.DeactivateSubscription.
  by rewrite Hc, Ha.
Qed.

Lemma DeactivateSubscription_active db user_id customerID customer id s now :
  GetCurrentCustomer db user_id = Some (customerID, customer) →
  Customer.GetActiveSubscription customerID (subscriptions db) = Some (id, s) →
  SubscriptionHandler.DeactivateSubscription db user_id now
  = (SuccessResponse (DSubscription id (deactivated s now))
                     "Subscription deactivated successfully",
     with_subscriptions (save (subscriptions db) id (deactivated s now)) db) ∧
  SDKHandler.DeactivateSubscription db user_id now
  = (SuccessResponse (DSubscription id (deactivated s now))
                     "Subscription deactivated successfully",
     with_subscriptions (save (subscriptions db) id (deactivated s now)) db).
Proof.
  intros Hc Ha.
  unfold SubscriptionHandler.DeactivateSubscription, SDKHandler.DeactivateSubscription.
  by rewrite Hc, Ha.
Qed.

(** A deactivation leaves every subscription that is not [active] as it is. *)
Lemma deactivation_keeps_others op db i s :
  is_deactivation op = true →
  rows (subscriptions db) !! i = Some s →
  Subscription.Status s ≠ StatusActive →
  rows (subscriptions (run_op op db).2) !! i = Some s.
Proof.
  intros Hop Hl Hs.
  destruct op; try discriminate; cbn [run_op] in *;
    unfold SubscriptionHandler.UnassignSubscription,
      SubscriptionHandler.DeactivateSubscription,
      SDKHandler.DeactivateSubscription in *;
    handler_cases; cbn [snd]; try done; cbn.
  - match goal with H : negb _ = false |- _ =>
      apply negb_false_iff, String.eqb_eq in H end.
    rewrite lookup_insert_ne; [done|]. intros ->.
    unfold by_id in *. congruence.
  - match goal with H : Customer.GetActiveSubscription _ _ = Some _ |- _ =>
      apply GetActiveSubscription_Some in H as (? & ? & ?) end.
    rewrite lookup_insert_ne; [done|]. intros ->. congruence.
  - match goal with H : Customer.GetActiveSubscription _ _ = Some _ |- _ =>
      apply GetActiveSubscription_Some in H as (? & ? & ?) end.
    rewrite lookup_insert_ne; [done|]. intros ->. congruence.
Qed.

(** *** Request, approve, assign, deactivate *)

Section Scenario.
Variables (db : DB) (user_id : option N) (customerID : N) (customer : Customer.t).
Variables (sku : string) (packID : N) (pack : SubscriptionPack.t).
Variables (t1 t2 t3 t4 : Time).
Hypothesis Hcustomer : GetCurrentCustomer db user_id = Some (customerID, customer).
Hypothesis Hnone : Customer.HasActiveSubscription customerID (subscriptions db) = false.
Hypothesis Hpack : find_pack_by_sku db sku = Some (packID, pack).

Let id : N := next_id (subscriptions db).
Let expiry : Time := AddDate t3 0 (SubscriptionPack.ValidityMonths pack) 0.
Let s1 := Subscription.mk customerID packID StatusRequested t1 None None None None.
Let s2 := Subscription.mk customerID packID StatusApproved t1 (Some t2) None None None.
Let s3 := Subscription.mk customerID packID StatusActive t1 (Some t2) (Some t3)
                          (Some expiry) None.
Let db1 := with_subscriptions (create (subscriptions db) s1).2 db.
Let db2 := with_subscriptions (save (subscriptions db1) id s2) db1.
Let db3 := with_subscriptions (save (subscriptions db2) id s3) db2.

Lemma scenario_request :
  SubscriptionHandler.RequestSubscription db user_id
    (Some (SubscriptionRequest.mk sku)) t1
  = (SuccessResponse (DSubscription id s1) "Subscription request created successfully",
     db1) ∧
  SDKHandler.RequestSubscription db user_id (Some (SubscriptionRequest.mk sku)) t1
  = (SuccessResponse (DSubscription id s1) "Subscription request created successfully",
     db1).
Proof.
  unfold SubscriptionHandler.RequestSubscription, SDKHandler.RequestSubscription.
  cbn [SubscriptionRequest.PackSKU]. by rewrite Hcustomer, Hnone, Hpack.
Qed.

Lemma scenario_approve :
  SubscriptionHandler.ApproveSubscription db1 (Some id) t2
  = (SuccessResponse (DSubscription id s2) "Subscription approved successfully", db2).
Proof.
  unfold SubscriptionHandler.ApproveSubscription, by_id.
  cbn [db1 subscriptions with_subscriptions create snd rows].
  by rewrite lookup_insert_eq.
Qed.

Lemma scenario_no_active_yet :
  Customer.HasActiveSubscription customerID (subscriptions db2) = false.
Proof.
  rewrite HasActiveSubscription_false in Hnone |- *.
  intros i s. cbn. rewrite !lookup_insert_Some.
  intros [[_ <-]|[_ [[_ <-]|[_ Hl]]]] Hc; [done | done | by apply (Hnone i)].
Qed.

Lemma scenario_assign :
  SubscriptionHandler.AssignSubscription db2 (Some id) t3
  = (SuccessResponse (DSubscription id s3) "Subscription assigned successfully", db3).
Proof.
  unfold SubscriptionHandler.AssignSubscription, by_id.
  replace (rows (subscriptions db2) !! id) with (Some s2)
    by (cbn; by rewrite lookup_insert_eq).
  cbn [Subscription.PackID Subscription.CustomerID s2].
  replace (find_pack db2 packID) with (Some pack)
    by (symmetry; by apply (find_pack_by_sku_find_pack db sku)).
  replace (find_customer db2 customerID) with (Some customer)
    by (symmetry; by apply (GetCurrentCustomer_find_customer db user_id)).
  by rewrite scenario_no_active_yet.
Qed.

Lemma scenario_lookup : rows (subscriptions db3) !! id = Some s3.
Proof. cbn. by rewrite lookup_insert_eq. Qed.

Lemma scenario_active_is_new :
  Customer.GetActiveSubscription customerID (subscriptions db3) = Some (id, s3).
Proof.
  destruct (first_where_is_Some (Customer.active_of customerID) (subscriptions db3) id s3)
    as [[k a] Hf];
    [apply scenario_lookup
    | unfold Customer.active_of, s3; cbn [Subscription.CustomerID Subscription.Status];
      by rewrite N.eqb_refl |].
  unfold Customer.GetActiveSubscription. rewrite Hf.
  apply GetActiveSubscription_Some in Hf as (Hl & Hc & Hs).
  pose proof scenario_no_active_yet as Hno. rewrite HasActiveSubscription_false in Hno.
  cbn in Hl. apply lookup_insert_Some in Hl as [[<- <-]|[Hne Hl]]; [done|].
  exfalso. by apply (Hno k a).
Qed.

Lemma scenario_unassign :
  SubscriptionHandler.UnassignSubscription db3 (Some id) t4
  = (SuccessResponse (DSubscription id (deactivated s3 t4))
                     "Subscription unassigned successfully",
     with_subscriptions (save (subscriptions db3) id (deactivated s3 t4)) db3).
Proof. by apply UnassignSubscription_active; [apply scenario_lookup|]. Qed.

Lemma scenario_deactivate :
  SubscriptionHandler.DeactivateSubscription db3 user_id t4
  = (SuccessResponse (DSubscription id (deactivated s3 t4))
                     "Subscription deactivated successfully",
     with_subscriptions (save (subscriptions db3) id (deactivated s3 t4)) db3) ∧
  SDKHandler.DeactivateSubscription db3 user_id t4
  = (SuccessResponse (DSubscription id (deactivated s3 t4))
                     "Subscription deactivated successfully",
     with_subscriptions (save (subscriptions db3) id (deactivated s3 t4)) db3).
Proof.
  apply (DeactivateSubscription_active db3 user_id customerID customer);
    [exact Hcustomer | apply scenario_active_is_new].
Qed.

(** The four requests one after the other, ended by the admin's unassign or
    by the customer's own deactivation. *)
Lemma scenario_end (last : Op) :
  last = OpUnassign (Some id) t4 ∨ last = OpDeactivate user_id t4 ∨
  last = OpSDKDeactivate user_id t4 →
  rows (subscriptions
          (run [ OpRequest user_id (Some (SubscriptionRequest.mk sku)) t1;
                 OpApprove (Some id) t2;
                 OpAssign (Some id) t3;
                 last ] db)) !! id
  = Some (Subscription.mk customerID packID StatusInactive t1 (Some t2) (Some t3)
                          (Some expiry) (Some t4)).
Proof.
  intros Hlast. unfold run. cbn [fold_left run_op].
  rewrite (proj1 scenario_request). cbn [snd].
  rewrite scenario_approve. cbn [snd].
  rewrite scenario_assign. cbn [snd].
  destruct Hlast as [-> | [-> | ->]]; cbn [run_op].
  - rewrite scenario_unassign. cbn. by rewrite lookup_insert_eq.
  - rewrite (proj1 scenario_deactivate). cbn. by rewrite lookup_insert_eq.
  - rewrite (proj2 scenario_deactivate). cbn. by rewrite lookup_insert_eq.
Qed.

End Scenario.

(** C6.  Unassign (admin) and Deactivate (customer, web or SDK).
    Failure: the unassign of a subscription whose status is not [active] is
    answered 400 and the deactivation by a customer without an active
    subscription 404, the database being left as it was; and whatever a
    deactivation does, every subscription whose status is not [active]
    stays as it is.  Success: the subscription is stored with the status
    [inactive] and [DeactivatedAt = now], all its other columns
    ([ApprovedAt], [AssignedAt], [ExpiresAt] among them) as they were read.
    Hence request, approve, assign and then unassign or deactivate, on a
    new subscription, end with the status [inactive], [DeactivatedAt] set
    and [ApprovedAt], [AssignedAt] as approve and assign set them. *)
Theorem unassign_deactivate_spec :
  (∀ db id s now,
      by_id (subscriptions db) id = Some s →
      Subscription.Status s ≠ StatusActive →
      SubscriptionHandler.UnassignSubscription db (Some id) now
      = (ErrorResponse StatusBadRequest "Only active subscriptions can be unassigned", db)) ∧
  (∀ db user_id customerID customer now,
      GetCurrentCustomer db user_id = Some (customerID, customer) →
      Customer.HasActiveSubscription customerID (subscriptions db) = false →
      SubscriptionHandler.DeactivateSubscription db user_id now
      = (ErrorResponse StatusNotFound "No active subscription found", db) ∧
      SDKHandler.DeactivateSubscription db user_id now
      = (ErrorResponse StatusNotFound "No active subscription found", db)) ∧
  (∀ op db i s,
      is_deactivation op = true →
      rows (subscriptions db) !! i = Some s →
      Subscription.Status s ≠ StatusActive →
      rows (subscriptions (run_op op db).2) !! i = Some s) ∧
  (∀ db id s now,
      by_id (subscriptions db) id = Some s →
      Subscription.Status s = StatusActive →
      SubscriptionHandler.UnassignSubscription db (Some id) now
      = (SuccessResponse (DSubscription id (deactivated s now))
                         "Subscription unassigned successfully",
         with_subscriptions (save (subscriptions db) id (deactivated s now)) db)) ∧
  (∀ db user_id customerID customer id s now,
      GetCurrentCustomer db user_id = Some (customerID, customer) →
      Customer.GetActiveSubscription customerID (subscriptions db) = Some (id, s) →
      SubscriptionHandler.DeactivateSubscription db user_id now
      = (SuccessResponse (DSubscription id (deactivated s now))
                         "Subscription deactivated successfully",
         with_subscriptions (save (subscriptions db) id (deactivated s now)) db) ∧
      SDKHandler.DeactivateSubscription db user_id now
      = (SuccessResponse (DSubscription id (deactivated s now))
                         "Subscription deactivated successfully",
         with_subscriptions (save (subscriptions db) id (deactivated s now)) db)) ∧
  (∀ db user_id customerID customer sku packID pack t1 t2 t3 t4 last,
      GetCurrentCustomer db user_id = Some (customerID, customer) →
      Customer.HasActiveSubscription customerID (subscriptions db) = false →
      find_pack_by_sku db sku = Some (packID, pack) →
      let id := next_id (subscriptions db) in
      last = OpUnassign (Some id) t4 ∨ last = OpDeactivate user_id t4 ∨
      last = OpSDKDeactivate user_id t4 →
      rows (subscriptions
              (run [ OpRequest user_id (Some (SubscriptionRequest.mk sku)) t1;
                     OpApprove (Some id) t2;
                     OpAssign (Some id) t3;
                     last ] db)) !! id
      = Some (Subscription.mk customerID packID StatusInactive t1 (Some t2) (Some t3)
                (Some (AddDate t3 0 (SubscriptionPack.ValidityMonths pack) 0))
                (Some t4))).
Proof.
  split; [exact UnassignSubscription_not_active|].
  split; [exact DeactivateSubscription_none|].
  split; [exact deactivation_keeps_others|].
  split; [exact UnassignSubscription_active|].
  split; [exact DeactivateSubscription_active|].
  intros db user_id customerID customer sku packID pack t1 t2 t3 t4 last Hc Hn Hp id Hlast.
  by apply (scenario_end db user_id customerID customer sku packID pack t1 t2 t3 t4 Hc Hn Hp).
Qed.

(** On the sample data, with the customer's own deactivation at the end. *)
Lemma unassign_deactivate_spec_witness :
  rows (subscriptions
          (run [ OpRequest (Some 1%N) (Some basic) t0;
                 OpApprove (Some 1%N) (mkTime 1706700001 0 UTC);
                 OpAssign (Some 1%N) (mkTime 1706700002 0 UTC);
                 OpDeactivate (Some 1%N) (mkTime 1706700003 0 UTC) ] sample_db)) !! 1%N
  = Some (Subscription.mk 1%N 1%N StatusInactive t0
            (Some (mkTime 1706700001 0 UTC)) (Some (mkTime 1706700002 0 UTC))
            (Some (AddDate (mkTime 1706700002 0 UTC) 0 1 0))
            (Some (mkTime 1706700003 0 UTC))).
Proof.
  pose proof unassign_deactivate_spec as (_ & _ & _ & _ & _ & Hscenario).
  apply (Hscenario sample_db (Some 1%N) 1%N (Customer.mk 1%N "Ann" "555" None)
           "basic" 1%N (SubscriptionPack.mk "Basic" "One month" "basic" 1 None));
    [vm_compute; reflexivity | vm_compute; reflexivity | vm_compute; reflexivity
    | right; left; reflexivity].
Defined.

(** ** Requests *)

Lemma next_id_is_fresh {A} (t : Table A) :
  keys_below_next t → rows t !! next_id t = None.
Proof.
  intros Hwf. destruct (rows t !! next_id t) as [a|] eqn:Hl; [|done].
  apply Hwf in Hl. lia.
Qed.

(** The keys of the subscriptions stay below the next key of the sequence. *)
Lemma Write_keys_below_next db db' :
  Write db db' →
  keys_below_next (subscriptions db) → keys_below_next (subscriptions db').
Proof.
  destruct 1 as [db | db cid pid now Hno | db id s now Hl Hc
                 | db id s pack now Hl Hc Hno Hp | db id s now Hl Hs | db id s Hl];
    intros Hwf i a; cbn; try apply Hwf.
  - rewrite lookup_insert_Some. intros [[<- _]|[_ Hi]]; [lia|].
    apply Hwf in Hi. lia.
  - rewrite lookup_insert_Some. intros [[<- _]|[_ Hi]]; by eapply Hwf.
  - rewrite lookup_insert_Some. intros [[<- _]|[_ Hi]]; by eapply Hwf.
  - rewrite lookup_insert_Some. intros [[<- _]|[_ Hi]]; by eapply Hwf.
  - rewrite lookup_delete_Some. intros [_ Hi]. by eapply Hwf.
Qed.

Lemma Steps_keys_below_next db db' :
  Steps db db' →
  keys_below_next (subscriptions db) → keys_below_next (subscriptions db').
Proof.
  induction 1 as [db | db db1 db' Hstep _ IH]; [done|].
  intros Hwf. apply IH. destruct Hstep as [db op].
  apply (Write_keys_below_next db); [apply run_op_Write | done].
Qed.

Lemma run_op_Requests db customerID sku now op :
  Requests db customerID sku now op →
  run_op op db =
    match op with
    | OpCreate _ _ =>
        match find_pack_by_sku db sku with
        | None => (ErrorResponse StatusNotFound "Subscription pack not found", db)
        | Some (packID, _) =>
            if Customer.HasActiveSubscription customerID (subscriptions db)
            then (conflict, db)
            else (SuccessResponse
                    (DSubscription (next_id (subscriptions db))
                                   (requested customerID packID now))
                    "Subscription created successfully",
                  with_subscriptions
                    (create (subscriptions db) (requested customerID packID now)).2 db)
        end
    | _ =>
        if Customer.HasActiveSubscription customerID (subscriptions db)
        then (conflict, db)
        else
          match find_pack_by_sku db sku with
          | None => (ErrorResponse StatusBadRequest "Invalid subscription pack", db)
          | Some (packID, _) =>
              (SuccessResponse
                 (DSubscription (next_id (subscriptions db))
                                (requested customerID packID now))
                 "Subscription request created successfully",
               with_subscriptions
                 (create (subscriptions db) (requested customerID packID now)).2 db)
          end
    end.
Proof.
  destruct 1 as [u c Hc | u c Hc | c Hc]; cbn [run_op];
    unfold SubscriptionHandler.RequestSubscription, SDKHandler.RequestSubscription,
      SubscriptionHandler.CreateSubscription;
    cbn [SubscriptionRequest.PackSKU CreateSubscriptionRequest.PackSKU
         CreateSubscriptionRequest.CustomerID];
    rewrite Hc; repeat case_match; try done.
  all: unfold create in *; by simplify_eq.
Qed.

Lemma find_pack_by_sku_None db sku :
  find_pack_by_sku db sku = None ↔ ∀ packID p, ¬ live_pack db sku packID p.
Proof.
  unfold find_pack_by_sku, live_pack, SubscriptionPack.IsValid.
  rewrite first_where_None. split.
  - intros Hall packID p (Hl & Hsku & Hd). specialize (Hall packID p Hl).
    rewrite Hd in Hall. apply String.eqb_eq in Hsku. rewrite Hsku in Hall. discriminate.
  - intros Hno packID p Hl. apply not_true_iff_false. intros Hc.
    apply andb_true_iff in Hc as [Hsku Hd]. apply String.eqb_eq in Hsku.
    apply (Hno packID p). split; [done|]. split; [done|].
    by destruct (SubscriptionPack.DeletedAt p).
Qed.

Lemma live_pack_cond db sku j q :
  rows (subscription_packs db) !! j = Some q →
  String.eqb (SubscriptionPack.SKU q) sku && SubscriptionPack.IsValid q = true
  ↔ live_pack db sku j q.
Proof.
  intros Hl. unfold live_pack, SubscriptionPack.IsValid.
  rewrite andb_true_iff, String.eqb_eq. split.
  - intros [Hsku Hd]. split; [done|]. split; [done|].
    by destruct (SubscriptionPack.DeletedAt q).
  - intros (_ & Hsku & Hd). by rewrite Hd.
Qed.

Lemma find_pack_by_sku_Some db sku packID p :
  find_pack_by_sku db sku = Some (packID, p) ↔
  live_pack db sku packID p ∧ ∀ j q, live_pack db sku j q → (packID ≤ j)%N.
Proof.
  unfold find_pack_by_sku. rewrite first_where_least. split.
  - intros (Hl & Hc & Hmin). split; [by apply (live_pack_cond db sku packID p Hl)|].
    intros j q Hlive. pose proof Hlive as (Hj & _).
    apply (Hmin j q Hj). by apply (live_pack_cond db sku j q Hj).
  - intros (Hlive & Hmin). pose proof Hlive as (Hl & _).
    split; [done|]. split; [by apply (live_pack_cond db sku packID p Hl)|].
    intros j q Hj Hc. apply (Hmin j q). by apply (live_pack_cond db sku j q Hj).
Qed.

(** C5.  A request of a subscription to the pack [sku] for a customer, by
    the customer (web or SDK) or by an admin on the customer's behalf.
    When a stored subscription of the customer has the status [active] the
    request fails with the 409 conflict, and when no pack that is not
    deleted has the SKU it fails with a not-found or bad-request error (400
    "Invalid subscription pack" from the customer's handlers, 404
    "Subscription pack not found" from the admin's); when both hold it
    fails with one of the two: the customer's handlers check the active
    subscription first and answer the conflict, the admin's handler checks
    the pack first and answers 404.  No failure writes to the database.
    Otherwise exactly one subscription is created, under the next key, for
    that customer and the pack of that SKU (the one of least id), with the
    status [requested] and [RequestedAt = now]. *)
Theorem request_spec (db : DB) (customerID : N) (sku : string) (now : Time) (op : Op)
  (Hop : Requests db customerID sku now op) :
  let active := active_row db customerID in
  let no_pack := ∀ packID p, ¬ live_pack db sku packID p in
  (active → (∃ packID p, live_pack db sku packID p) → run_op op db = (conflict, db)) ∧
  (¬ active → no_pack →
     (run_op op db).2 = db ∧ not_found_or_bad_request (run_op op db).1) ∧
  (active → no_pack →
     (run_op op db).2 = db ∧
     ((run_op op db).1 = conflict ∨ not_found_or_bad_request (run_op op db).1)) ∧
  (active → (∀ req, op ≠ OpCreate req now) → run_op op db = (conflict, db)) ∧
  (no_pack → (∃ req, op = OpCreate req now) →
     run_op op db = (ErrorResponse StatusNotFound "Subscription pack not found", db)) ∧
  (¬ active → ∀ packID p,
     live_pack db sku packID p → (∀ j q, live_pack db sku j q → (packID ≤ j)%N) →
     let id := next_id (subscriptions db) in
     let s := requested customerID packID now in
     (∃ message,
         run_op op db
         = (SuccessResponse (DSubscription id s) message,
            with_subscriptions
              (mkTable (<[id := s]> (rows (subscriptions db))) (N.succ id)) db)) ∧
     (keys_below_next (subscriptions db) →
        rows (subscriptions db) !! id = None ∧
        size (rows (subscriptions (run_op op db).2)) = S (size (rows (subscriptions db))))).
Proof.
  intros active no_pack. pose proof (run_op_Requests _ _ _ _ _ Hop) as Hrun.
  assert (Hactive : active ↔
            Customer.HasActiveSubscription customerID (subscriptions db) = true)
    by (symmetry; apply HasActiveSubscription_true).
  assert (Hinactive : ¬ active ↔
            Customer.HasActiveSubscription customerID (subscriptions db) = false)
    by (rewrite Hactive; apply not_true_iff_false).
  assert (Hnone : no_pack ↔ find_pack_by_sku db sku = None)
    by (symmetry; apply find_pack_by_sku_None).
  split; [|split; [|split; [|split; [|split]]]].
  - intros Ha (packID & p & Hlive). apply Hactive in Ha.
    destruct (find_pack_by_sku db sku) as [[pid q]|] eqn:Hf.
    + rewrite Hrun, Ha. by destruct op.
    + by destruct (proj1 (find_pack_by_sku_None db sku) Hf packID p).
  - intros Ha Hp. apply Hinactive in Ha. apply Hnone in Hp. rewrite Hrun, Ha, Hp.
    destruct op; (split; [done | eexists; eauto]).
  - intros Ha Hp. apply Hactive in Ha. apply Hnone in Hp. rewrite Hrun, Ha, Hp.
    destruct op; (split; [done|]); try (by left); right; eexists; eauto.
  - intros Ha Hne. apply Hactive in Ha. rewrite Hrun, Ha.
    destruct Hop; try done. by edestruct Hne.
  - intros Hp [req ->]. apply Hnone in Hp. by rewrite Hrun, Hp.
  - intros Ha packID p Hlive Hmin id s. apply Hinactive in Ha.
    assert (Hp : find_pack_by_sku db sku = Some (packID, p))
      by (by apply find_pack_by_sku_Some).
    assert (Hex : ∃ message,
               run_op op db
               = (SuccessResponse (DSubscription id s) message,
                  with_subscriptions
                    (mkTable (<[id := s]> (rows (subscriptions db))) (N.succ id)) db)).
    { rewrite Hrun, Ha, Hp. destruct op; eexists; reflexivity. }
    split; [exact Hex|]. intros Hwf. destruct Hex as [message ->].
    pose proof (next_id_is_fresh _ Hwf) as Hfresh. split; [exact Hfresh|].
    cbn. by apply map_size_insert_None.
Qed.

Lemma keys_below_next_sample_db : keys_below_next (subscriptions sample_db).
Proof. intros i s Hl. cbn in Hl. by rewrite lookup_empty in Hl. Qed.

Lemma sample_packs db packID p sku :
  subscription_packs db = subscription_packs sample_db →
  live_pack db sku packID p →
  packID = 1%N ∧ p = SubscriptionPack.mk "Basic" "One month" "basic" 1 None ∧ sku = "basic".
Proof.
  intros Hp (Hl & Hsku & _). rewrite Hp in Hl. cbn in Hl.
  apply lookup_singleton_Some in Hl as [<- <-]. by rewrite <- Hsku.
Qed.

(** On the sample data: the customer's request creates subscription 1; once
    the customer has the active subscription 1, a further request is
    answered with the conflict; and the admin's request for a SKU that no
    pack has is answered 404. *)
Lemma request_spec_witness :
  (run_op (OpRequest (Some 1%N) (Some basic) t0) sample_db
   = (SuccessResponse (DSubscription 1%N (requested 1%N 1%N t0))
                      "Subscription request created successfully",
      with_subscriptions (mkTable {[ 1%N := requested 1%N 1%N t0 ]} 2%N) sample_db) ∧
   size (rows (subscriptions (run_op (OpRequest (Some 1%N) (Some basic) t0) sample_db).2))
   = 1%nat) ∧
  run_op (OpSDKRequest (Some 1%N) (Some basic) new_year_2025) sample_active_db
  = (conflict, sample_active_db) ∧
  run_op (OpCreate (Some (CreateSubscriptionRequest.mk 1%N "gold")) t0) sample_db
  = (ErrorResponse StatusNotFound "Subscription pack not found", sample_db).
Proof.
  assert (Hlive : ∀ db, subscription_packs db = subscription_packs sample_db →
            live_pack db "basic" 1%N (SubscriptionPack.mk "Basic" "One month" "basic" 1 None))
    by (intros db Hp; unfold live_pack; by rewrite Hp).
  split; [|split].
  - assert (Hop : Requests sample_db 1%N "basic" t0
                           (OpRequest (Some 1%N) (Some basic) t0)).
    { apply (Requests_customer _ _ _ _ (Some 1%N) (Customer.mk 1%N "Ann" "555" None)).
      vm_compute. reflexivity. }
    pose proof (request_spec sample_db 1%N "basic" t0 _ Hop)
      as (_ & _ & _ & _ & _ & Hnew).
    destruct (Hnew ltac:(intros (i & s & Hl & _); cbn in Hl; by rewrite lookup_empty in Hl)
                1%N
                (SubscriptionPack.mk "Basic" "One month" "basic" 1 None)
                (Hlive sample_db eq_refl))
      as [_ Hsize].
    { intros j q Hq. by destruct (sample_packs sample_db j q "basic" eq_refl Hq) as [-> _]. }
    split; [vm_compute; reflexivity|].
    by destruct (Hsize keys_below_next_sample_db) as [_ ->].
  - assert (Hop : Requests sample_active_db 1%N "basic" new_year_2025
                           (OpSDKRequest (Some 1%N) (Some basic) new_year_2025)).
    { apply (Requests_sdk _ _ _ _ (Some 1%N) (Customer.mk 1%N "Ann" "555" None)).
      vm_compute. reflexivity. }
    pose proof (request_spec sample_active_db 1%N "basic" new_year_2025 _ Hop)
      as (Hconflict & _).
    apply Hconflict.
    + exists 1%N, (activated (Subscription.mk 1%N 1%N StatusApproved t0 (Some t0)
                                None None None) one_month_pack t0).
      split; [vm_compute; reflexivity | by split].
    + exists 1%N, (SubscriptionPack.mk "Basic" "One month" "basic" 1 None).
      apply Hlive. vm_compute. reflexivity.
  - assert (Hop : Requests sample_db 1%N "gold" t0
                           (OpCreate (Some (CreateSubscriptionRequest.mk 1%N "gold")) t0)).
    { apply (Requests_admin _ _ _ _ (Customer.mk 1%N "Ann" "555" None)).
      vm_compute. reflexivity. }
    pose proof (request_spec sample_db 1%N "gold" t0 _ Hop)
      as (_ & _ & _ & _ & Hmissing & _).
    apply Hmissing; [|by eexists].
    intros packID p Hq.
    by destruct (sample_packs sample_db packID p "gold" eq_refl Hq) as (_ & _ & ?).
Defined.

(** C2.  [CanTransitionTo] answers [true] exactly on the pairs of the
    transition table (requested to approved or inactive, approved to active
    or inactive, active to inactive or expired, inactive to active, expired
    to requested) and [false] on every other pair of statuses, whether
    among the five or not; from [expired] the status [approved] is never
    allowed. *)
Theorem CanTransitionTo_exactly_the_table :
  (∀ s newStatus,
      Subscription.CanTransitionTo s newStatus = true ↔
      In (Subscription.Status s, newStatus) spec_transition_table) ∧
  (∀ s newStatus,
      Subscription.CanTransitionTo s newStatus = false ↔
      ¬ In (Subscription.Status s, newStatus) spec_transition_table) ∧
  (∀ s, Subscription.Status s = StatusExpired →
        Subscription.CanTransitionTo s StatusApproved = false).
Proof.
  assert (Htable : ∀ s newStatus,
             Subscription.CanTransitionTo s newStatus = true ↔
             In (Subscription.Status s, newStatus) spec_transition_table).
  { intros [cid pid st rq ap asg ex de] newStatus. apply CanTransitionTo_iff_table. }
  split; [exact Htable|]. split.
  - intros s newStatus. by rewrite <- Htable, not_true_iff_false.
  - intros s Hs. unfold Subscription.CanTransitionTo. by rewrite Hs.
Qed.

Lemma CanTransitionTo_exactly_the_table_witness :
  Subscription.CanTransitionTo lapsed_inactive StatusActive = true ∧
  Subscription.CanTransitionTo lapsed_inactive StatusRequested = false ∧
  Subscription.CanTransitionTo
    (Subscription.set_Status StatusExpired lapsed_inactive) StatusApproved = false.
Proof.
  pose proof CanTransitionTo_exactly_the_table as (Hyes & Hno & Hexpired).
  split; [|split].
  - apply Hyes. cbn. tauto.
  - apply Hno. cbn. intros Hin.
    repeat (destruct Hin as [Hin|Hin]; [discriminate Hin|]). exact Hin.
  - by apply Hexpired.
Defined.

(** ** Expiry *)

Lemma Before_spec t u :
  Before t u = true ↔ (unix t < unix u ∨ (unix t = unix u ∧ nsec t < nsec u))%Z.
Proof.
  unfold Before. rewrite orb_true_iff, andb_true_iff, !Z.ltb_lt, Z.eqb_eq. tauto.
Qed.

(** C4 as stated does not hold: [IsExpired] answers [true] for a subscription whose
    status is [inactive] once its expiry date has passed. *)
Lemma IsExpired_status_counterexample :
  Subscription.IsExpired lapsed_inactive new_year_2025 = true ∧
  ¬ (Subscription.Status lapsed_inactive = StatusActive ∧
     ∃ e, Subscription.ExpiresAt lapsed_inactive = Some e ∧
          Before e new_year_2025 = true).
Proof.
  split; [vm_compute; reflexivity|]. intros [Hs _]. discriminate Hs.
Qed.

(** C4, amended.  [IsExpired] answers [true] exactly when [ExpiresAt] is set
    and lies before the time of the evaluation; the status is not looked
    at, so the answer is the same whatever the status, and in particular
    it is [true] for an [active] subscription whose [ExpiresAt] is past. *)
Theorem IsExpired_spec (s : Subscription.t) (now : Time) :
  (Subscription.IsExpired s now = true ↔
   ∃ e, Subscription.ExpiresAt s = Some e ∧ Before e now = true) ∧
  (Subscription.IsExpired s now = true ↔
   ∃ e, Subscription.ExpiresAt s = Some e ∧
        (unix e < unix now ∨ (unix e = unix now ∧ nsec e < nsec now))%Z) ∧
  (∀ status, Subscription.IsExpired (Subscription.set_Status status s) now
             = Subscription.IsExpired s now) ∧
  ((Subscription.Status s = StatusActive ∧
    ∃ e, Subscription.ExpiresAt s = Some e ∧ Before e now = true) →
   Subscription.IsExpired s now = true).
Proof.
  assert (Hiff : Subscription.IsExpired s now = true ↔
                 ∃ e, Subscription.ExpiresAt s = Some e ∧ Before e now = true).
  { unfold Subscription.IsExpired. destruct (Subscription.ExpiresAt s) as [e|].
    - split; [intros Hb; by exists e | by intros (e' & [= <-] & Hb)].
    - split; [discriminate | by intros (e' & He & _)]. }
  split; [exact Hiff|]. split; [|split; [done|]].
  - rewrite Hiff. by setoid_rewrite Before_spec.
  - intros [_ He]. by apply Hiff.
Qed.

Lemma IsExpired_spec_witness :
  Subscription.IsExpired
    (Subscription.set_Status StatusActive lapsed_inactive) new_year_2025 = true.
Proof.
  apply (IsExpired_spec (Subscription.set_Status StatusActive lapsed_inactive)
           new_year_2025).
  split; [reflexivity|]. exists (Date 2024 3 2 0 0 0 0 UTC). split; vm_compute; reflexivity.
Defined.

(** *** Calendar arithmetic *)

Example civil_unix_epoch : civil (mkTime 0 0 UTC) = (1970, 1, 1)%Z.
Proof. vm_compute. reflexivity. Qed.

Example civil_leap_day : civil (Date 2024 2 29 23 59 59 0 UTC) = (2024, 2, 29)%Z.
Proof. vm_compute. reflexivity. Qed.

Example Date_normalises_feb30 : Date 2023 2 30 0 0 0 0 UTC = Date 2023 3 2 0 0 0 0 UTC.
Proof. vm_compute. reflexivity. Qed.

Example AddDate_oct31_plus_one_month :
  civil (AddDate (Date 2023 10 31 12 0 0 0 UTC) 0 1 0) = (2023, 12, 1)%Z.
Proof. vm_compute. reflexivity. Qed.

Example AddDate_dec15_plus_twelve_months :
  civil (AddDate (Date 2023 12 15 0 0 0 0 UTC) 0 12 0) = (2024, 12, 15)%Z.
Proof. vm_compute. reflexivity. Qed.

(** The date is read in the location of the time: 22:00 on 2024-01-31 five
    hours west of UTC is 03:00 on 2024-02-01 in UTC, and a month added to
    it gives 22:00 on 2024-03-02 of that zone. *)
Example AddDate_west_of_UTC :
  let t := mkTime 1706756400 0 (FixedZone (-18000)) in
  civil t = (2024, 1, 31)%Z ∧ clock t = (22, 0, 0)%Z ∧
  unix (AddDate t 0 1 0) = 1709434800%Z ∧
  civil (AddDate t 0 1 0) = (2024, 3, 2)%Z ∧
  unix (AddDate (mkTime 1706756400 0 UTC) 0 1 0) = 1709262000%Z.
Proof. repeat split; vm_compute; reflexivity. Qed.

(** *** The calendar on the wall clock *)

Section Calendar.
Import wall.
Local Open Scope Z_scope.

Ltac div_lia := Z.to_euclidean_division_equations; lia.

Lemma clock_spec t h mi s :
  clock t = (h, mi, s) →
  (0 ≤ h < 24 ∧ 0 ≤ mi < 60 ∧ 0 ≤ s < 60 ∧
   h * 3600 + mi * 60 + s = unix t mod 86400)%Z.
Proof.
  unfold clock. intros [= <- <- <-].
  pose proof (Z.mod_pos_bound (unix t) 86400 ltac:(lia)) as Hsod.
  set (sod := (unix t mod 86400)%Z) in *.
  pose proof (Z.div_mod sod 3600 ltac:(lia)) as H1.
  pose proof (Z.mod_pos_bound sod 3600 ltac:(lia)) as H2.
  pose proof (Z.div_mod (sod mod 3600) 60 ltac:(lia)) as H3.
  pose proof (Z.mod_pos_bound (sod mod 3600) 60 ltac:(lia)) as H4.
  assert (H5 : (sod mod 60 = (sod mod 3600) mod 60)%Z).
  { symmetry. apply Z.mod_mod_divide. exists 60%Z. lia. }
  rewrite H5.
  assert (0 ≤ sod / 3600 < 24)%Z.
  { split; [apply Z.div_pos; lia | apply Z.div_lt_upper_bound; lia]. }
  assert (0 ≤ sod mod 3600 / 60 < 60)%Z.
  { split; [apply Z.div_pos; lia | apply Z.div_lt_upper_bound; lia]. }
  lia.
Qed.

(** The day count of a civil date, as [Date] computes it once the month is
    normalised. *)
Lemma Date_in_range year month day h mi s ns :
  (0 ≤ h < 24 → 0 ≤ mi < 60 → 0 ≤ s < 60 → 0 ≤ ns < 1000000000 →
   Date year month day h mi s ns
   = let y := year + (month - 1) / 12 in
     let m := (month - 1) mod 12 in
     mkTime ((daysSinceYear1 y + daysBefore m
              + (if isLeap y && (2 <=? m) then 1 else 0) + (day - 1) - unixEpochDay)
             * 86400 + (h * 3600 + mi * 60 + s)) ns)%Z.
Proof.
  intros Hh Hmi Hs Hns. unfold Date, norm.
  rewrite (Z.div_small ns), (Z.mod_small ns) by lia.
  rewrite Z.add_0_r.
  rewrite (Z.div_small s), (Z.mod_small s) by lia. rewrite Z.add_0_r.
  rewrite (Z.div_small mi), (Z.mod_small mi) by lia. rewrite Z.add_0_r.
  rewrite (Z.div_small h), (Z.mod_small h) by lia. rewrite Z.add_0_r.
  cbv zeta. f_equal. lia.
Qed.

Lemma civil_of_day_and_clock n sod ns :
  (0 ≤ sod < 86400)%Z →
  civil (mkTime (n * 86400 + sod) ns)
  = (let '(year, yday) := yearDay (n + unixEpochDay) in
     let '(month, day) := monthDay year yday in (year, month, day)) ∧
  (mkTime (n * 86400 + sod) ns).(unix) mod 86400 = sod.
Proof.
  intros Hsod. unfold civil. cbn [unix].
  replace ((n * 86400 + sod) / 86400)%Z with n
    by (apply (Z.div_unique _ _ _ sod); lia).
  split; [done|].
  symmetry. apply (Z.mod_unique _ _ n); lia.
Qed.

(** [Date] on a clock in range keeps the clock. *)
Lemma Date_clock y m d h mi s ns :
  0 ≤ h < 24 → 0 ≤ mi < 60 → 0 ≤ s < 60 → 0 ≤ ns < 1000000000 →
  clock (Date y m d h mi s ns) = (h, mi, s) ∧ nsec (Date y m d h mi s ns) = ns.
Proof.
  intros Hh Hmi Hs Hns. rewrite Date_in_range by lia. cbv zeta.
  assert (Hsod : 0 ≤ h * 3600 + mi * 60 + s < 86400) by lia.
  match goal with
  | |- context [mkTime (?n * 86400 + ?sod) ?ns] =>
      destruct (civil_of_day_and_clock n sod ns Hsod) as [_ Hm]
  end.
  split; [|done]. unfold clock. rewrite Hm.
  f_equal; [f_equal|]; div_lia.
Qed.

(** *** The calendar round trip *)

Lemma yearDay_digits a b c e k :
  0 ≤ b ≤ 3 → 0 ≤ c ≤ 24 → 0 ≤ e ≤ 3 → 0 ≤ k →
  (k < 365 ∨ (k = 365 ∧ e = 3 ∧ (c < 24 ∨ b = 3))) →
  yearDay (146097 * a + 36524 * b + 1461 * c + 365 * e + k)
  = (1 + 400 * a + 100 * b + 4 * c + e, k).
Proof.
  intros Hb Hc He Hk Hrange. unfold yearDay.
  set (D := 146097 * a + 36524 * b + 1461 * c + 365 * e + k).
  assert (H400 : D / 146097 = a) by (subst D; div_lia).
  rewrite H400. cbv zeta.
  set (d1 := D - 146097 * a).
  assert (Hd1 : d1 = 36524 * b + 1461 * c + 365 * e + k) by (subst d1 D; lia).
  set (n100 := d1 / 36524).
  assert (H100 : n100 - n100 / 4 = b) by (subst n100; div_lia).
  rewrite H100.
  set (d2 := d1 - 36524 * b).
  assert (Hd2 : d2 = 1461 * c + 365 * e + k) by (subst d2; lia).
  assert (H4 : d2 / 1461 = c) by div_lia.
  rewrite H4.
  set (d3 := d2 - 1461 * c).
  assert (Hd3 : d3 = 365 * e + k) by (subst d3; lia).
  set (n1 := d3 / 365).
  assert (H1 : n1 - n1 / 4 = e) by (subst n1; div_lia).
  rewrite H1. f_equal; lia.
Qed.

Lemma year_digits a b c e :
  0 ≤ b ≤ 3 → 0 ≤ c ≤ 24 → 0 ≤ e ≤ 3 →
  let y := 1 + 400 * a + 100 * b + 4 * c + e in
  daysSinceYear1 y = 146097 * a + 36524 * b + 1461 * c + 365 * e ∧
  (isLeap y = true ↔ e = 3 ∧ (c < 24 ∨ b = 3)).
Proof.
  intros Hb Hc He y. split.
  - unfold daysSinceYear1. cbv zeta.
    replace (y - 1) with (400 * a + 100 * b + 4 * c + e) by (subst y; lia).
    set (p := 400 * a + 100 * b + 4 * c + e).
    assert (p / 4 = 100 * a + 25 * b + c) by (subst p; div_lia).
    assert (p / 100 = 4 * a + b) by (subst p; div_lia).
    assert (p / 400 = a) by (subst p; div_lia).
    lia.
  - unfold isLeap. rewrite andb_true_iff, orb_true_iff, negb_true_iff,
      !Z.eqb_eq, Z.eqb_neq.
    assert (Z.rem y 4 = 0 ↔ e = 3) by (subst y; div_lia).
    assert (Z.rem y 100 = 0 ↔ e = 3 ∧ c = 24) by (subst y; div_lia).
    assert (Z.rem y 400 = 0 ↔ e = 3 ∧ c = 24 ∧ b = 3) by (subst y; div_lia).
    lia.
Qed.

Lemma digits_of_year y :
  ∃ a b c e, 0 ≤ b ≤ 3 ∧ 0 ≤ c ≤ 24 ∧ 0 ≤ e ≤ 3 ∧
             y = 1 + 400 * a + 100 * b + 4 * c + e.
Proof.
  exists ((y - 1) / 400), ((y - 1) mod 400 / 100), ((y - 1) mod 100 / 4), ((y - 1) mod 4).
  div_lia.
Qed.

Lemma yearDay_correct y k :
  0 ≤ k < yearLen y → yearDay (daysSinceYear1 y + k) = (y, k).
Proof.
  intros Hk. destruct (digits_of_year y) as (a & b & c & e & Hb & Hc & He & ->).
  destruct (year_digits a b c e Hb Hc He) as [Hd Hl]. cbv zeta in Hd, Hl.
  rewrite Hd. apply yearDay_digits; try lia.
  unfold yearLen in Hk. destruct (isLeap _); [|lia].
  destruct (proj1 Hl eq_refl). lia.
Qed.

Lemma yearDay_sound D y k :
  yearDay D = (y, k) → D = daysSinceYear1 y + k ∧ 0 ≤ k < yearLen y.
Proof.
  unfold yearDay.
  set (a := D / 146097). set (d1 := D - 146097 * a).
  assert (Hd1 : 0 ≤ d1 < 146097) by (subst d1 a; div_lia).
  set (n100 := d1 / 36524). set (b := n100 - n100 / 4).
  assert (Hb : 0 ≤ b ≤ 3) by (subst b n100; div_lia).
  set (d2 := d1 - 36524 * b).
  assert (Hd2 : 0 ≤ d2 < 36524 ∨ (d2 = 36524 ∧ b = 3)) by (subst d2 b n100; div_lia).
  set (c := d2 / 1461).
  assert (Hc : 0 ≤ c ≤ 24) by (subst c; div_lia).
  set (d3 := d2 - 1461 * c).
  assert (Hd3 : 0 ≤ d3 < 1461 ∧ (d3 = 1460 → c < 24 ∨ b = 3)) by (subst d3 c; div_lia).
  set (n1 := d3 / 365). set (e := n1 - n1 / 4).
  assert (He : 0 ≤ e ≤ 3) by (subst e n1; div_lia).
  set (d4 := d3 - 365 * e).
  assert (Hd4 : 0 ≤ d4 < 365 ∨ (d4 = 365 ∧ e = 3 ∧ d3 = 1460)) by (subst d4 e n1; div_lia).
  cbv zeta. intros [= <- <-].
  destruct (year_digits a b c e Hb Hc He) as [Hd Hl]. cbv zeta in Hd, Hl.
  rewrite Hd. split; [subst d4 d3 d2 d1; lia|].
  unfold yearLen. destruct (isLeap _) eqn:Hleap; [lia|].
  destruct Hd4 as [?|(? & ? & ?)]; [lia|].
  assert (false = true); [|discriminate].
  apply Hl. lia.
Qed.


Lemma monthDay_unfold y k : monthDay y k = monthDay_with (isLeap y) k.
Proof. reflexivity. Qed.

Lemma monthDay_with_sound leap :
  Forall (λ k, 1 ≤ (monthDay_with leap k).1 ≤ 12 ∧
               1 ≤ (monthDay_with leap k).2
                 ≤ daysInMonth leap (monthDay_with leap k).1 ∧
               k = dayOfYear leap (monthDay_with leap k).1 (monthDay_with leap k).2)
         (seqZ 0 (if leap then 366 else 365)).
Proof. destruct leap; compute_done. Qed.

Lemma monthDay_with_correct leap :
  Forall (λ m, Forall (λ d, d ≤ daysInMonth leap m →
                            0 ≤ dayOfYear leap m d < (if leap then 366 else 365) ∧
                            monthDay_with leap (dayOfYear leap m d) = (m, d))
                      (seqZ 1 31))
         (seqZ 1 12).
Proof. destruct leap; compute_done. Qed.

Lemma month_overflow leap :
  Forall (λ m, dayOfYear leap m (daysInMonth leap m + 1) = dayOfYear leap (m + 1) 1)
         (seqZ 1 11).
Proof. destruct leap; compute_done. Qed.

Lemma dayOfYear_shift leap m d d' :
  dayOfYear leap m d = dayOfYear leap m d' + (d - d').
Proof. unfold dayOfYear. lia. Qed.

Lemma Forall_seqZ (P : Z → Prop) lo n x :
  Forall P (seqZ lo n) → lo ≤ x < lo + n → P x.
Proof. rewrite Forall_forall. intros Hall Hx. apply Hall, elem_of_seqZ. lia. Qed.

Lemma monthDay_sound y k m d :
  0 ≤ k < yearLen y → monthDay y k = (m, d) →
  valid_date y m d ∧ k = yearDayOf y m d.
Proof.
  intros Hk. rewrite monthDay_unfold. unfold valid_date, daysIn, yearDayOf, yearLen in *.
  pose proof (monthDay_with_sound (isLeap y)) as Hall.
  apply (Forall_seqZ _ _ _ k) in Hall; [|destruct (isLeap y); lia].
  cbv beta in Hall. intros Hmd. rewrite Hmd in Hall. cbn [fst snd] in Hall. tauto.
Qed.

Lemma monthDay_correct y m d :
  valid_date y m d →
  0 ≤ yearDayOf y m d < yearLen y ∧ monthDay y (yearDayOf y m d) = (m, d).
Proof.
  rewrite monthDay_unfold. unfold valid_date, daysIn, yearDayOf, yearLen.
  intros [Hm Hd].
  pose proof (monthDay_with_correct (isLeap y)) as Hall.
  apply (Forall_seqZ _ _ _ m) in Hall; [|lia]. cbv beta in Hall.
  apply (Forall_seqZ _ _ _ d) in Hall.
  - cbv beta in Hall. apply Hall, Hd.
  - assert (daysInMonth (isLeap y) m ≤ 31); [|lia].
    unfold daysInMonth. by repeat case_match.
Qed.

Lemma civil_Date y m d h mi s ns :
  valid_date y m d →
  0 ≤ h < 24 → 0 ≤ mi < 60 → 0 ≤ s < 60 → 0 ≤ ns < 1000000000 →
  civil (Date y m d h mi s ns) = (y, m, d) ∧
  clock (Date y m d h mi s ns) = (h, mi, s).
Proof.
  intros Hv Hh Hmi Hs Hns. rewrite Date_in_range by done. cbv zeta.
  destruct Hv as [Hm Hd].
  replace ((m - 1) / 12) with 0 by div_lia.
  replace ((m - 1) mod 12) with (m - 1) by div_lia.
  rewrite Z.add_0_r.
  match goal with
  | |- context [mkTime (?n * 86400 + ?sod) ?ns] =>
      destruct (civil_of_day_and_clock n sod ns) as [Hc Hsod]; [lia|]
  end.
  destruct (monthDay_correct y m d (conj Hm Hd)) as [Hrange Hmd].
  split.
  - rewrite Hc.
    match goal with
    | |- context [yearDay ?x] =>
        replace x with (daysSinceYear1 y + yearDayOf y m d)
          by (unfold yearDayOf, dayOfYear; lia)
    end.
    by rewrite yearDay_correct, Hmd.
  - unfold clock. rewrite Hsod. f_equal; [f_equal|]; div_lia.
Qed.

Lemma daysInMonth_bounds leap m : 28 ≤ daysInMonth leap m ≤ 31.
Proof. unfold daysInMonth. destruct leap; repeat case_match; lia. Qed.

(** [Date] on a month in 1..12 and a clock in range. *)
Lemma Date_day_number y m d h mi s ns :
  1 ≤ m ≤ 12 → 0 ≤ h < 24 → 0 ≤ mi < 60 → 0 ≤ s < 60 → 0 ≤ ns < 1000000000 →
  Date y m d h mi s ns
  = mkTime ((daysSinceYear1 y + yearDayOf y m d - unixEpochDay) * 86400
            + (h * 3600 + mi * 60 + s)) ns.
Proof.
  intros Hm Hh Hmi Hs Hns. rewrite Date_in_range by done. cbv zeta.
  replace ((m - 1) / 12) with 0 by div_lia.
  replace ((m - 1) mod 12) with (m - 1) by div_lia.
  rewrite Z.add_0_r. unfold yearDayOf, dayOfYear. f_equal. lia.
Qed.

(** [Date] carries the months beyond December into the year. *)
Lemma Date_month_norm y m d h mi s ns :
  0 ≤ h < 24 → 0 ≤ mi < 60 → 0 ≤ s < 60 → 0 ≤ ns < 1000000000 →
  Date y m d h mi s ns = Date (y + (m - 1) / 12) ((m - 1) mod 12 + 1) d h mi s ns.
Proof.
  intros Hh Hmi Hs Hns. rewrite !Date_in_range by done. cbv zeta.
  replace ((m - 1) mod 12 + 1 - 1) with ((m - 1) mod 12) by lia.
  replace ((m - 1) mod 12 / 12) with 0 by div_lia.
  rewrite Z.mod_mod by lia. by rewrite Z.add_0_r.
Qed.

Lemma Date_civil t y m d h mi s :
  0 ≤ nsec t < 1000000000 →
  civil t = (y, m, d) → clock t = (h, mi, s) →
  valid_date y m d ∧ Date y m d h mi s (nsec t) = t.
Proof.
  intros Hns. unfold civil.
  destruct (yearDay _) as [y0 k] eqn:Hy. destruct (monthDay y0 k) as [m0 d0] eqn:Hmd.
  intros [= <- <- <-] Hclk.
  apply yearDay_sound in Hy as [HD Hk].
  apply monthDay_sound in Hmd as [Hv Hyd]; [|done].
  apply clock_spec in Hclk as (Hh & Hmi & Hs & Hsod).
  split; [done|]. rewrite Date_day_number by (done || apply Hv).
  destruct t as [u ns]. cbn [unix nsec] in *. f_equal.
  rewrite <- Hyd, Hsod. pose proof (Z.div_mod u 86400 ltac:(lia)). lia.
Qed.

(** The date [months] calendar months after a date: the same day of the
    month when the month arrived at has it, and otherwise as many days
    into the following month as the day exceeds the month. *)
Lemma Date_months y m d months h mi s ns :
  valid_date y m d →
  0 ≤ h < 24 → 0 ≤ mi < 60 → 0 ≤ s < 60 → 0 ≤ ns < 1000000000 →
  let y' := y + (m - 1 + months) / 12 in
  let m' := (m - 1 + months) mod 12 + 1 in
  1 ≤ m' ≤ 12 ∧
  (d ≤ daysIn y' m' → civil (Date y (m + months) d h mi s ns) = (y', m', d)) ∧
  (daysIn y' m' < d →
   m' < 12 ∧ civil (Date y (m + months) d h mi s ns) = (y', m' + 1, d - daysIn y' m')).
Proof.
  intros [Hm Hd] Hh Hmi Hs Hns y' m'.
  assert (Hm' : 1 ≤ m' ≤ 12) by (subst m'; div_lia).
  assert (Hadd : Date y (m + months) d h mi s ns = Date y' m' d h mi s ns).
  { rewrite Date_month_norm by done. subst y' m'. do 3 f_equal; lia. }
  pose proof (daysInMonth_bounds (isLeap y) m) as Hb.
  pose proof (daysInMonth_bounds (isLeap y') m') as Hb'.
  unfold daysIn in *.
  split; [done|]. rewrite Hadd. split.
  - intros Hfits. apply civil_Date; try done. unfold valid_date, daysIn. lia.
  - intros Hover.
    assert (Hlt : m' < 12).
    { destruct (Z.eq_dec m' 12) as [He|]; [|lia].
      rewrite He in Hover. change (daysInMonth (isLeap y') 12) with 31 in Hover. lia. }
    split; [done|].
    pose proof (daysInMonth_bounds (isLeap y') (m' + 1)) as Hb''.
    replace (Date y' m' d h mi s ns)
      with (Date y' (m' + 1) (d - daysInMonth (isLeap y') m') h mi s ns).
    + apply civil_Date; try done. unfold valid_date, daysIn. lia.
    + rewrite !Date_day_number by (done || lia). do 2 f_equal.
      unfold yearDayOf.
      pose proof (month_overflow (isLeap y')) as Hall.
      apply (Forall_seqZ _ _ _ m') in Hall; [|lia]. cbv beta in Hall.
      rewrite (dayOfYear_shift _ m' d (daysInMonth (isLeap y') m' + 1)), Hall.
      rewrite (dayOfYear_shift _ (m' + 1) (d - daysInMonth (isLeap y') m') 1). lia.
Qed.

Lemma daysBefore_bounds :
  Forall (λ m, 0 ≤ daysBefore (m - 1) ≤ 334) (seqZ 1 12).
Proof. compute_done. Qed.

(** The wall clock reading of a date whose year is in range. *)
Lemma Date_bounded y month d h mi s ns :
  in_range y → - 2 ^ 32 ≤ month ≤ 2 ^ 32 → 1 ≤ d ≤ 31 →
  0 ≤ h < 24 → 0 ≤ mi < 60 → 0 ≤ s < 60 → 0 ≤ ns < 1000000000 →
  - 2 ^ 60 ≤ unix (Date y month d h mi s ns) < 2 ^ 60.
Proof.
  unfold in_range. intros Hy Hmonth Hd Hh Hmi Hs Hns.
  rewrite Date_month_norm by done.
  assert (Hq : - 2 ^ 29 ≤ (month - 1) / 12 ≤ 2 ^ 29) by div_lia.
  assert (Hm : 1 ≤ (month - 1) mod 12 + 1 ≤ 12) by div_lia.
  rewrite Date_day_number by done. cbn [unix].
  set (y' := y + (month - 1) / 12). set (m' := (month - 1) mod 12 + 1) in *.
  assert (Hy' : - 2 ^ 32 ≤ y' - 1 ≤ 2 ^ 32) by (subst y'; lia).
  unfold daysSinceYear1, yearDayOf, dayOfYear. cbv zeta.
  pose proof daysBefore_bounds as Hall.
  apply (Forall_seqZ _ _ _ m') in Hall; [|lia]. cbv beta in Hall.
  set (p := y' - 1) in *.
  assert (H4 : - 2 ^ 32 ≤ p / 4 ≤ 2 ^ 32) by div_lia.
  assert (H100 : - 2 ^ 32 ≤ p / 100 ≤ 2 ^ 32) by div_lia.
  assert (H400 : - 2 ^ 32 ≤ p / 400 ≤ 2 ^ 32) by div_lia.
  assert (Hleap : 0 ≤ (if isLeap y' && (2 <=? m' - 1) then 1 else 0) ≤ 1)
    by (destruct (isLeap y' && (2 <=? m' - 1)); lia).
  unfold unixEpochDay. lia.
Qed.

End Calendar.

(** *** Times in their location *)

Lemma wrap_int_small z : is_int z → wrap_int z = z.
Proof.
  unfold is_int, wrap_int. intros Hz. rewrite Z.mod_small; lia.
Qed.

Lemma FixedZone_coherent offset : coherent (FixedZone offset).
Proof. by intros sec sec' o st en [= <- <- <-] _. Qed.

Lemma FixedZone_settled offset reading :
  (- 86400 ≤ offset ≤ 86400)%Z → (- 2 ^ 60 ≤ reading < 2 ^ 60)%Z →
  settled (FixedZone offset) reading.
Proof. intros Ho Hr. unfold settled, FixedZone, alpha, omega. cbn. right. lia. Qed.

(** The time [Date] gives differs from the wall clock reading by an offset
    of the location. *)
Lemma Date_unix y m d h mi s ns l :
  loc (Date y m d h mi s ns l) = l ∧
  nsec (Date y m d h mi s ns l) = wall.nsec (wall.Date y m d h mi s ns) ∧
  ∃ sec, (unix (Date y m d h mi s ns l)
          = wall.unix (wall.Date y m d h mi s ns) - offsetAt l sec)%Z.
Proof.
  unfold Date. cbv zeta.
  set (w := wall.Date y m d h mi s ns).
  destruct (lookup l (wall.unix w)) as [[o st] en] eqn:Hl.
  assert (Ho : o = offsetAt l (wall.unix w)) by (unfold offsetAt; by rewrite Hl).
  split; [done|]. split; [done|]. cbn [unix].
  destruct (negb (o =? 0)%Z); [|exists (wall.unix w); by rewrite <- Ho].
  destruct ((wall.unix w - o <? st)%Z || (en <=? wall.unix w - o)%Z);
    [by eexists | exists (wall.unix w); by rewrite <- Ho].
Qed.

(** Where the zone of the reading is settled, the date and the clock of the
    time [Date] gives are the normalised arguments. *)
Lemma abs_Date y m d h mi s ns l :
  coherent l → settled l (wall.unix (wall.Date y m d h mi s ns)) →
  abs (Date y m d h mi s ns l) = wall.Date y m d h mi s ns.
Proof.
  unfold Date, settled, abs. cbv zeta.
  set (w := wall.Date y m d h mi s ns).
  destruct (lookup l (wall.unix w)) as [[o st] en] eqn:Hl.
  intros Hcoh Hset. cbn [unix nsec loc].
  destruct (Z.eqb_spec o 0) as [-> | Hne]; cbn [negb].
  - rewrite Z.sub_0_r. unfold offsetAt. rewrite Hl. cbn.
    destruct w as [u n]. cbn. f_equal. lia.
  - destruct Hset as [? | Hin]; [done|].
    assert (Hcond : (wall.unix w - o <? st)%Z || (en <=? wall.unix w - o)%Z = false).
    { apply orb_false_iff. split; [apply Z.ltb_ge | apply Z.leb_gt]; lia. }
    rewrite Hcond. unfold offsetAt.
    rewrite (Hcoh _ (wall.unix w - o)%Z _ _ _ Hl Hin). cbn.
    destruct w as [u n]. cbn. f_equal. lia.
Qed.

(** The date and the clock of a time are a date of the calendar and a clock
    in range. *)
Lemma civil_clock_range t y m d h mi s :
  (0 ≤ nsec t < 1000000000)%Z →
  civil t = (y, m, d) → clock t = (h, mi, s) →
  valid_date y m d ∧ (0 ≤ h < 24 ∧ 0 ≤ mi < 60 ∧ 0 ≤ s < 60)%Z ∧
  wall.Date y m d h mi s (nsec t) = abs t.
Proof.
  intros Hns Hciv Hclk. unfold civil, clock in *.
  destruct (Date_civil (abs t) y m d h mi s Hns Hciv Hclk) as [Hv Hd].
  apply clock_spec in Hclk as (Hh & Hmi & Hs & _).
  split; [exact Hv|]. split; [lia|]. exact Hd.
Qed.

(** [AddDate] where its additions do not wrap around. *)
Lemma AddDate_Date t years months days y m d h mi s :
  civil t = (y, m, d) → clock t = (h, mi, s) →
  is_int (y + years) → is_int (m + months) → is_int (d + days) →
  AddDate t years months days
  = Date (y + years) (m + months) (d + days) h mi s (nsec t) (loc t).
Proof.
  intros Hciv Hclk Hy Hm Hd. unfold AddDate. rewrite Hciv, Hclk.
  by rewrite !wrap_int_small.
Qed.

Lemma daysInMonth_31 leap m : (daysInMonth leap m ≤ 31)%Z.
Proof. pose proof (daysInMonth_bounds leap m). lia. Qed.

(** The date [months] calendar months after the date of a time, in the
    location of the time. *)
Lemma AddDate_months t months y m d h mi s :
  (0 ≤ nsec t < 1000000000)%Z →
  civil t = (y, m, d) → clock t = (h, mi, s) →
  in_range y → in_range months →
  coherent (loc t) →
  settled (loc t) (wall.unix (wall.Date y (m + months) d h mi s (nsec t))) →
  let expiry := AddDate t 0 months 0 in
  let y' := (y + (m - 1 + months) / 12)%Z in
  let m' := ((m - 1 + months) mod 12 + 1)%Z in
  loc expiry = loc t ∧ clock expiry = (h, mi, s) ∧ nsec expiry = nsec t ∧
  (d ≤ daysIn y' m' → civil expiry = (y', m', d))%Z ∧
  (daysIn y' m' < d → civil expiry = (y', m' + 1, d - daysIn y' m'))%Z.
Proof.
  intros Hns Hciv Hclk Hy Hmonths Hcoh Hset expiry y' m'.
  destruct (civil_clock_range t y m d h mi s Hns Hciv Hclk)
    as ([Hm Hd] & (Hh & Hmi & Hs) & _).
  pose proof (daysInMonth_31 (isLeap y) m) as Hd31. unfold daysIn in Hd.
  unfold in_range in *.
  assert (Hadd : expiry = Date y (m + months) d h mi s (nsec t) (loc t)).
  { unfold expiry.
    rewrite (AddDate_Date t 0 months 0 y m d h mi s Hciv Hclk);
      [by rewrite !Z.add_0_r | unfold is_int; lia..]. }
  destruct (Date_unix y (m + months) d h mi s (nsec t) (loc t)) as (Hloc & Hnsec & _).
  pose proof (abs_Date y (m + months) d h mi s (nsec t) (loc t) Hcoh Hset) as Habs.
  destruct (Date_clock y (m + months) d h mi s (nsec t) Hh Hmi Hs Hns) as [Hc Hn].
  destruct (Date_months y m d months h mi s (nsec t)) as (_ & Hfits & Hover);
    try done.
  rewrite Hadd. unfold civil, clock. rewrite Habs.
  split; [done|]. split; [done|]. split.
  { by rewrite Hnsec. }
  split; [done|]. intros Hlt. by apply Hover.
Qed.

(** In a location of fixed offset every reading in range is settled. *)
Lemma FixedZone_Date offset y month d h mi s ns :
  (- 86400 ≤ offset ≤ 86400)%Z →
  in_range y → (- 2 ^ 32 ≤ month ≤ 2 ^ 32)%Z → (1 ≤ d ≤ 31)%Z →
  (0 ≤ h < 24)%Z → (0 ≤ mi < 60)%Z → (0 ≤ s < 60)%Z → (0 ≤ ns < 1000000000)%Z →
  coherent (FixedZone offset) ∧
  settled (FixedZone offset) (wall.unix (wall.Date y month d h mi s ns)).
Proof.
  intros Ho Hy Hmonth Hd Hh Hmi Hs Hns. split; [apply FixedZone_coherent|].
  apply FixedZone_settled; [done|]. by apply Date_bounded.
Qed.

(** A time of 2024-01-31, in a location of fixed offset, plus one month is
    the same time of day on 2024-03-02 of that location. *)
Lemma AddDate_jan31_2024 t offset :
  loc t = FixedZone offset → (- 86400 ≤ offset ≤ 86400)%Z →
  civil t = (2024, 1, 31)%Z → (0 ≤ nsec t < 1000000000)%Z →
  civil (AddDate t 0 1 0) = (2024, 3, 2)%Z ∧
  clock (AddDate t 0 1 0) = clock t ∧
  nsec (AddDate t 0 1 0) = nsec t ∧
  loc (AddDate t 0 1 0) = loc t.
Proof.
  intros Hloc Ho Hciv Hns.
  destruct (clock t) as [[h mi] s] eqn:Hclk.
  destruct (civil_clock_range t 2024 1 31 h mi s Hns Hciv Hclk) as (_ & (Hh & Hmi & Hs) & _).
  destruct (FixedZone_Date offset 2024 (1 + 1) 31 h mi s (nsec t)) as [Hcoh Hset];
    try done; try (unfold in_range; lia).
  rewrite <- Hloc in Hcoh, Hset.
  destruct (AddDate_months t 1 2024 1 31 h mi s Hns Hciv Hclk) as (Hl & Hc & Hn & _ & Hover);
    try done; try (unfold in_range; lia).
  split; [|done]. apply Hover. vm_compute. reflexivity.
Qed.

Lemma AssignSubscription_success db id s customer pack now :
  by_id (subscriptions db) id = Some s →
  Subscription.CanTransitionTo s StatusActive = true →
  find_customer db (Subscription.CustomerID s) = Some customer →
  Customer.HasActiveSubscription (Subscription.CustomerID s) (subscriptions db) = false →
  find_pack db (Subscription.PackID s) = Some pack →
  SubscriptionHandler.AssignSubscription db (Some id) now
  = (SuccessResponse (DSubscription id (activated s pack now))
                     "Subscription assigned successfully",
     with_subscriptions (save (subscriptions db) id (activated s pack now)) db).
Proof.
  intros Hl Ht Hc Ha Hp. unfold SubscriptionHandler.AssignSubscription.
  by rewrite Hl, Ht, Hc, Ha, Hp.
Qed.

(** The pack of the subscription has been soft-deleted: the handler panics
    in [CalculateExpiry], before anything is saved. *)
Lemma AssignSubscription_deleted_pack db id s customer now :
  by_id (subscriptions db) id = Some s →
  Subscription.CanTransitionTo s StatusActive = true →
  find_customer db (Subscription.CustomerID s) = Some customer →
  Customer.HasActiveSubscription (Subscription.CustomerID s) (subscriptions db) = false →
  find_pack db (Subscription.PackID s) = None →
  SubscriptionHandler.AssignSubscription db (Some id) now = (Panicked, db).
Proof.
  intros Hl Ht Hc Ha Hp. unfold SubscriptionHandler.AssignSubscription.
  by rewrite Hl, Ht, Hc, Ha, Hp.
Qed.

(** C3 as stated does not hold: for a subscription assigned on 2024-01-31 and a pack
    of one month, [CalculateExpiry] gives 2024-03-02, not 2024-02-29. *)
Lemma CalculateExpiry_clamp_counterexample :
  civil t0 = (2024, 1, 31)%Z ∧
  Subscription.AssignedAt assigned_jan31 = Some t0 ∧
  SubscriptionPack.ValidityMonths one_month_pack = 1%Z ∧
  Subscription.CalculateExpiry assigned_jan31 (Some one_month_pack)
  = Some (Subscription.set_ExpiresAt (Some (Date 2024 3 2 0 0 0 0 UTC)) assigned_jan31) ∧
  civil (Date 2024 3 2 0 0 0 0 UTC) = (2024, 3, 2)%Z ∧
  civil (Date 2024 3 2 0 0 0 0 UTC) ≠ (2024, 2, 29)%Z.
Proof. repeat split; try (vm_compute; reflexivity). vm_compute. discriminate. Qed.

(** ** Logins and API keys *)

Example EncodeToString_sixteen :
  EncodeToString sixteen_bytes = "000102030405060708090a0b0c0d0eff".
Proof. reflexivity. Qed.

Section Logins.
Context `{Crypto}.

Lemma login_unknown_email kind db req now random :
  find_user_by_email_role db (LoginRequest.Email req) (login_role kind) = None →
  login kind db (Some req) now random = (invalid_credentials, db).
Proof.
  intros Hf. destruct kind; cbn [login login_role] in *;
    unfold UserHandler.AdminLogin, UserHandler.CustomerLogin, SDKHandler.Login;
    by rewrite Hf.
Qed.

Lemma login_wrong_password kind db req now random id user :
  find_user_by_email_role db (LoginRequest.Email req) (login_role kind) = Some (id, user) →
  User.CheckPassword user (LoginRequest.Password req) = false →
  login kind db (Some req) now random = (invalid_credentials, db).
Proof.
  intros Hf Hp. destruct kind; cbn [login login_role] in *;
    unfold UserHandler.AdminLogin, UserHandler.CustomerLogin, SDKHandler.Login;
    by rewrite Hf, Hp.
Qed.

Lemma no_user_no_role_match db email role :
  find_user_by_email db email = None → find_user_by_email_role db email role = None.
Proof.
  unfold find_user_by_email, find_user_by_email_role. rewrite !first_where_None.
  intros Hall k u Hl. by rewrite (Hall k u Hl).
Qed.

(** C9.  For each of the three logins (admin, customer, SDK): a run in which
    no user has the submitted email (none at all, or none with the role the
    login looks for) and a run in which the user exists but the submitted
    password does not match end with the same response, 401 with the error
    "Invalid credentials", and neither writes to the database. *)
Theorem login_failures_indistinguishable
  (kind : LoginKind)
  (db1 : DB) (req1 : LoginRequest.t) (now1 : Time) (random1 : option (list Byte.byte))
  (db2 : DB) (req2 : LoginRequest.t) (now2 : Time) (random2 : option (list Byte.byte))
  (id : N) (user : User.t)
  (Hunknown : find_user_by_email db1 (LoginRequest.Email req1) = None ∨
              find_user_by_email_role db1 (LoginRequest.Email req1) (login_role kind) = None)
  (Hknown : find_user_by_email_role db2 (LoginRequest.Email req2) (login_role kind)
            = Some (id, user))
  (Hmismatch : User.CheckPassword user (LoginRequest.Password req2) = false) :
  (login kind db1 (Some req1) now1 random1).1 = (login kind db2 (Some req2) now2 random2).1 ∧
  (login kind db1 (Some req1) now1 random1).1
  = ErrorResponse StatusUnauthorized "Invalid credentials" ∧
  (login kind db1 (Some req1) now1 random1).2 = db1 ∧
  (login kind db2 (Some req2) now2 random2).2 = db2.
Proof.
  assert (Hnone : find_user_by_email_role db1 (LoginRequest.Email req1) (login_role kind)
                  = None).
  { destruct Hunknown as [Hn|Hn]; [by apply no_user_no_role_match | done]. }
  rewrite (login_unknown_email kind db1 req1 now1 random1 Hnone).
  by rewrite (login_wrong_password kind db2 req2 now2 random2 id user Hknown Hmismatch).
Qed.

End Logins.

(** On the sample data: an unknown email and a mistyped password, at the SDK
    login. *)
Lemma login_failures_indistinguishable_witness :
  (@login demo_crypto SDKLoginKind sample_db (Some nobody_login) t0 None).1
  = (@login demo_crypto SDKLoginKind sample_db (Some ann_typo) t0 None).1.
Proof.
  apply (@login_failures_indistinguishable demo_crypto SDKLoginKind
           sample_db nobody_login t0 None sample_db ann_typo t0 None
           1%N (User.mk "ann@example.com" "bcrypt:secret" "customer" None));
    [left; vm_compute; reflexivity | vm_compute; reflexivity | vm_compute; reflexivity].
Defined.

Section APIKeys.
Context `{Crypto}.

Lemma save_user_Some tbl id u tbl' :
  save_user tbl id u = Some tbl' → tbl' = save tbl id u.
Proof.
  unfold save_user. case_match; [discriminate | by intros [= <-]].
Qed.

Lemma create_user_Some tbl u id tbl' :
  create_user tbl u = Some (id, tbl') →
  id = next_id tbl ∧ tbl' = mkTable (<[id := u]> (rows tbl)) (N.succ id).
Proof.
  unfold create_user, create. case_match; [discriminate | by intros [= <- <-]].
Qed.

Lemma HasAPIKey_true u :
  User.HasAPIKey u = true → ∃ k, User.APIKey u = Some k ∧ k ≠ EmptyString.
Proof.
  unfold User.HasAPIKey. destruct (User.APIKey u) as [k|]; [|discriminate].
  intros Hk. exists k. split; [done|]. apply negb_true_iff in Hk.
  by apply String.eqb_neq.
Qed.

(** What a successful SDK login has done. *)
Lemma SDKLogin_success db req random id key :
  issued_key (SDKHandler.Login db (Some req) random).1 = Some (id, key) →
  ∃ user,
    find_user_by_email_role db (LoginRequest.Email req) "customer" = Some (id, user) ∧
    User.CheckPassword user (LoginRequest.Password req) = true ∧
    ((User.HasAPIKey user = true ∧ User.APIKey user = Some key ∧
      (SDKHandler.Login db (Some req) random).2 = db) ∨
     (User.HasAPIKey user = false ∧
      ∃ bytes, random = Some bytes ∧ key = "sk-sdk-" +:+ EncodeToString bytes ∧
               (SDKHandler.Login db (Some req) random).2
               = with_users (save (users db) id (User.set_APIKey (Some key) user)) db)).
Proof.
  unfold SDKHandler.Login.
  destruct (find_user_by_email_role db _ _) as [[uid user]|] eqn:Hf; [|discriminate].
  destruct (User.CheckPassword user _) eqn:Hp; [|discriminate]. cbn [negb].
  destruct (User.HasAPIKey user) eqn:Hk; cbn [negb].
  - cbn. destruct (HasAPIKey_true _ Hk) as (k & Hu & _). rewrite Hu.
    intros [= <- <-]. exists user. split; [done|]. split; [done|]. by left.
  - destruct random as [bytes|]; [|discriminate]. cbn [User.GenerateAPIKey].
    destruct (save_user _ _ _) as [tbl|] eqn:Hs; [|discriminate].
    apply save_user_Some in Hs as ->. cbn.
    intros [= <- <-]. exists user. split; [done|]. split; [done|]. right.
    split; [done|]. by exists bytes.
Qed.

(** C8.  The SDK login issues the API key once per user.  After a successful
    login of a user the key it answered is the one stored for the user, and
    every later successful SDK login of the same user, with no other write
    to the user in between, answers that same key and leaves the database
    as it is.  A key is generated only for a user who has none: when the
    user already has a key the login answers the stored key and writes
    nothing, otherwise it stores the key made of "sk-sdk-" and the hex form
    of the random bytes. *)
Theorem sdk_login_key_idempotent
  (db : DB) (req : LoginRequest.t) (random : option (list Byte.byte))
  (id : N) (key : string)
  (Hfirst : issued_key (SDKHandler.Login db (Some req) random).1 = Some (id, key)) :
  let db1 := (SDKHandler.Login db (Some req) random).2 in
  (∀ req' random' key',
      issued_key (SDKHandler.Login db1 (Some req') random').1 = Some (id, key') →
      key' = key ∧ (SDKHandler.Login db1 (Some req') random').2 = db1) ∧
  (∃ user1, by_id (users db1) id = Some user1 ∧ User.APIKey user1 = Some key ∧
            User.HasAPIKey user1 = true) ∧
  (∀ user, by_id (users db) id = Some user → User.HasAPIKey user = true →
           User.APIKey user = Some key ∧ db1 = db) ∧
  (∀ user, by_id (users db) id = Some user → User.HasAPIKey user = false →
           ∃ bytes, random = Some bytes ∧
                    key = "sk-sdk-" +:+ EncodeToString bytes ∧
                    db1 = with_users
                            (save (users db) id (User.set_APIKey (Some key) user)) db).
Proof.
  intros db1. destruct (SDKLogin_success _ _ _ _ _ Hfirst) as (user & Hf & Hp & Hcase).
  pose proof Hf as Hrow. apply first_where_Some in Hrow as [Hrow _].
  assert (Hstored : ∃ user1, by_id (users db1) id = Some user1 ∧
                             User.APIKey user1 = Some key ∧
                             User.HasAPIKey user1 = true).
  { destruct Hcase as [(Hk & Hu & Hdb) | (Hk & bytes & -> & -> & Hdb)];
      subst db1; rewrite Hdb.
    - by exists user.
    - eexists. split; [apply lookup_insert_eq | done]. }
  split; [|split; [exact Hstored|split]].
  - intros req' random' key' Hsecond.
    destruct Hstored as (user1 & Hl1 & Hu1 & Hk1).
    destruct (SDKLogin_success _ _ _ _ _ Hsecond) as (user' & Hf' & _ & Hcase').
    apply first_where_Some in Hf' as [Hrow' _].
    unfold by_id in Hl1. rewrite Hl1 in Hrow'. injection Hrow' as <-.
    destruct Hcase' as [(_ & Hu' & Hdb') | (Hk' & _)]; [|congruence].
    split; [congruence | done].
  - intros u Hl Hk. unfold by_id in Hl. rewrite Hrow in Hl. injection Hl as <-.
    destruct Hcase as [(_ & Hu & Hdb) | (Hk' & _)]; [done | congruence].
  - intros u Hl Hk. unfold by_id in Hl. rewrite Hrow in Hl. injection Hl as <-.
    destruct Hcase as [(Hk' & _) | (_ & bytes & -> & -> & Hdb)]; [congruence|].
    by exists bytes.
Qed.

End APIKeys.

(** On the sample data: the first login of Ann generates the key, the second
    answers it again. *)
Lemma sdk_login_key_idempotent_witness :
  let first := @SDKHandler.Login demo_crypto sample_db (Some ann_login) (Some sixteen_bytes) in
  let second := @SDKHandler.Login demo_crypto first.2 (Some ann_login) None in
  issued_key first.1 = Some (1%N, "sk-sdk-000102030405060708090a0b0c0d0eff") ∧
  issued_key second.1 = Some (1%N, "sk-sdk-000102030405060708090a0b0c0d0eff") ∧
  second.2 = first.2.
Proof.
  intros first second.
  assert (Hfirst : issued_key first.1
                   = Some (1%N, "sk-sdk-000102030405060708090a0b0c0d0eff"))
    by (vm_compute; reflexivity).
  assert (Hsecond : issued_key second.1
                    = Some (1%N, "sk-sdk-000102030405060708090a0b0c0d0eff"))
    by (vm_compute; reflexivity).
  split; [exact Hfirst|]. split; [exact Hsecond|].
  pose proof (@sdk_login_key_idempotent demo_crypto sample_db ann_login
                (Some sixteen_bytes) 1%N _ Hfirst) as (Hagain & _).
  by destruct (Hagain ann_login None _ Hsecond) as [_ Hdb].
Defined.

(** C7 as stated does not hold: a customer who has just signed up, and never logged
    in through the SDK, is stored with an API key. *)
Lemma signup_has_api_key_counterexample :
  let signup := @UserHandler.CustomerSignup demo_crypto sample_db (Some bob_signup)
                                            (Some sixteen_bytes) t0 in
  logged_in signup.1 = Some 2%N ∧
  by_id (users sample_db) 2%N = None ∧
  User.APIKey <$> by_id (users signup.2) 2%N
  = Some (Some "sk-sdk-000102030405060708090a0b0c0d0eff") ∧
  User.HasAPIKey <$> by_id (users signup.2) 2%N = Some true.
Proof. repeat split; vm_compute; reflexivity. Qed.

Section KeyAtCreation.
Context `{Crypto}.

Lemma CustomerSignup_success db req random now id :
  logged_in (UserHandler.CustomerSignup db (Some req) random now).1 = Some id →
  ∃ bytes hashedPassword,
    random = Some bytes ∧
    id = next_id (users db) ∧
    by_id (users (UserHandler.CustomerSignup db (Some req) random now).2) id
    = Some (User.mk (SignupRequest.Email req) hashedPassword "customer"
                    (Some ("sk-sdk-" +:+ EncodeToString bytes))).
Proof.
  unfold UserHandler.CustomerSignup, User.HashPassword.
  destruct (find_user_by_email db _); [discriminate|].
  cbn [User.Password]. destruct (bcrypt_GenerateFromPassword _) as [h|]; [|discriminate].
  destruct random as [bytes|]; [|discriminate]. cbn [User.GenerateAPIKey].
  destruct (create_user _ _) as [[uid utbl]|] eqn:Hcu; [|discriminate].
  apply create_user_Some in Hcu as [-> ->].
  destruct (create_customer _ _) as [[cid ctbl]|]; [|discriminate].
  destruct (UserHandler.generateJWT _ _ _); [|discriminate].
  intros Hid. cbn in Hid. injection Hid as <-.
  exists bytes, h. split; [done|]. split; [done|].
  unfold by_id. cbn [snd users with_users with_customers rows User.set_APIKey
                     User.set_Password User.Email User.Password User.Role User.APIKey].
  by rewrite lookup_insert_eq.
Qed.

Lemma CreateCustomer_success db req uid :
  created_customer_user (CustomerHandler.CreateCustomer db (Some req)).1 = Some uid →
  ∃ hashedPassword,
    uid = next_id (users db) ∧
    by_id (users (CustomerHandler.CreateCustomer db (Some req)).2) uid
    = Some (User.mk (CreateCustomerRequest.Email req) hashedPassword "customer" None).
Proof.
  unfold CustomerHandler.CreateCustomer, User.HashPassword.
  destruct (find_user_by_email db _); [discriminate|].
  cbn [User.Password]. destruct (bcrypt_GenerateFromPassword _) as [h|]; [|discriminate].
  destruct (create_user _ _) as [[id utbl]|] eqn:Hcu; [|discriminate].
  apply create_user_Some in Hcu as [-> ->].
  destruct (create_customer _ _) as [[cid ctbl]|]; [|discriminate].
  intros Hid. cbn in Hid. injection Hid as <-.
  exists h. split; [done|].
  unfold by_id. cbn [snd users with_users with_customers rows User.set_APIKey
                     User.set_Password User.Email User.Password User.Role User.APIKey].
  by rewrite lookup_insert_eq.
Qed.

Lemma Write_users db db' : Write db db' → users db' = users db.
Proof. by destruct 1. Qed.

Lemma jwt_login_keeps_db kind db req now random :
  kind ≠ SDKLoginKind → (login kind db req now random).2 = db.
Proof.
  destruct kind; [| |done]; intros _; cbn [login];
    unfold UserHandler.AdminLogin, UserHandler.CustomerLogin; by repeat case_match.
Qed.

(** C7, amended.  A user created through the customer signup is stored with
    an API key from the start: the signup generates it ("sk-sdk-" and the
    hex form of the random bytes) before it creates the user, and only
    withholds it from its response.  A user created by the admin's
    customer creation is stored without an API key; no lifecycle operation
    and no admin or customer (JWT) login writes to the users, and the first
    successful SDK login of such a user is what stores the key. *)
Theorem api_key_at_creation :
  (∀ db req random now id,
      logged_in (UserHandler.CustomerSignup db (Some req) random now).1 = Some id →
      ∃ user bytes,
        by_id (users (UserHandler.CustomerSignup db (Some req) random now).2) id
        = Some user ∧
        random = Some bytes ∧
        User.APIKey user = Some ("sk-sdk-" +:+ EncodeToString bytes) ∧
        User.HasAPIKey user = true) ∧
  (∀ db req uid,
      created_customer_user (CustomerHandler.CreateCustomer db (Some req)).1 = Some uid →
      ∃ user,
        by_id (users (CustomerHandler.CreateCustomer db (Some req)).2) uid = Some user ∧
        User.APIKey user = None ∧ User.HasAPIKey user = false) ∧
  (∀ op db, users (run_op op db).2 = users db) ∧
  (∀ kind db req now random,
      kind ≠ SDKLoginKind → (login kind db req now random).2 = db) ∧
  (∀ db req random id key user,
      issued_key (SDKHandler.Login db (Some req) random).1 = Some (id, key) →
      by_id (users db) id = Some user →
      User.HasAPIKey user = false →
      by_id (users (SDKHandler.Login db (Some req) random).2) id
      = Some (User.set_APIKey (Some key) user)).
Proof.
  split; [|split; [|split; [|split]]].
  - intros db req random now id Hok.
    destruct (CustomerSignup_success _ _ _ _ _ Hok) as (bytes & h & -> & -> & Hl).
    eexists _, bytes. split; [exact Hl|]. done.
  - intros db req uid Hok.
    destruct (CreateCustomer_success _ _ _ Hok) as (h & -> & Hl).
    eexists. split; [exact Hl|]. done.
  - intros op db. apply Write_users, run_op_Write.
  - apply jwt_login_keeps_db.
  - intros db req random id key user Hok Hl Hk.
    destruct (SDKLogin_success _ _ _ _ _ Hok) as (user' & Hf & _ & Hcase).
    apply first_where_Some in Hf as [Hrow _].
    unfold by_id in Hl. rewrite Hrow in Hl. injection Hl as ->.
    destruct Hcase as [(Hk' & _) | (_ & bytes & _ & _ & Hdb)]; [congruence|].
    rewrite Hdb. unfold by_id. cbn [users with_users save rows].
    by rewrite lookup_insert_eq.
Qed.

End KeyAtCreation.

(** On the sample data: Carol, created by the admin, has no key until her
    first SDK login stores one. *)
Lemma api_key_at_creation_witness :
  let created := @CustomerHandler.CreateCustomer demo_crypto sample_db (Some carol_create) in
  let carol := LoginRequest.mk "carol@example.com" "s3cret!" in
  let first := @SDKHandler.Login demo_crypto created.2 (Some carol) (Some sixteen_bytes) in
  (∃ user, by_id (users created.2) 2%N = Some user ∧ User.APIKey user = None ∧
           User.HasAPIKey user = false) ∧
  User.APIKey <$> by_id (users first.2) 2%N
  = Some (Some "sk-sdk-000102030405060708090a0b0c0d0eff").
Proof.
  intros created carol first.
  pose proof (@api_key_at_creation demo_crypto) as (_ & Hadmin & _ & _ & Hsdk).
  split.
  - apply (Hadmin sample_db carol_create 2%N). vm_compute. reflexivity.
  - unfold first.
    rewrite (Hsdk created.2 carol (Some sixteen_bytes) 2%N
               "sk-sdk-000102030405060708090a0b0c0d0eff"
               (User.mk "carol@example.com" "bcrypt:s3cret!" "customer" None));
      vm_compute; reflexivity.
Defined.

(** C3, amended.  A successful assign stores the subscription with the
    status [active], [AssignedAt = now] and
    [ExpiresAt = now.AddDate(0, pack.ValidityMonths, 0)], every other column
    as it was read.  [AddDate] works on the date and the clock that the
    time has in its own location: it keeps the location and the time of
    day and moves the date by calendar months without clamping, so that
    the expiry falls on the same day of the month, [ValidityMonths] months
    later, when that month has such a day, and otherwise as many days into
    the following month as the day exceeds the length of that month.  This
    holds for years and numbers of months of a magnitude below [2 ^ 31],
    where the zone of the new wall clock reading is settled; it is settled
    for every reading in a location of fixed offset, UTC among them.  For
    every subscription assigned on 2024-01-31 of such a location and a
    pack of one month [CalculateExpiry] gives the same time of day on
    2024-03-02 of that location. *)
Theorem assign_expiry_spec :
  (∀ db id s customer pack now,
      by_id (subscriptions db) id = Some s →
      Subscription.CanTransitionTo s StatusActive = true →
      find_customer db (Subscription.CustomerID s) = Some customer →
      Customer.HasActiveSubscription (Subscription.CustomerID s) (subscriptions db) = false →
      find_pack db (Subscription.PackID s) = Some pack →
      SubscriptionHandler.AssignSubscription db (Some id) now
      = (SuccessResponse (DSubscription id (activated s pack now))
                         "Subscription assigned successfully",
         with_subscriptions (save (subscriptions db) id (activated s pack now)) db)) ∧
  (∀ s assignedAt pack,
      Subscription.AssignedAt s = Some assignedAt →
      Subscription.CalculateExpiry s (Some pack)
      = Some (Subscription.set_ExpiresAt
                (Some (AddDate assignedAt 0 (SubscriptionPack.ValidityMonths pack) 0)) s)) ∧
  (∀ assignedAt months y m d h mi s,
      (0 ≤ nsec assignedAt < 1000000000)%Z →
      civil assignedAt = (y, m, d) → clock assignedAt = (h, mi, s) →
      in_range y → in_range months →
      coherent (loc assignedAt) →
      settled (loc assignedAt)
              (wall.unix (wall.Date y (m + months) d h mi s (nsec assignedAt))) →
      let expiresAt := AddDate assignedAt 0 months 0 in
      let y' := (y + (m - 1 + months) / 12)%Z in
      let m' := ((m - 1 + months) mod 12 + 1)%Z in
      loc expiresAt = loc assignedAt ∧
      clock expiresAt = clock assignedAt ∧
      nsec expiresAt = nsec assignedAt ∧
      (d ≤ daysIn y' m' → civil expiresAt = (y', m', d))%Z ∧
      (daysIn y' m' < d → civil expiresAt = (y', m' + 1, d - daysIn y' m'))%Z) ∧
  (∀ offset y month d h mi s ns,
      (- 86400 ≤ offset ≤ 86400)%Z →
      in_range y → (- 2 ^ 32 ≤ month ≤ 2 ^ 32)%Z → (1 ≤ d ≤ 31)%Z →
      (0 ≤ h < 24)%Z → (0 ≤ mi < 60)%Z → (0 ≤ s < 60)%Z → (0 ≤ ns < 1000000000)%Z →
      coherent (FixedZone offset) ∧
      settled (FixedZone offset) (wall.unix (wall.Date y month d h mi s ns))) ∧
  (∀ s assignedAt pack offset,
      Subscription.AssignedAt s = Some assignedAt →
      loc assignedAt = FixedZone offset → (- 86400 ≤ offset ≤ 86400)%Z →
      civil assignedAt = (2024, 1, 31)%Z →
      (0 ≤ nsec assignedAt < 1000000000)%Z →
      SubscriptionPack.ValidityMonths pack = 1%Z →
      ∃ expiresAt,
        Subscription.ExpiresAt <$> Subscription.CalculateExpiry s (Some pack)
        = Some (Some expiresAt) ∧
        civil expiresAt = (2024, 3, 2)%Z ∧
        clock expiresAt = clock assignedAt ∧
        nsec expiresAt = nsec assignedAt ∧
        loc expiresAt = loc assignedAt).
Proof.
  split; [exact AssignSubscription_success|].
  assert (Hcalc : ∀ s assignedAt pack,
             Subscription.AssignedAt s = Some assignedAt →
             Subscription.CalculateExpiry s (Some pack)
             = Some (Subscription.set_ExpiresAt
                       (Some (AddDate assignedAt 0
                                (SubscriptionPack.ValidityMonths pack) 0)) s)).
  { intros s a pack Ha. unfold Subscription.CalculateExpiry. by rewrite Ha. }
  split; [exact Hcalc|]. split; [|split].
  - intros a months y m d h mi s Hns Hciv Hclk Hy Hmonths Hcoh Hset expiresAt y' m'.
    destruct (AddDate_months a months y m d h mi s Hns Hciv Hclk Hy Hmonths Hcoh Hset)
      as (Hloc & Hc & Hn & Hfits & Hover).
    split; [done|]. split; [by rewrite Hclk|]. by repeat split.
  - exact FixedZone_Date.
  - intros s a pack offset Ha Hloc Ho Hciv Hns Hvm. rewrite (Hcalc s a pack Ha), Hvm.
    exists (AddDate a 0 1 0). split; [done|].
    by apply (AddDate_jan31_2024 a offset).
Qed.

(** At 22:30:15 on 2024-01-31, five hours west of UTC, one month. *)
Lemma assign_expiry_spec_witness :
  let assignedAt := Date 2024 1 31 22 30 15 0 (FixedZone (-18000)) in
  ∃ expiresAt,
    Subscription.ExpiresAt <$>
      Subscription.CalculateExpiry
        (Subscription.set_AssignedAt (Some assignedAt) assigned_jan31)
        (Some one_month_pack)
    = Some (Some expiresAt) ∧
    civil expiresAt = (2024, 3, 2)%Z ∧
    clock expiresAt = clock assignedAt ∧
    nsec expiresAt = nsec assignedAt ∧
    loc expiresAt = loc assignedAt.
Proof.
  intros assignedAt.
  pose proof assign_expiry_spec as (_ & _ & _ & _ & Hjan).
  apply (Hjan (Subscription.set_AssignedAt (Some assignedAt) assigned_jan31)
              assignedAt one_month_pack (-18000)%Z);
    [reflexivity | | lia | | | reflexivity].
  - vm_compute. reflexivity.
  - vm_compute. reflexivity.
  - vm_compute. split; [intros Hcmp; discriminate Hcmp | reflexivity].
Defined.


(** * Further properties *)

(** ** Approval and activation *)

Lemma CanTransitionTo_approved s :
  Subscription.CanTransitionTo s StatusApproved = true ↔
  Subscription.Status s = StatusRequested.
Proof.
  destruct s as [cid pid st rq ap asg ex de]. rewrite CanTransitionTo_iff_table.
  cbn. split.
  - intros Hin. repeat (destruct Hin as [Hin|Hin]; [by inversion Hin|]). done.
  - intros ->. by left.
Qed.

Lemma CanTransitionTo_active s :
  Subscription.CanTransitionTo s StatusActive = true ↔
  Subscription.Status s = StatusApproved ∨ Subscription.Status s = StatusInactive.
Proof.
  destruct s as [cid pid st rq ap asg ex de]. rewrite CanTransitionTo_iff_table.
  cbn. split.
  - intros Hin.
    repeat (destruct Hin as [Hin|Hin]; [inversion Hin; subst; (by left) || (by right)|]).
    done.
  - intros [-> | ->]; tauto.
Qed.

(** X1.  The approval of a subscription succeeds exactly when the subscription
    exists and its status is [requested]: it then stores the status
    [approved] and [ApprovedAt = now] and leaves every other column as read.
    An unknown id is answered 404 and any other status 400, without a write;
    in particular a second approval of the same subscription is refused. *)
Theorem ApproveSubscription_spec (db : DB) (id : N) (now : Time) :
  (by_id (subscriptions db) id = None →
   SubscriptionHandler.ApproveSubscription db (Some id) now
   = (ErrorResponse StatusNotFound "Subscription not found", db)) ∧
  (∀ s, by_id (subscriptions db) id = Some s →
        Subscription.Status s ≠ StatusRequested →
        SubscriptionHandler.ApproveSubscription db (Some id) now
        = (ErrorResponse StatusBadRequest
             "Subscription cannot be approved in current status", db)) ∧
  (∀ s, by_id (subscriptions db) id = Some s →
        Subscription.Status s = StatusRequested →
        SubscriptionHandler.ApproveSubscription db (Some id) now
        = (SuccessResponse (DSubscription id (approved s now))
                           "Subscription approved successfully",
           with_subscriptions (save (subscriptions db) id (approved s now)) db) ∧
        ∀ later,
          SubscriptionHandler.ApproveSubscription
            (SubscriptionHandler.ApproveSubscription db (Some id) now).2 (Some id) later
          = (ErrorResponse StatusBadRequest
               "Subscription cannot be approved in current status",
             (SubscriptionHandler.ApproveSubscription db (Some id) now).2)).
Proof.
  assert (Hrefuse : ∀ db' s,
             by_id (subscriptions db') id = Some s →
             Subscription.Status s ≠ StatusRequested →
             ∀ t, SubscriptionHandler.ApproveSubscription db' (Some id) t
                  = (ErrorResponse StatusBadRequest
                       "Subscription cannot be approved in current status", db')).
  { intros db' s Hl Hs t. unfold SubscriptionHandler.ApproveSubscription. rewrite Hl.
    destruct (Subscription.CanTransitionTo s StatusApproved) eqn:Hc; [|done].
    by apply CanTransitionTo_approved in Hc. }
  split; [|split].
  - intros Hl. unfold SubscriptionHandler.ApproveSubscription. by rewrite Hl.
  - intros s Hl Hs. by apply (Hrefuse db s).
  - intros s Hl Hs.
    assert (Hok : SubscriptionHandler.ApproveSubscription db (Some id) now
                  = (SuccessResponse (DSubscription id (approved s now))
                                     "Subscription approved successfully",
                     with_subscriptions
                       (save (subscriptions db) id (approved s now)) db)).
    { unfold SubscriptionHandler.ApproveSubscription. rewrite Hl.
      by rewrite (proj2 (CanTransitionTo_approved s) Hs). }
    split; [exact Hok|]. intros later. rewrite Hok. cbn [snd].
    apply (Hrefuse _ (approved s now)); [|done].
    unfold by_id. cbn. by rewrite lookup_insert_eq.
Qed.

Lemma ApproveSubscription_spec_witness :
  SubscriptionHandler.ApproveSubscription
    (run [OpRequest (Some 1%N) (Some basic) t0] sample_db) (Some 1%N) new_year_2025
  = (SuccessResponse (DSubscription 1%N (approved (requested 1%N 1%N t0) new_year_2025))
                     "Subscription approved successfully",
     with_subscriptions
       (save (subscriptions (run [OpRequest (Some 1%N) (Some basic) t0] sample_db)) 1%N
             (approved (requested 1%N 1%N t0) new_year_2025))
       (run [OpRequest (Some 1%N) (Some basic) t0] sample_db)).
Proof.
  apply (ApproveSubscription_spec
           (run [OpRequest (Some 1%N) (Some basic) t0] sample_db) 1%N new_year_2025);
    vm_compute; reflexivity.
Defined.

(** X2.  The activation of a subscription is admitted exactly from the
    statuses [approved] and [inactive]; from any other status, [active]
    included, it is answered 400 before the customer is looked at.  A
    re-activation of an [inactive] subscription writes [AssignedAt] and
    [ExpiresAt] anew and keeps the [ApprovedAt] and [DeactivatedAt] of the
    row: the time of the earlier deactivation stays on the active row. *)
Theorem AssignSubscription_admission (db : DB) (id : N) (s : Subscription.t) (now : Time)
  (Hrow : by_id (subscriptions db) id = Some s) :
  (Subscription.Status s ≠ StatusApproved → Subscription.Status s ≠ StatusInactive →
   SubscriptionHandler.AssignSubscription db (Some id) now
   = (ErrorResponse StatusBadRequest
        "Subscription cannot be assigned in current status", db)) ∧
  (Subscription.Status s = StatusApproved ∨ Subscription.Status s = StatusInactive →
   find_customer db (Subscription.CustomerID s) = None →
   SubscriptionHandler.AssignSubscription db (Some id) now
   = (ErrorResponse StatusNotFound "Customer not found", db)) ∧
  (∀ customer pack,
      Subscription.Status s = StatusApproved ∨ Subscription.Status s = StatusInactive →
      find_customer db (Subscription.CustomerID s) = Some customer →
      Customer.HasActiveSubscription (Subscription.CustomerID s) (subscriptions db) = false →
      find_pack db (Subscription.PackID s) = Some pack →
      SubscriptionHandler.AssignSubscription db (Some id) now
      = (SuccessResponse (DSubscription id (activated s pack now))
                         "Subscription assigned successfully",
         with_subscriptions (save (subscriptions db) id (activated s pack now)) db) ∧
      Subscription.DeactivatedAt (activated s pack now) = Subscription.DeactivatedAt s ∧
      Subscription.ApprovedAt (activated s pack now) = Subscription.ApprovedAt s ∧
      Subscription.AssignedAt (activated s pack now) = Some now).
Proof.
  split; [|split].
  - intros H1 H2. unfold SubscriptionHandler.AssignSubscription. rewrite Hrow.
    destruct (Subscription.CanTransitionTo s StatusActive) eqn:Hc; [|done].
    apply CanTransitionTo_active in Hc. tauto.
  - intros Hs Hc. apply CanTransitionTo_active in Hs.
    unfold SubscriptionHandler.AssignSubscription. by rewrite Hrow, Hs, Hc.
  - intros customer pack Hs Hc Ha Hp. apply CanTransitionTo_active in Hs.
    split; [|done]. by apply (AssignSubscription_success db id s customer pack).
Qed.

(** Subscription 1 of the sample data is active: its activation is refused
    with 400, not with the conflict. *)
Lemma AssignSubscription_admission_witness :
  SubscriptionHandler.AssignSubscription sample_active_db (Some 1%N) new_year_2025
  = (ErrorResponse StatusBadRequest
       "Subscription cannot be assigned in current status", sample_active_db).
Proof.
  apply (AssignSubscription_admission sample_active_db 1%N
           (Subscription.mk 1%N 1%N StatusActive t0 (Some t0) (Some t0)
                            (Some (Date 2024 3 2 0 0 0 0 UTC)) None) new_year_2025);
    [vm_compute; reflexivity | discriminate | discriminate].
Defined.

(** ** Deletion *)

(** X3.  The deletion of a subscription looks at no status: whatever the
    status of the row, it removes exactly that row and leaves every other
    row, the key sequence and the other tables as they are.  Afterwards
    the id is unknown to every handler that takes one (404), also to a
    second deletion.  An unknown id is answered 404 without a write. *)
Theorem DeleteSubscription_spec (db : DB) (id : N) :
  (by_id (subscriptions db) id = None →
   SubscriptionHandler.DeleteSubscription db (Some id)
   = (ErrorResponse StatusNotFound "Subscription not found", db)) ∧
  (is_Some (by_id (subscriptions db) id) →
   let db' := (SubscriptionHandler.DeleteSubscription db (Some id)).2 in
   (SubscriptionHandler.DeleteSubscription db (Some id)).1
   = SuccessResponse (DMessage "Subscription deleted successfully") EmptyString ∧
   by_id (subscriptions db') id = None ∧
   (∀ j, j ≠ id → by_id (subscriptions db') j = by_id (subscriptions db) j) ∧
   next_id (subscriptions db') = next_id (subscriptions db) ∧
   users db' = users db ∧ customers db' = customers db ∧
   subscription_packs db' = subscription_packs db ∧
   SubscriptionHandler.DeleteSubscription db' (Some id)
   = (ErrorResponse StatusNotFound "Subscription not found", db') ∧
   ∀ now,
     SubscriptionHandler.ApproveSubscription db' (Some id) now
     = (ErrorResponse StatusNotFound "Subscription not found", db') ∧
     SubscriptionHandler.AssignSubscription db' (Some id) now
     = (ErrorResponse StatusNotFound "Subscription not found", db') ∧
     SubscriptionHandler.UnassignSubscription db' (Some id) now
     = (ErrorResponse StatusNotFound "Subscription not found", db')).
Proof.
  split.
  - intros Hl. unfold SubscriptionHandler.DeleteSubscription. by rewrite Hl.
  - intros [s Hl] db'.
    assert (Hdb : db' = with_subscriptions (hard_delete (subscriptions db) id) db).
    { subst db'. unfold SubscriptionHandler.DeleteSubscription. by rewrite Hl. }
    assert (Hgone : by_id (subscriptions db') id = None).
    { rewrite Hdb. unfold by_id. cbn. apply lookup_delete_eq. }
    split; [unfold SubscriptionHandler.DeleteSubscription; by rewrite Hl|].
    split; [exact Hgone|]. split.
    { intros j Hj. rewrite Hdb. unfold by_id. cbn. by apply lookup_delete_ne. }
    rewrite Hdb in *. repeat (split; [done|]). split.
    + unfold SubscriptionHandler.DeleteSubscription. by rewrite Hgone.
    + intros now.
      unfold SubscriptionHandler.ApproveSubscription,
        SubscriptionHandler.AssignSubscription,
        SubscriptionHandler.UnassignSubscription.
      by rewrite Hgone.
Qed.

(** The active subscription 1 of the sample data is deleted. *)
Lemma DeleteSubscription_spec_witness :
  by_id (subscriptions
           (SubscriptionHandler.DeleteSubscription sample_active_db (Some 1%N)).2) 1%N
  = None.
Proof.
  apply (DeleteSubscription_spec sample_active_db 1%N). vm_compute. by eexists.
Defined.

(** ** Shape of the rows the handlers store *)

Lemma Write_row_shape db db' :
  Write db db' → lifecycle_shape db → lifecycle_shape db'.
Proof.
  destruct 1 as [db | db cid pid now Hno | db id s now Hl Hc
                 | db id s pack now Hl Hc Hno Hp | db id s now Hl Hs | db id s Hl];
    intros Hshape; [done|..]; intros i r; cbn.
  - rewrite lookup_insert_Some. intros [[_ <-]|[_ Hi]]; [|by eapply Hshape].
    left. done.
  - rewrite lookup_insert_Some. intros [[_ <-]|[_ Hi]]; [|by eapply Hshape].
    apply CanTransitionTo_approved in Hc.
    destruct (Hshape _ _ Hl) as [H1|[H1|[H1|H1]]];
      destruct H1 as (Hst & H1); rewrite Hst in Hc; try discriminate.
    destruct H1 as (? & ? & ? & ?). right. left. cbn. eauto 10.
  - rewrite lookup_insert_Some. intros [[_ <-]|[_ Hi]]; [|by eapply Hshape].
    apply CanTransitionTo_active in Hc.
    destruct (Hshape _ _ Hl) as [H1|[H1|[H1|H1]]];
      destruct H1 as (Hst & H1); rewrite Hst in Hc;
      destruct Hc as [Hc|Hc]; try discriminate;
      right; right; left; cbn; intuition eauto.
  - rewrite lookup_insert_Some. intros [[_ <-]|[_ Hi]]; [|by eapply Hshape].
    destruct (Hshape _ _ Hl) as [H1|[H1|[H1|H1]]];
      destruct H1 as (Hst & H1); rewrite Hst in Hs; try discriminate.
    right; right; right. cbn. intuition eauto.
  - rewrite lookup_delete_Some. intros [_ Hi]. by eapply Hshape.
Qed.

(** X4.  In a table filled by the lifecycle handlers every row has one of the
    four statuses [requested], [approved], [active], [inactive], with the
    timestamps that go with it: none but [RequestedAt] on a requested row,
    [ApprovedAt] alone on an approved one, [ApprovedAt], [AssignedAt] and
    [ExpiresAt] on an active one, and all of them on an inactive one.  The
    handlers keep this along any sequence of operations, and it holds of
    the empty table; so [inactive] is only ever reached from [active],
    although the transition table would admit it from [requested] and
    [approved]. *)
Theorem lifecycle_shape_invariant (db db' : DB)
  (Hsteps : Steps db db') (Hshape : lifecycle_shape db) :
  lifecycle_shape db' ∧
  (∀ i s, rows (subscriptions db') !! i = Some s →
          Subscription.Status s = StatusInactive →
          is_Some (Subscription.AssignedAt s) ∧ is_Some (Subscription.DeactivatedAt s)) ∧
  (∀ i s, rows (subscriptions db') !! i = Some s →
          Subscription.Status s = StatusActive →
          is_Some (Subscription.ExpiresAt s)).
Proof.
  assert (Hs' : lifecycle_shape db').
  { induction Hsteps as [db | db db1 db' Hstep _ IH]; [done|].
    apply IH. destruct Hstep as [db op].
    apply (Write_row_shape db); [apply run_op_Write | done]. }
  split; [exact Hs'|]. split.
  - intros i s Hl Hst.
    destruct (Hs' _ _ Hl) as [H1|[H1|[H1|H1]]];
      destruct H1 as (Hst' & H1); rewrite Hst in Hst'; try discriminate. tauto.
  - intros i s Hl Hst.
    destruct (Hs' _ _ Hl) as [H1|[H1|[H1|H1]]];
      destruct H1 as (Hst' & H1); rewrite Hst in Hst'; try discriminate. tauto.
Qed.

Lemma lifecycle_shape_empty db :
  rows (subscriptions db) = ∅ → lifecycle_shape db.
Proof. intros He i s. by rewrite He, lookup_empty. Qed.

Lemma lifecycle_shape_invariant_witness : lifecycle_shape sample_active_db.
Proof.
  apply (lifecycle_shape_invariant sample_db sample_active_db);
    [apply run_Steps | by apply lifecycle_shape_empty].
Defined.

(** ** The identity of a subscription *)

Lemma Write_identity db db' :
  Write db db' → keys_below_next (subscriptions db) →
  (next_id (subscriptions db) ≤ next_id (subscriptions db'))%N ∧
  ∀ i, (i < next_id (subscriptions db))%N →
       (rows (subscriptions db) !! i = None → rows (subscriptions db') !! i = None) ∧
       (∀ s s', rows (subscriptions db) !! i = Some s →
                rows (subscriptions db') !! i = Some s' → same_identity s s').
Proof.
  destruct 1 as [db | db cid pid now Hno | db id s now Hl Hc
                 | db id s pack now Hl Hc Hno Hp | db id s now Hl Hs | db id s Hl];
    intros Hwf; cbn; (split; [lia|]); intros i Hi; unfold by_id in *.
  - split; [done|]. intros s s' H1 H2. rewrite H1 in H2. by injection H2 as <-.
  - rewrite lookup_insert_ne by lia. split; [done|].
    intros s s' H1 H2. rewrite H1 in H2. by injection H2 as <-.
  - split.
    + intros Hn. rewrite lookup_insert_ne; [done|]. intros ->. congruence.
    + intros r r' H1. rewrite lookup_insert_Some.
      intros [[-> <-]|[_ H2]]; [|rewrite H1 in H2; by injection H2 as <-].
      rewrite Hl in H1. by injection H1 as <-.
  - split.
    + intros Hn. rewrite lookup_insert_ne; [done|]. intros ->. congruence.
    + intros r r' H1. rewrite lookup_insert_Some.
      intros [[-> <-]|[_ H2]]; [|rewrite H1 in H2; by injection H2 as <-].
      rewrite Hl in H1. by injection H1 as <-.
  - split.
    + intros Hn. rewrite lookup_insert_ne; [done|]. intros ->. congruence.
    + intros r r' H1. rewrite lookup_insert_Some.
      intros [[-> <-]|[_ H2]]; [|rewrite H1 in H2; by injection H2 as <-].
      rewrite Hl in H1. by injection H1 as <-.
  - split.
    + intros Hn. rewrite lookup_delete_None. by right.
    + intros r r' H1. rewrite lookup_delete_Some. intros [_ H2].
      rewrite H1 in H2. by injection H2 as <-.
Qed.

(** X5.  Along any sequence of lifecycle operations, from a table whose keys
    were drawn from its sequence: a subscription that is still stored keeps
    its customer, its pack and its [RequestedAt]; the key sequence never
    goes back; and the id of a deleted subscription is never given to
    another one. *)
Theorem subscription_identity_fixed (db db' : DB)
  (Hsteps : Steps db db') (Hwf : keys_below_next (subscriptions db)) :
  (next_id (subscriptions db) ≤ next_id (subscriptions db'))%N ∧
  (∀ i s s', rows (subscriptions db) !! i = Some s →
             rows (subscriptions db') !! i = Some s' → same_identity s s') ∧
  (∀ i, (i < next_id (subscriptions db))%N →
        rows (subscriptions db) !! i = None → rows (subscriptions db') !! i = None).
Proof.
  assert (Hall : (next_id (subscriptions db) ≤ next_id (subscriptions db'))%N ∧
                 ∀ i, (i < next_id (subscriptions db))%N →
                      (rows (subscriptions db) !! i = None →
                       rows (subscriptions db') !! i = None) ∧
                      (∀ s s', rows (subscriptions db) !! i = Some s →
                               rows (subscriptions db') !! i = Some s' →
                               same_identity s s')).
  { induction Hsteps as [db | db db1 db' Hstep _ IH].
    - split; [lia|]. intros i _. split; [done|].
      intros s s' H1 H2. rewrite H1 in H2. by injection H2 as <-.
    - destruct Hstep as [db op].
      pose proof (run_op_Write op db) as Hw.
      destruct (Write_identity _ _ Hw Hwf) as [Hn1 H1].
      destruct (IH (Write_keys_below_next _ _ Hw Hwf)) as [Hn2 H2].
      split; [lia|]. intros i Hi.
      destruct (H1 i Hi) as [H1n H1s]. destruct (H2 i ltac:(lia)) as [H2n H2s].
      split; [auto|]. intros s s' Hs Hs'.
      destruct (rows (subscriptions (run_op op db).2) !! i) as [s1|] eqn:Hmid.
      + destruct (H1s s s1 Hs eq_refl) as (? & ? & ?).
        destruct (H2s s1 s' eq_refl Hs') as (? & ? & ?).
        unfold same_identity. split; [congruence|]. split; congruence.
      + rewrite (H2n eq_refl) in Hs'. discriminate. }
  destruct Hall as [Hn Hi]. split; [done|]. split.
  - intros i s s' Hs Hs'. apply (Hi i); [by eapply Hwf | done | done].
  - intros i Hlt. by apply Hi.
Qed.

(** Subscription 1 is requested and deleted; the next request gets the id 2
    and the id 1 stays free. *)
Lemma subscription_identity_fixed_witness :
  let deleted := run [OpRequest (Some 1%N) (Some basic) t0; OpDelete (Some 1%N)] sample_db in
  let again := run [OpSDKRequest (Some 1%N) (Some basic) new_year_2025] deleted in
  rows (subscriptions again) !! 1%N = None ∧
  is_Some (rows (subscriptions again) !! 2%N).
Proof.
  intros deleted again.
  assert (Hwf : keys_below_next (subscriptions deleted)).
  { apply (Steps_keys_below_next sample_db);
      [apply run_Steps | apply keys_below_next_sample_db]. }
  assert (Hsteps : Steps deleted again) by apply run_Steps.
  destruct (subscription_identity_fixed deleted again Hsteps Hwf) as (_ & _ & Hfree).
  split; [apply Hfree; vm_compute; reflexivity|].
  vm_compute. by eexists.
Defined.

(** ** Releasing the customer *)

Lemma one_active_unique db id s :
  one_active_per_customer db →
  rows (subscriptions db) !! id = Some s →
  Subscription.Status s = StatusActive →
  Customer.GetActiveSubscription (Subscription.CustomerID s) (subscriptions db)
  = Some (id, s).
Proof.
  intros Hinv Hl Hs.
  destruct (first_where_is_Some (Customer.active_of (Subscription.CustomerID s))
              (subscriptions db) id s) as [[k a] Hf]; [done | |].
  { unfold Customer.active_of. rewrite N.eqb_refl. cbn. by apply String.eqb_eq. }
  unfold Customer.GetActiveSubscription. rewrite Hf.
  apply GetActiveSubscription_Some in Hf as (Hk & Hc & Ha).
  assert (k = id) as -> by (by apply (Hinv k id a s)).
  rewrite Hl in Hk. by injection Hk as <-.
Qed.

Lemma no_active_after_removal db id s tbl :
  one_active_per_customer db →
  rows (subscriptions db) !! id = Some s →
  Subscription.Status s = StatusActive →
  (rows tbl = delete id (rows (subscriptions db)) ∨
   ∃ s', Subscription.Status s' ≠ StatusActive ∧
         rows tbl = <[id := s']> (rows (subscriptions db))) →
  Customer.HasActiveSubscription (Subscription.CustomerID s) tbl = false.
Proof.
  intros Hinv Hl Hs Htbl. apply HasActiveSubscription_false. intros k a Hk Hc Ha.
  destruct Htbl as [Ht | (s' & Hs' & Ht)]; rewrite Ht in Hk.
  - apply lookup_delete_Some in Hk as [Hne Hk]. apply Hne.
    by apply (Hinv id k s a).
  - apply lookup_insert_Some in Hk as [[<- <-]|[Hne Hk]]; [done|].
    apply Hne. by apply (Hinv id k s a).
Qed.

(** X6.  In a table with at most one active subscription per customer, taking
    the customer's active subscription out of the [active] status, by the
    admin's unassign or delete or by the customer's own deactivation (web
    or SDK), leaves the customer without an active subscription; a request
    of that customer for an existing pack, made next, is therefore accepted
    and creates a subscription. *)
Theorem release_then_request (db : DB) (id : N) (s : Subscription.t)
  (user_id : option N) (customer : Customer.t) (release : Op)
  (Hinv : one_active_per_customer db)
  (Hrow : rows (subscriptions db) !! id = Some s)
  (Hactive : Subscription.Status s = StatusActive)
  (Hcustomer : GetCurrentCustomer db user_id
               = Some (Subscription.CustomerID s, customer))
  (Hrelease : (∃ now, release = OpUnassign (Some id) now) ∨
              release = OpDelete (Some id) ∨
              (∃ now, release = OpDeactivate user_id now) ∨
              (∃ now, release = OpSDKDeactivate user_id now)) :
  let db' := (run_op release db).2 in
  Customer.HasActiveSubscription (Subscription.CustomerID s) (subscriptions db') = false ∧
  ∀ sku packID pack now request,
    find_pack_by_sku db sku = Some (packID, pack) →
    request = OpRequest user_id (Some (SubscriptionRequest.mk sku)) now ∨
    request = OpSDKRequest user_id (Some (SubscriptionRequest.mk sku)) now ∨
    request = OpCreate (Some (CreateSubscriptionRequest.mk (Subscription.CustomerID s) sku))
                       now →
    returned_subscription (run_op request db').1
    = Some (next_id (subscriptions db'),
            requested (Subscription.CustomerID s) packID now).
Proof.
  intros db'.
  assert (Hdb : ∃ tbl, db' = with_subscriptions tbl db ∧
                       (rows tbl = delete id (rows (subscriptions db)) ∨
                        ∃ s', Subscription.Status s' ≠ StatusActive ∧
                              rows tbl = <[id := s']> (rows (subscriptions db)))).
  { subst db'.
    destruct Hrelease as [[now ->] | [-> | [[now ->] | [now ->]]]]; cbn [run_op].
    - rewrite (UnassignSubscription_active db id s now Hrow Hactive). cbn [snd].
      eexists. split; [done|]. right. exists (deactivated s now). by split.
    - unfold SubscriptionHandler.DeleteSubscription, by_id. rewrite Hrow. cbn [snd].
      eexists. split; [done|]. by left.
    - rewrite (proj1 (DeactivateSubscription_active db user_id _ customer id s now
                        Hcustomer (one_active_unique db id s Hinv Hrow Hactive))).
      cbn [snd]. eexists. split; [done|]. right. exists (deactivated s now). by split.
    - rewrite (proj2 (DeactivateSubscription_active db user_id _ customer id s now
                        Hcustomer (one_active_unique db id s Hinv Hrow Hactive))).
      cbn [snd]. eexists. split; [done|]. right. exists (deactivated s now). by split. }
  destruct Hdb as (tbl & Hdb & Htbl).
  assert (Hfree : Customer.HasActiveSubscription (Subscription.CustomerID s)
                    (subscriptions db') = false).
  { rewrite Hdb. cbn. by apply (no_active_after_removal db id s tbl). }
  split; [exact Hfree|].
  intros sku packID pack now request Hpack Hreq.
  assert (Hop : Requests db' (Subscription.CustomerID s) sku now request).
  { rewrite Hdb.
    destruct Hreq as [-> | [-> | ->]].
    - by apply (Requests_customer _ _ _ _ user_id customer).
    - by apply (Requests_sdk _ _ _ _ user_id customer).
    - apply (Requests_admin _ _ _ _ customer).
      by apply (GetCurrentCustomer_find_customer db user_id). }
  rewrite (run_op_Requests _ _ _ _ _ Hop), Hfree.
  replace (find_pack_by_sku db' sku) with (Some (packID, pack))
    by (rewrite Hdb; by symmetry).
  by destruct Hreq as [-> | [-> | ->]].
Qed.

(** On the sample data: customer 1 deactivates the active subscription 1 and
    requests again. *)
Lemma release_then_request_witness :
  let released := (run_op (OpDeactivate (Some 1%N) new_year_2025) sample_active_db).2 in
  Customer.HasActiveSubscription 1%N (subscriptions released) = false ∧
  returned_subscription
    (run_op (OpRequest (Some 1%N) (Some basic) new_year_2025) released).1
  = Some (3%N, requested 1%N 1%N new_year_2025).
Proof.
  intros released.
  assert (Hinv : one_active_per_customer sample_active_db).
  { apply (Steps_one_active sample_db); [apply run_Steps | apply one_active_sample_db]. }
  destruct (release_then_request sample_active_db 1%N
              (Subscription.mk 1%N 1%N StatusActive t0 (Some t0) (Some t0)
                               (Some (Date 2024 3 2 0 0 0 0 UTC)) None)
              (Some 1%N) (Customer.mk 1%N "Ann" "555" None)
              (OpDeactivate (Some 1%N) new_year_2025) Hinv)
    as [Hfree Hnext];
    [vm_compute; reflexivity | reflexivity | vm_compute; reflexivity
    | right; right; left; by eexists |].
  split; [exact Hfree|].
  apply (Hnext "basic" 1%N (SubscriptionPack.mk "Basic" "One month" "basic" 1 None));
    [vm_compute; reflexivity | by left].
Defined.

(** ** The current subscription *)

(** X7.  The customer's "current subscription" (web and SDK handler alike)
    never writes.  It answers 401 when the authenticated user has no live
    customer, 404 exactly when the customer has no subscription of stored
    status [active], and otherwise the stored-active subscription of least
    id; in a table with at most one active subscription per customer that
    is the customer's active subscription. *)
Theorem GetCurrentSubscription_spec (db : DB) (user_id : option N) :
  SDKHandler.GetCurrentSubscription db user_id
  = SubscriptionHandler.GetCurrentSubscription db user_id ∧
  (SubscriptionHandler.GetCurrentSubscription db user_id).2 = db ∧
  (GetCurrentCustomer db user_id = None →
   (SubscriptionHandler.GetCurrentSubscription db user_id).1
   = ErrorResponse StatusUnauthorized "Customer not found") ∧
  (∀ customerID customer,
      GetCurrentCustomer db user_id = Some (customerID, customer) →
      ((SubscriptionHandler.GetCurrentSubscription db user_id).1
       = ErrorResponse StatusNotFound "No active subscription found" ↔
       Customer.HasActiveSubscription customerID (subscriptions db) = false) ∧
      (∀ id s,
          one_active_per_customer db →
          rows (subscriptions db) !! id = Some s →
          Subscription.CustomerID s = customerID →
          Subscription.Status s = StatusActive →
          (SubscriptionHandler.GetCurrentSubscription db user_id).1
          = SuccessResponse (DSubscription id s) "Current subscription retrieved")).
Proof.
  unfold SDKHandler.GetCurrentSubscription, SubscriptionHandler.GetCurrentSubscription.
  split; [done|]. split; [by repeat case_match|]. split.
  - by intros ->.
  - intros cid c ->. split.
    + rewrite <- GetActiveSubscription_None.
      destruct (Customer.GetActiveSubscription cid (subscriptions db)) as [[k a]|];
        cbn; split; (done || discriminate).
    + intros id s Hinv Hl <- Hs. by rewrite (one_active_unique db id s Hinv Hl Hs).
Qed.

Lemma GetCurrentSubscription_spec_witness :
  (SubscriptionHandler.GetCurrentSubscription sample_db (Some 1%N)).1
  = ErrorResponse StatusNotFound "No active subscription found".
Proof.
  destruct (GetCurrentSubscription_spec sample_db (Some 1%N)) as (_ & _ & _ & Hcust).
  apply (Hcust 1%N (Customer.mk 1%N "Ann" "555" None)); vm_compute; reflexivity.
Defined.

(** ** Stored status and expiry date *)

Lemma Before_After t u : Before t u = After u t.
Proof. reflexivity. Qed.

Lemma Time_trichotomy t u : Before t u = true ∨ Equal t u = true ∨ After t u = true.
Proof.
  unfold Before, After, Equal.
  destruct (Z.ltb_spec (unix t) (unix u)); [by left|].
  destruct (Z.ltb_spec (unix u) (unix t)); [right; right; done|].
  assert (Heq : unix t = unix u) by lia. rewrite Heq, Z.eqb_refl. cbn.
  destruct (Z.ltb_spec (nsec t) (nsec u)); [by left|].
  destruct (Z.ltb_spec (nsec u) (nsec t)); [by right; right|].
  right. left. apply Z.eqb_eq. lia.
Qed.

Lemma Equal_neither t u : Equal t u = true → Before t u = false ∧ After t u = false.
Proof.
  unfold Before, After, Equal. rewrite andb_true_iff, !Z.eqb_eq. intros [-> ->].
  by rewrite !Z.ltb_irrefl, Z.eqb_refl.
Qed.

Lemma Before_not_After t u : Before t u = true → After t u = false.
Proof.
  destruct t as [a n], u as [b m]. unfold Before, After. cbn.
  rewrite orb_true_iff, andb_true_iff, !Z.ltb_lt, Z.eqb_eq. intros Hlt.
  apply orb_false_iff. split; [apply Z.ltb_ge; lia|].
  apply andb_false_iff.
  destruct (Z.eqb_spec b a); [right; apply Z.ltb_ge; lia | by left].
Qed.

(** X8.  [IsActive] and [IsExpired] never hold together, and [IsActive] holds
    only of a subscription of stored status [active].  For a subscription
    of stored status [active] with an expiry date, exactly one of three
    cases holds: the expiry lies after the evaluation time and the
    subscription is active; it lies before and the subscription is
    expired; or it is the very instant of the evaluation, and the
    subscription is neither active nor expired. *)
Theorem IsActive_IsExpired_exclusive (s : Subscription.t) (now : Time) :
  (Subscription.IsActive s now = true → Subscription.IsExpired s now = false) ∧
  (Subscription.IsActive s now = true → Subscription.Status s = StatusActive) ∧
  (∀ e, Subscription.Status s = StatusActive → Subscription.ExpiresAt s = Some e →
        (After e now = true ∧ Subscription.IsActive s now = true ∧
         Subscription.IsExpired s now = false) ∨
        (Before e now = true ∧ Subscription.IsActive s now = false ∧
         Subscription.IsExpired s now = true) ∨
        (Equal e now = true ∧ Subscription.IsActive s now = false ∧
         Subscription.IsExpired s now = false)) ∧
  (Subscription.ExpiresAt s = None →
   Subscription.IsActive s now = false ∧ Subscription.IsExpired s now = false).
Proof.
  unfold Subscription.IsActive, Subscription.IsExpired.
  split; [|split; [|split]].
  - intros Ha. apply andb_true_iff in Ha as [_ Ha].
    destruct (Subscription.ExpiresAt s) as [e|]; [|done].
    destruct (Before e now) eqn:Hb; [|done].
    apply Before_not_After in Hb. congruence.
  - intros Ha. apply andb_true_iff in Ha as [Ha _]. by apply String.eqb_eq.
  - intros e Hs ->. rewrite Hs. cbn [String.eqb]. rewrite String.eqb_refl. cbn [andb].
    destruct (Time_trichotomy e now) as [Hb | [He | Ha]].
    + right. left. by rewrite (Before_not_After _ _ Hb).
    + right. right. destruct (Equal_neither e now He) as [Hn Hn'].
      by rewrite Hn, Hn'.
    + left. split; [done|]. split; [done|].
      destruct (Before e now) eqn:Hb; [|done].
      apply Before_not_After in Hb. congruence.
  - intros ->. by rewrite andb_false_r.
Qed.

Lemma IsActive_IsExpired_exclusive_witness :
  Subscription.IsActive
    (Subscription.set_Status StatusActive lapsed_inactive) (Date 2024 2 20 0 0 0 0 UTC) = true ∧
  Subscription.IsExpired
    (Subscription.set_Status StatusActive lapsed_inactive) (Date 2024 2 20 0 0 0 0 UTC) = false.
Proof.
  assert (Ha : Subscription.IsActive
                 (Subscription.set_Status StatusActive lapsed_inactive)
                 (Date 2024 2 20 0 0 0 0 UTC) = true) by (vm_compute; reflexivity).
  split; [exact Ha|].
  destruct (IsActive_IsExpired_exclusive
              (Subscription.set_Status StatusActive lapsed_inactive)
              (Date 2024 2 20 0 0 0 0 UTC)) as [Hexcl _].
  exact (Hexcl Ha).
Defined.

(** X9.  The check for an active subscription reads the stored status only.
    A customer whose subscription of stored status [active] has passed its
    expiry date, so that [IsActive] is false and [IsExpired] true of it, is
    still refused a new request with the conflict, and the "current
    subscription" handlers still answer that subscription. *)
Theorem lapsed_subscription_still_counts
  (db : DB) (user_id : option N) (customer : Customer.t)
  (id : N) (s : Subscription.t) (e now : Time)
  (Hcustomer : GetCurrentCustomer db user_id = Some (Subscription.CustomerID s, customer))
  (Hrow : rows (subscriptions db) !! id = Some s)
  (Hstatus : Subscription.Status s = StatusActive)
  (Hexpiry : Subscription.ExpiresAt s = Some e)
  (Hpast : Before e now = true) :
  Subscription.IsActive s now = false ∧
  Subscription.IsExpired s now = true ∧
  (∀ req, SubscriptionHandler.RequestSubscription db user_id (Some req) now = (conflict, db) ∧
          SDKHandler.RequestSubscription db user_id (Some req) now = (conflict, db)) ∧
  (∀ req, CreateSubscriptionRequest.CustomerID req = Subscription.CustomerID s →
          is_Some (find_pack_by_sku db (CreateSubscriptionRequest.PackSKU req)) →
          SubscriptionHandler.CreateSubscription db (Some req) now = (conflict, db)) ∧
  is_Some (returned_subscription (SubscriptionHandler.GetCurrentSubscription db user_id).1) ∧
  (one_active_per_customer db →
   returned_subscription (SubscriptionHandler.GetCurrentSubscription db user_id).1
   = Some (id, s)).
Proof.
  assert (Hhas : Customer.HasActiveSubscription (Subscription.CustomerID s)
                   (subscriptions db) = true).
  { apply HasActiveSubscription_true. by exists id, s. }
  split; [|split].
  - unfold Subscription.IsActive. rewrite Hexpiry, (Before_not_After _ _ Hpast).
    apply andb_false_r.
  - unfold Subscription.IsExpired. by rewrite Hexpiry.
  - split; [|split; [|split]].
    + intros req.
      by apply (RequestSubscription_conflict db user_id (Subscription.CustomerID s)
                  customer).
    + intros req Hc [p Hp].
      apply (CreateSubscription_conflict db req customer p); [|done|by rewrite Hc].
      rewrite Hc. by apply (GetCurrentCustomer_find_customer db user_id).
    + unfold SubscriptionHandler.GetCurrentSubscription. rewrite Hcustomer.
      destruct (Customer.GetActiveSubscription _ _) as [[k a]|] eqn:Hg.
      * by eexists.
      * apply GetActiveSubscription_None in Hg. congruence.
    + intros Hinv. unfold SubscriptionHandler.GetCurrentSubscription.
      by rewrite Hcustomer, (one_active_unique db id s Hinv Hrow Hstatus).
Qed.

(** On the sample data at the start of 2025: subscription 1 expired on
    2024-03-02 and is still stored as active. *)
Lemma lapsed_subscription_still_counts_witness :
  SubscriptionHandler.RequestSubscription sample_active_db (Some 1%N) (Some basic)
                                          new_year_2025
  = (conflict, sample_active_db).
Proof.
  apply (lapsed_subscription_still_counts sample_active_db (Some 1%N)
           (Customer.mk 1%N "Ann" "555" None) 1%N
           (Subscription.mk 1%N 1%N StatusActive t0 (Some t0) (Some t0)
                            (Some (Date 2024 3 2 0 0 0 0 UTC)) None)
           (Date 2024 3 2 0 0 0 0 UTC) new_year_2025);
    vm_compute; reflexivity.
Defined.

(** ** A new activation is not yet expired *)

Section LaterMonths.
Import wall.
Local Open Scope Z_scope.

Ltac euclid_lia := Z.to_euclidean_division_equations; lia.

Lemma daysSinceYear1_succ y : daysSinceYear1 (y + 1) = daysSinceYear1 y + yearLen y.
Proof.
  unfold daysSinceYear1, yearLen, isLeap. cbv zeta.
  replace (y + 1 - 1) with y by lia.
  assert (H4 : y / 4 = (y - 1) / 4 + (if Z.rem y 4 =? 0 then 1 else 0)).
  { destruct (Z.eqb_spec (Z.rem y 4) 0); euclid_lia. }
  assert (H100 : y / 100 = (y - 1) / 100 + (if Z.rem y 100 =? 0 then 1 else 0)).
  { destruct (Z.eqb_spec (Z.rem y 100) 0); euclid_lia. }
  assert (H400 : y / 400 = (y - 1) / 400 + (if Z.rem y 400 =? 0 then 1 else 0)).
  { destruct (Z.eqb_spec (Z.rem y 400) 0); euclid_lia. }
  rewrite H4, H100, H400.
  assert (Hdiv : Z.rem y 100 = 0 → Z.rem y 4 = 0) by euclid_lia.
  assert (Hdiv' : Z.rem y 400 = 0 → Z.rem y 100 = 0) by euclid_lia.
  destruct (Z.eqb_spec (Z.rem y 4) 0), (Z.eqb_spec (Z.rem y 100) 0),
    (Z.eqb_spec (Z.rem y 400) 0); cbn [andb orb negb]; lia.
Qed.

Lemma yearLen_pos y : 365 ≤ yearLen y.
Proof. unfold yearLen. destruct (isLeap y); lia. Qed.

Lemma daysSinceYear1_later y k :
  0 ≤ k → daysSinceYear1 y + yearLen y ≤ daysSinceYear1 (y + 1 + k).
Proof.
  intros Hk. revert k Hk. apply natlike_ind.
  - rewrite Z.add_0_r, daysSinceYear1_succ. lia.
  - intros k Hk IH. replace (y + 1 + Z.succ k) with (y + 1 + k + 1) by lia.
    rewrite daysSinceYear1_succ. pose proof (yearLen_pos (y + 1 + k)). lia.
Qed.

Lemma dayOfYear_months leap :
  Forall (λ m, 0 ≤ dayOfYear leap m 1 ∧
               dayOfYear leap m 1 + 31 ≤ (if leap then 366 else 365) ∧
               Forall (λ m', m < m' → dayOfYear leap m 1 + 28 ≤ dayOfYear leap m' 1)
                      (seqZ 1 12))
         (seqZ 1 12).
Proof. destruct leap; compute_done. Qed.

(** The day count of a date grows by at least four weeks with the month,
    whatever the day. *)
Lemma later_month_later_day y m y' m' d :
  1 ≤ m ≤ 12 → 1 ≤ m' ≤ 12 →
  y < y' ∨ (y = y' ∧ m < m') →
  daysSinceYear1 y + yearDayOf y m d + 28 ≤ daysSinceYear1 y' + yearDayOf y' m' d.
Proof.
  intros Hm Hm' Hlater.
  pose proof (dayOfYear_months (isLeap y')) as Hall'.
  apply (Forall_seqZ _ _ _ m') in Hall' as (Hpos' & _ & _); [|lia].
  pose proof (dayOfYear_months (isLeap y)) as Hall.
  apply (Forall_seqZ _ _ _ m) in Hall as (_ & Hend & Hall); [|lia].
  unfold yearDayOf in *.
  rewrite (dayOfYear_shift _ m' d 1), (dayOfYear_shift _ m d 1) in *.
  destruct Hlater as [Hy | [<- Hlt]].
  - pose proof (daysSinceYear1_later y (y' - y - 1) ltac:(lia)) as Hl.
    replace (y + 1 + (y' - y - 1)) with y' in Hl by lia.
    unfold yearLen in Hl. lia.
  - apply (Forall_seqZ _ _ _ m') in Hall; [|lia]. cbv beta in Hall. lia.
Qed.

(** On the wall clock, a date some months later is at least four weeks
    later. *)
Lemma Date_months_later y m d months h mi s ns :
  1 ≤ m ≤ 12 → 1 ≤ months →
  0 ≤ h < 24 → 0 ≤ mi < 60 → 0 ≤ s < 60 → 0 ≤ ns < 1000000000 →
  unix (Date y m d h mi s ns) + 28 * 86400 ≤ unix (Date y (m + months) d h mi s ns).
Proof.
  intros Hm Hmonths Hh Hmi Hs Hns.
  rewrite (Date_month_norm y (m + months)) by done.
  rewrite !Date_day_number by (done || euclid_lia). cbn [unix].
  assert (Hlater : daysSinceYear1 y + yearDayOf y m d + 28
                   ≤ daysSinceYear1 (y + (m + months - 1) / 12)
                     + yearDayOf (y + (m + months - 1) / 12)
                                 ((m + months - 1) mod 12 + 1) d).
  { apply later_month_later_day; [done | euclid_lia | euclid_lia]. }
  lia.
Qed.

End LaterMonths.

(** A time some months later, in a location whose offsets are within a day
    of UTC, is a later time. *)
Lemma AddDate_months_later t months :
  (0 ≤ nsec t < 1000000000)%Z → in_range (civil t).1.1 →
  (1 ≤ months < 2 ^ 31)%Z → bounded (loc t) →
  After (AddDate t 0 months 0) t = true.
Proof.
  intros Hns Hy Hmonths Hzone.
  destruct (civil t) as [[y m] d] eqn:Hciv. destruct (clock t) as [[h mi] s] eqn:Hclk.
  cbn [fst] in Hy.
  destruct (civil_clock_range t y m d h mi s Hns Hciv Hclk)
    as ([Hm Hd] & (Hh & Hmi & Hs) & Habs).
  pose proof (daysInMonth_31 (isLeap y) m) as Hd31. unfold daysIn in Hd.
  unfold in_range in Hy.
  rewrite (AddDate_Date t 0 months 0 y m d h mi s Hciv Hclk) by (unfold is_int; lia).
  rewrite !Z.add_0_r.
  destruct (Date_unix y (m + months) d h mi s (nsec t) (loc t)) as (_ & _ & sec & Hunix).
  pose proof (Date_months_later y m d months h mi s (nsec t) Hm ltac:(lia) Hh Hmi Hs Hns)
    as Hlater.
  rewrite Habs in Hlater. cbn [abs wall.unix] in Hlater.
  pose proof (Hzone sec). pose proof (Hzone (unix t)).
  unfold After. apply orb_true_iff. left. apply Z.ltb_lt. lia.
Qed.

(** X10.  A subscription that has just been activated is active and not
    expired at the time of its activation: the expiry date computed by
    [CalculateExpiry] lies strictly after [AssignedAt].  This holds for a
    pack whose validity is at least one month and below [2 ^ 31] months,
    a time of activation whose year is of a magnitude below [2 ^ 31], and
    a location whose offsets are within a day of UTC. *)
Theorem fresh_activation_is_active
  (db : DB) (id : N) (s : Subscription.t) (customer : Customer.t)
  (pack : SubscriptionPack.t) (now : Time)
  (Hrow : by_id (subscriptions db) id = Some s)
  (Hstatus : Subscription.CanTransitionTo s StatusActive = true)
  (Hcustomer : find_customer db (Subscription.CustomerID s) = Some customer)
  (Hfree : Customer.HasActiveSubscription (Subscription.CustomerID s) (subscriptions db)
           = false)
  (Hpack : find_pack db (Subscription.PackID s) = Some pack)
  (Hvalidity : (1 ≤ SubscriptionPack.ValidityMonths pack < 2 ^ 31)%Z)
  (Hnsec : (0 ≤ nsec now < 1000000000)%Z)
  (Hyear : in_range (civil now).1.1)
  (Hzone : bounded (loc now)) :
  ∃ s',
    returned_subscription (SubscriptionHandler.AssignSubscription db (Some id) now).1
    = Some (id, s') ∧
    by_id (subscriptions (SubscriptionHandler.AssignSubscription db (Some id) now).2) id
    = Some s' ∧
    (∃ e, Subscription.ExpiresAt s' = Some e ∧ After e now = true) ∧
    Subscription.IsActive s' now = true ∧
    Subscription.IsExpired s' now = false.
Proof.
  exists (activated s pack now).
  rewrite (AssignSubscription_success db id s customer pack now Hrow Hstatus Hcustomer
             Hfree Hpack).
  pose proof (AddDate_months_later now _ Hnsec Hyear Hvalidity Hzone) as Hafter.
  split; [done|]. split; [unfold by_id; cbn; by rewrite lookup_insert_eq|].
  split; [by eexists|].
  assert (Hact : Subscription.IsActive (activated s pack now) now = true).
  { unfold Subscription.IsActive. cbn. by rewrite Hafter. }
  split; [exact Hact|].
  unfold Subscription.IsExpired. cbn.
  destruct (Before _ now) eqn:Hb; [|done].
  apply Before_not_After in Hb. congruence.
Qed.

(** The approved subscription 2 of the sample data, once subscription 1 has
    been deactivated, is activated at 09:00 on 2024-12-31, five hours west
    of UTC, for one month. *)
Lemma fresh_activation_is_active_witness :
  let db := (run_op (OpUnassign (Some 1%N) new_year_2025) sample_active_db).2 in
  let now := Date 2024 12 31 9 0 0 0 (FixedZone (-18000)) in
  ∃ s',
    by_id (subscriptions (SubscriptionHandler.AssignSubscription db (Some 2%N) now).2) 2%N
    = Some s' ∧
    Subscription.IsActive s' now = true.
Proof.
  intros db now.
  destruct (fresh_activation_is_active db 2%N
              (Subscription.mk 1%N 1%N StatusApproved t0 (Some t0) None None None)
              (Customer.mk 1%N "Ann" "555" None)
              (SubscriptionPack.mk "Basic" "One month" "basic" 1 None) now)
    as (s' & _ & Hstored & _ & Hact & _);
    try (vm_compute; reflexivity).
  - vm_compute. split; [intros Hcmp; discriminate Hcmp | reflexivity].
  - vm_compute. split; [intros Hcmp; discriminate Hcmp | reflexivity].
  - vm_compute. split; [intros Hcmp; discriminate Hcmp | reflexivity].
  - intros sec. vm_compute. split; intros Hcmp; discriminate Hcmp.
  - by exists s'.
Defined.

(** ** The users and their credentials *)

Lemma no_collision self u tbl :
  first_where (user_collides self u) tbl = None →
  ∀ j v, rows tbl !! j = Some v → self ≠ Some j →
    User.Email v ≠ User.Email u ∧
    (∀ k, User.APIKey u = Some k → User.APIKey v ≠ Some k).
Proof.
  rewrite first_where_None. intros Hnone j v Hl Hself.
  specialize (Hnone j v Hl). unfold user_collides in Hnone.
  rewrite bool_decide_eq_false_2 in Hnone by done. cbn [negb andb] in Hnone.
  apply orb_false_iff in Hnone as [He Hk]. split.
  - by apply String.eqb_neq.
  - intros k Hu Hv. rewrite Hu, Hv, String.eqb_refl in Hk. discriminate.
Qed.

Lemma insert_unique_emails db id u tbl' :
  unique_emails db →
  (∀ j v, rows (users db) !! j = Some v → j ≠ id → User.Email v ≠ User.Email u) →
  rows tbl' = <[id := u]> (rows (users db)) →
  unique_emails (with_users tbl' db).
Proof.
  intros Huniq Hfresh Hrows i j a b. cbn. rewrite Hrows.
  rewrite !lookup_insert_Some.
  intros [[<- <-] | [Hi Ha]] [[<- <-] | [Hj Hb]] He; [done | | |by eapply Huniq].
  - by destruct (Hfresh j b Hb).
  - by destruct (Hfresh i a Ha).
Qed.

Lemma insert_unique_api_keys db id u tbl' :
  unique_api_keys db →
  (∀ j v k, rows (users db) !! j = Some v → j ≠ id →
            User.APIKey u = Some k → User.APIKey v ≠ Some k) →
  rows tbl' = <[id := u]> (rows (users db)) →
  unique_api_keys (with_users tbl' db).
Proof.
  intros Huniq Hfresh Hrows i j a b k. cbn. rewrite Hrows.
  rewrite !lookup_insert_Some.
  intros [[<- <-] | [Hi Ha]] [[<- <-] | [Hj Hb]] Hka Hkb; [done | | |by eapply Huniq].
  - by destruct (Hfresh j b k Hb).
  - by destruct (Hfresh i a k Ha).
Qed.

Lemma create_user_unique db u id tbl' :
  create_user (users db) u = Some (id, tbl') →
  unique_emails db ∧ unique_api_keys db →
  unique_emails (with_users tbl' db) ∧ unique_api_keys (with_users tbl' db).
Proof.
  intros Hcu [He Hk]. pose proof Hcu as Hnone. unfold create_user in Hnone.
  destruct (first_where _ _) eqn:Hf; [discriminate|]. clear Hnone.
  apply create_user_Some in Hcu as [-> ->].
  split; [eapply insert_unique_emails | eapply insert_unique_api_keys]; try done.
  - intros j v Hl _. by apply (no_collision None u (users db) Hf j v).
  - intros j v k Hl _. by apply (no_collision None u (users db) Hf j v).
Qed.

Lemma save_user_unique db u id tbl' :
  save_user (users db) id u = Some tbl' →
  unique_emails db ∧ unique_api_keys db →
  unique_emails (with_users tbl' db) ∧ unique_api_keys (with_users tbl' db).
Proof.
  intros Hsu [He Hk]. pose proof Hsu as Hnone. unfold save_user in Hnone.
  destruct (first_where _ _) eqn:Hf; [discriminate|]. clear Hnone.
  apply save_user_Some in Hsu as ->.
  split; [eapply insert_unique_emails | eapply insert_unique_api_keys]; try done.
  - intros j v Hl Hj. apply (no_collision (Some id) u (users db) Hf j v Hl). congruence.
  - intros j v k Hl Hj. apply (no_collision (Some id) u (users db) Hf j v Hl). congruence.
Qed.

(** What a request does to the [users] table: nothing, one [Create], or one
    [Save]. *)
Lemma run_user_op_users `{Crypto} op db :
  users (run_user_op op db).2 = users db ∨
  (∃ u id tbl', create_user (users db) u = Some (id, tbl') ∧
                users (run_user_op op db).2 = tbl') ∨
  (∃ u id tbl', save_user (users db) id u = Some tbl' ∧
                users (run_user_op op db).2 = tbl').
Proof.
  destruct op as [req random now | req | kind req now random]; cbn [run_user_op].
  - unfold UserHandler.CustomerSignup.
    repeat (case_match; try (by left)); simplify_eq; right; left; by repeat eexists.
  - unfold CustomerHandler.CreateCustomer.
    repeat (case_match; try (by left)); simplify_eq; right; left; by repeat eexists.
  - destruct kind;
      [left; by rewrite (jwt_login_keeps_db AdminLoginKind db req now random)
      |left; by rewrite (jwt_login_keeps_db CustomerLoginKind db req now random)|].
    cbn [login]. unfold SDKHandler.Login.
    repeat (case_match; try (by left)); simplify_eq; right; right; by repeat eexists.
Qed.

Lemma unique_users_only db db' :
  users db' = users db →
  unique_emails db ∧ unique_api_keys db → unique_emails db' ∧ unique_api_keys db'.
Proof. unfold unique_emails, unique_api_keys. by intros ->. Qed.

(** X11.  The emails and the API keys of the users stay unique under every
    request that writes users: customer signup, the admin's customer
    creation and the three logins. *)
Theorem user_indexes_invariant `{Crypto}
  (op : UserOp) (db : DB)
  (Hunique : unique_emails db ∧ unique_api_keys db) :
  unique_emails (run_user_op op db).2 ∧ unique_api_keys (run_user_op op db).2.
Proof.
  destruct (run_user_op_users op db)
    as [Hsame | [(u & id & tbl' & Hcu & Hu) | (u & id & tbl' & Hsu & Hu)]].
  - by apply (unique_users_only db).
  - apply (unique_users_only (with_users tbl' db)); [done|].
    by apply (create_user_unique db u id).
  - apply (unique_users_only (with_users tbl' db)); [done|].
    by apply (save_user_unique db u id).
Qed.

Lemma unique_sample_db : unique_emails sample_db ∧ unique_api_keys sample_db.
Proof.
  split.
  - intros i j u v Hi Hj _. cbn in Hi, Hj.
    apply lookup_singleton_Some in Hi as [<- _].
    by apply lookup_singleton_Some in Hj as [<- _].
  - intros i j u v k Hi Hj _ _. cbn in Hi, Hj.
    apply lookup_singleton_Some in Hi as [<- _].
    by apply lookup_singleton_Some in Hj as [<- _].
Qed.

Lemma user_indexes_invariant_witness :
  let db' := (@run_user_op demo_crypto
                (OpSignup (Some bob_signup) (Some sixteen_bytes) t0) sample_db).2 in
  unique_emails db' ∧ unique_api_keys db'.
Proof.
  intros db'.
  apply (@user_indexes_invariant demo_crypto
           (OpSignup (Some bob_signup) (Some sixteen_bytes) t0) sample_db).
  apply unique_sample_db.
Defined.

Lemma find_user_by_email_Some db email :
  is_Some (find_user_by_email db email) ↔
  ∃ i u, rows (users db) !! i = Some u ∧ User.Email u = email.
Proof.
  unfold find_user_by_email. split.
  - intros [[i u] Hf]. apply first_where_Some in Hf as [Hl He].
    exists i, u. split; [done|]. by apply String.eqb_eq.
  - intros (i & u & Hl & He). apply (first_where_is_Some _ _ i u Hl).
    by apply String.eqb_eq.
Qed.

(** X12.  Signup and the admin's customer creation answer 409 "Email already
    registered" exactly when some user, of whatever role, already has the
    submitted email, and then nothing is written. *)
Theorem email_taken_iff `{Crypto} (db : DB) (email password name phone : string)
  (random : option (list Byte.byte)) (now : Time) :
  let signup := UserHandler.CustomerSignup db
                  (Some (SignupRequest.mk email password name phone)) random now in
  let creation := CustomerHandler.CreateCustomer db
                    (Some (CreateCustomerRequest.mk email password name phone)) in
  let taken := ∃ i u, rows (users db) !! i = Some u ∧ User.Email u = email in
  (signup.1 = email_taken ↔ taken) ∧ (creation.1 = email_taken ↔ taken) ∧
  (taken → signup.2 = db ∧ creation.2 = db).
Proof.
  cbv zeta. rewrite <- find_user_by_email_Some.
  unfold UserHandler.CustomerSignup, CustomerHandler.CreateCustomer.
  cbn [SignupRequest.Email CreateCustomerRequest.Email].
  destruct (find_user_by_email db email) as [existing|] eqn:Hf.
  - by repeat split.
  - split; [|split].
    + split; [|by intros [? ?]]. repeat case_match; discriminate.
    + split; [|by intros [? ?]]. repeat case_match; discriminate.
    + by intros [? ?].
Qed.

Lemma email_taken_iff_witness :
  (@UserHandler.CustomerSignup demo_crypto sample_db
     (Some (SignupRequest.mk "ann@example.com" "another" "Ann" "555"))
     (Some sixteen_bytes) t0).1 = email_taken.
Proof.
  apply (proj1 (@email_taken_iff demo_crypto sample_db "ann@example.com" "another" "Ann" "555"
                  (Some sixteen_bytes) t0)).
  exists 1%N, (User.mk "ann@example.com" "bcrypt:secret" "customer" None).
  split; reflexivity.
Defined.

Lemma first_where_unique {A} (cond : N → A → bool) (t : Table A) k a :
  rows t !! k = Some a → cond k a = true →
  (∀ j b, rows t !! j = Some b → cond j b = true → j = k) →
  first_where cond t = Some (k, a).
Proof.
  intros Hl Hc Huniq.
  destruct (first_where_is_Some cond t k a Hl Hc) as [[k' a'] Hf].
  pose proof Hf as Hf'. apply first_where_Some in Hf' as [Hl' Hc'].
  pose proof (Huniq k' a' Hl' Hc') as ->. congruence.
Qed.

(** What a successful signup has stored. *)
Lemma CustomerSignup_stored `{Crypto} db req random now id :
  logged_in (UserHandler.CustomerSignup db (Some req) random now).1 = Some id →
  ∃ bytes hashedPassword,
    random = Some bytes ∧
    bcrypt_GenerateFromPassword (SignupRequest.Password req) = Some hashedPassword ∧
    find_user_by_email db (SignupRequest.Email req) = None ∧
    id = next_id (users db) ∧
    rows (users (UserHandler.CustomerSignup db (Some req) random now).2)
    = <[id := User.mk (SignupRequest.Email req) hashedPassword "customer"
                      (Some ("sk-sdk-" +:+ EncodeToString bytes))]> (rows (users db)).
Proof.
  unfold UserHandler.CustomerSignup, User.HashPassword.
  destruct (find_user_by_email db _) eqn:Hf; [discriminate|].
  cbn [User.Password].
  destruct (bcrypt_GenerateFromPassword _) as [h|] eqn:Hh; [|discriminate].
  destruct random as [bytes|]; [|discriminate]. cbn [User.GenerateAPIKey].
  destruct (create_user _ _) as [[uid utbl]|] eqn:Hcu; [|discriminate].
  apply create_user_Some in Hcu as [-> ->].
  destruct (create_customer _ _) as [[cid ctbl]|]; [|discriminate].
  destruct (UserHandler.generateJWT _ _ _); [|discriminate].
  intros Hid. cbn in Hid. injection Hid as <-.
  exists bytes, h. by repeat split.
Qed.

Lemma prefixed_key_nonempty s : "sk-sdk-" +:+ s ≠ EmptyString.
Proof. discriminate. Qed.

(** X13.  Signup and login fit together: after a successful signup, the
    same email and password log the new user in as a customer, are refused
    as an admin with "Invalid credentials", and the first SDK login answers
    with the API key the signup generated, writing nothing.  This holds
    where the password hash verifies against its password and signing a
    token succeeds. *)
Theorem signup_then_login `{Crypto}
  (db : DB) (req : SignupRequest.t) (random : option (list Byte.byte)) (now : Time) (id : N)
  (Hsignup : logged_in (UserHandler.CustomerSignup db (Some req) random now).1 = Some id)
  (Hbcrypt : bcrypt_sound (SignupRequest.Password req))
  (Hsign : signing_total) :
  let db' := (UserHandler.CustomerSignup db (Some req) random now).2 in
  let credentials := LoginRequest.mk (SignupRequest.Email req) (SignupRequest.Password req) in
  (∀ now', logged_in (UserHandler.CustomerLogin db' (Some credentials) now').1 = Some id) ∧
  (∀ now', UserHandler.AdminLogin db' (Some credentials) now' = (invalid_credentials, db')) ∧
  (∃ bytes, random = Some bytes ∧
     ∀ random',
       issued_key (SDKHandler.Login db' (Some credentials) random').1
       = Some (id, "sk-sdk-" +:+ EncodeToString bytes) ∧
       (SDKHandler.Login db' (Some credentials) random').2 = db').
Proof.
  intros db' credentials.
  destruct (CustomerSignup_stored db req random now id Hsignup)
    as (bytes & h & -> & Hh & Hfree & Hid & Hrows).
  fold db' in Hrows. set (user := User.mk _ h _ _) in Hrows.
  assert (Hl : rows (users db') !! id = Some user) by (by rewrite Hrows, lookup_insert_eq).
  assert (Honly : ∀ j b, rows (users db') !! j = Some b →
                         User.Email b = SignupRequest.Email req → j = id).
  { intros j b Hj He. rewrite Hrows in Hj. apply lookup_insert_Some in Hj as [[? _]|[_ Hj]];
      [done|].
    unfold find_user_by_email in Hfree. rewrite first_where_None in Hfree.
    apply Hfree in Hj. apply String.eqb_neq in Hj. done. }
  assert (Hfind : find_user_by_email_role db' (SignupRequest.Email req) "customer"
                  = Some (id, user)).
  { apply first_where_unique; [done | by cbn; rewrite String.eqb_refl |].
    intros j b Hj Hc. apply andb_true_iff in Hc as [He _].
    apply (Honly j b Hj). by apply String.eqb_eq. }
  assert (Hcheck : User.CheckPassword user (SignupRequest.Password req) = true)
    by (by apply Hbcrypt).
  split; [|split].
  - intros now'. unfold UserHandler.CustomerLogin. cbn [LoginRequest.Email LoginRequest.Password credentials].
    rewrite Hfind, Hcheck. cbn [negb]. unfold UserHandler.generateJWT.
    by destruct (Hsign id (User.Email user) (User.Role user) (unix now' + 24 * 3600)%Z
                   (unix now')) as [token ->].
  - intros now'. apply (login_unknown_email AdminLoginKind db' credentials now' None).
    cbn [login_role LoginRequest.Email credentials].
    unfold find_user_by_email_role. apply first_where_None. intros j b Hj.
    destruct (String.eqb_spec (User.Email b) (SignupRequest.Email req)) as [He|]; [|done].
    pose proof (Honly j b Hj He) as ->. by simplify_eq.
  - exists bytes. split; [done|]. intros random'.
    unfold SDKHandler.Login. cbn [LoginRequest.Email LoginRequest.Password credentials].
    rewrite Hfind, Hcheck. cbn [negb]. cbn. done.
Qed.

Lemma signup_then_login_witness :
  let db' := (@UserHandler.CustomerSignup demo_crypto sample_db (Some bob_signup)
                (Some sixteen_bytes) t0).2 in
  logged_in (@UserHandler.CustomerLogin demo_crypto db'
               (Some (LoginRequest.mk "bob@example.com" "hunter22")) new_year_2025).1
  = Some 2%N.
Proof.
  intros db'.
  refine (proj1 (@signup_then_login demo_crypto sample_db bob_signup
                   (Some sixteen_bytes) t0 2%N _ _ _) new_year_2025).
  - vm_compute. reflexivity.
  - intros h Hh. cbn in Hh. injection Hh as <-. vm_compute. reflexivity.
  - intros id email role exp iat. cbn. by eexists.
Defined.

Lemma create_customer_fresh tbl c :
  (∀ i v, rows tbl !! i = Some v → Customer.UserID v ≠ Customer.UserID c) →
  create_customer tbl c = Some (create tbl c).
Proof.
  intros Hfresh. unfold create_customer.
  destruct (first_where _ tbl) as [[i v]|] eqn:Hf; [|done].
  apply first_where_Some in Hf as [Hl He]. apply N.eqb_eq in He.
  by destruct (Hfresh i v Hl).
Qed.

Lemma create_user_without_key db u :
  find_user_by_email db (User.Email u) = None → User.APIKey u = None →
  create_user (users db) u = Some (create (users db) u).
Proof.
  unfold find_user_by_email, create_user. rewrite first_where_None. intros Hfree Hkey.
  destruct (first_where (user_collides None u) _) as [[i v]|] eqn:Hf; [|done].
  apply first_where_Some in Hf as [Hl Hc]. unfold user_collides in Hc.
  rewrite Hkey, (Hfree i v Hl) in Hc. by rewrite andb_false_r in Hc.
Qed.

Lemma reference_after_create db utbl c :
  customers_reference_users db →
  (next_id (users db) ≤ next_id utbl)%N →
  (Customer.UserID c < next_id utbl)%N →
  customers_reference_users
    (with_customers (create (customers (with_users utbl db)) c).2 (with_users utbl db)).
Proof.
  intros Hfk Hnext Hc i v. cbn. rewrite lookup_insert_Some.
  intros [[_ <-] | [_ Hl]]; [done|]. apply Hfk in Hl. lia.
Qed.

Lemma reference_users_grow db utbl :
  customers_reference_users db → (next_id (users db) ≤ next_id utbl)%N →
  customers_reference_users (with_users utbl db).
Proof. intros Hfk Hnext i v Hl. cbn in *. apply Hfk in Hl. lia. Qed.

(** X14.  Where every customer profile belongs to a user drawn from the
    sequence of user keys, creating the customer profile of a new user
    never fails: no request is answered 500 "Failed to create customer
    profile", and the admin's customer creation is never answered 500
    "Failed to create user" either (its user has no API key and its email
    was found free).  The condition holds again after every request. *)
Theorem profile_creation_never_fails `{Crypto}
  (op : UserOp) (db : DB)
  (Hfk : customers_reference_users db) :
  (run_user_op op db).1 ≠ failed_to_create_profile ∧
  ((∃ req, op = OpCreateCustomer req) → (run_user_op op db).1 ≠ failed_to_create_user) ∧
  customers_reference_users (run_user_op op db).2.
Proof.
  destruct op as [req random now | req | kind req now random]; cbn [run_user_op].
  - unfold UserHandler.CustomerSignup.
    destruct req as [req|]; [|by repeat split].
    destruct (find_user_by_email db _) eqn:Hfree; [by repeat split|].
    destruct (User.HashPassword _) as [user|]; [|by repeat split].
    destruct (User.GenerateAPIKey user random) as [user'|]; [|by repeat split].
    destruct (create_user _ _) as [[id utbl]|] eqn:Hcu;
      [|split; [done|]; split; [by intros [? ?]|done]].
    apply create_user_Some in Hcu as [-> ->].
    rewrite create_customer_fresh.
    2:{ intros i v Hl Heq. cbn in Hl, Heq. apply Hfk in Hl. lia. }
    cbn [fst snd create].
    assert (Hfk' : customers_reference_users
      (with_customers (create (customers (with_users
         (mkTable (<[next_id (users db) := user']> (rows (users db)))
                  (N.succ (next_id (users db)))) db))
         (Customer.mk (next_id (users db)) (SignupRequest.Name req)
                      (SignupRequest.Phone req) None)).2
         (with_users (mkTable (<[next_id (users db) := user']> (rows (users db)))
                  (N.succ (next_id (users db)))) db))).
    { apply reference_after_create; [done | cbn; lia | cbn; lia]. }
    destruct (UserHandler.generateJWT _ _ _); split; try done; split; try done;
      by intros [? ?].
  - unfold CustomerHandler.CreateCustomer.
    destruct req as [req|]; [|by repeat split].
    destruct (find_user_by_email db _) eqn:Hfree; [by repeat split|].
    unfold User.HashPassword. cbn [User.Password].
    destruct (bcrypt_GenerateFromPassword _) as [h|]; [|by repeat split].
    rewrite create_user_without_key by done. cbn [create].
    rewrite create_customer_fresh.
    2:{ intros i v Hl Heq. cbn in Hl, Heq. apply Hfk in Hl. lia. }
    split; [done|]. split; [done|].
    apply reference_after_create; [done | cbn; lia | cbn; lia].
  - split; [|split; [by intros [? ?]|]].
    + destruct kind; cbn [login];
        unfold UserHandler.AdminLogin, UserHandler.CustomerLogin, SDKHandler.Login;
        repeat case_match; discriminate.
    + destruct kind;
        [by rewrite (jwt_login_keeps_db AdminLoginKind db req now random)
        |by rewrite (jwt_login_keeps_db CustomerLoginKind db req now random)|].
      cbn [login]. unfold SDKHandler.Login.
      repeat (case_match; try done); simplify_eq;
        match goal with Hs : save_user _ _ _ = Some _ |- _ =>
          apply save_user_Some in Hs as -> end;
        by apply reference_users_grow.
Qed.

Lemma customers_reference_sample_db : customers_reference_users sample_db.
Proof.
  intros i c Hl. cbn in Hl. apply lookup_singleton_Some in Hl as [_ <-]. cbn. lia.
Qed.

Lemma profile_creation_never_fails_witness :
  (@run_user_op demo_crypto (OpCreateCustomer (Some carol_create)) sample_db).1
  ≠ failed_to_create_profile.
Proof.
  apply (@profile_creation_never_fails demo_crypto (OpCreateCustomer (Some carol_create))
           sample_db).
  apply customers_reference_sample_db.
Defined.

(** ** The form of the API keys *)

Lemma string_of_list_ascii_length l :
  String.length (string_of_list_ascii l) = length l.
Proof. induction l as [|c l IH]; cbn; [done | by rewrite IH]. Qed.

Lemma string_length_app (a b : string) :
  String.length (a +:+ b) = (String.length a + String.length b)%nat.
Proof. induction a as [|c a IH]; simpl; [done | by rewrite IH]. Qed.

Lemma string_of_list_ascii_inj l l' :
  string_of_list_ascii l = string_of_list_ascii l' → l = l'.
Proof.
  intros Heq. apply (f_equal list_ascii_of_string) in Heq.
  by rewrite !list_ascii_of_string_of_list_ascii in Heq.
Qed.

Lemma nibble_cases (n : N) :
  (n < 16)%N →
  n ∈ [0; 1; 2; 3; 4; 5; 6; 7; 8; 9; 10; 11; 12; 13; 14; 15]%N.
Proof.
  intros Hn. rewrite !elem_of_cons. lia.
Qed.

Lemma hexdigit_inj (n m : N) :
  (n < 16)%N → (m < 16)%N → hexdigit n = hexdigit m → n = m.
Proof.
  intros Hn Hm. apply nibble_cases in Hn, Hm.
  rewrite !elem_of_cons, elem_of_nil in Hn, Hm.
  destruct_or!; subst; try done; vm_compute; discriminate.
Qed.

Lemma hexdigit_hexchars (n : N) : (n < 16)%N → hexdigit n ∈ hexchars.
Proof.
  intros Hn. apply nibble_cases in Hn. rewrite !elem_of_cons, elem_of_nil in Hn.
  destruct_or!; subst; try done; compute_done.
Qed.

Lemma byte_nibbles (b : Byte.byte) :
  (Byte.to_N b / 16 < 16)%N ∧ (Byte.to_N b mod 16 < 16)%N.
Proof.
  pose proof (Byte.to_N_bounded b). split.
  - apply N.Div0.div_lt_upper_bound. lia.
  - apply N.mod_lt. lia.
Qed.

Lemma byte_of_nibbles (b b' : Byte.byte) :
  (Byte.to_N b / 16 = Byte.to_N b' / 16)%N →
  (Byte.to_N b mod 16 = Byte.to_N b' mod 16)%N → b = b'.
Proof.
  intros Hhi Hlo.
  assert (Heq : Byte.to_N b = Byte.to_N b').
  { rewrite (N.div_mod (Byte.to_N b) 16), (N.div_mod (Byte.to_N b') 16) by lia.
    by rewrite Hhi, Hlo. }
  apply (f_equal Byte.of_N) in Heq. rewrite !Byte.of_to_N in Heq. by injection Heq.
Qed.

Lemma EncodeToString_inj bytes bytes' :
  EncodeToString bytes = EncodeToString bytes' → bytes = bytes'.
Proof.
  unfold EncodeToString. intros Heq. apply string_of_list_ascii_inj in Heq.
  revert bytes' Heq. induction bytes as [|b bytes IH]; intros [|b' bytes'] Heq;
    cbn in Heq; try done.
  injection Heq as Hhi Hlo Hrest.
  destruct (byte_nibbles b) as [? ?], (byte_nibbles b') as [? ?].
  apply hexdigit_inj in Hhi, Hlo; try done.
  f_equal; [by apply byte_of_nibbles | by apply IH].
Qed.

Lemma EncodeToString_length bytes :
  String.length (EncodeToString bytes) = (2 * length bytes)%nat.
Proof.
  unfold EncodeToString. rewrite string_of_list_ascii_length.
  induction bytes as [|b bytes IH]; cbn [flat_map length app]; [done | lia].
Qed.

Lemma EncodeToString_hexchars bytes :
  Forall (λ c, c ∈ hexchars) (list_ascii_of_string (EncodeToString bytes)).
Proof.
  unfold EncodeToString. rewrite list_ascii_of_string_of_list_ascii.
  induction bytes as [|b bytes IH]; cbn; [constructor|].
  destruct (byte_nibbles b) as [? ?].
  constructor; [by apply hexdigit_hexchars|].
  constructor; [by apply hexdigit_hexchars | done].
Qed.

(** X15.  The API key [GenerateAPIKey] sets is "sk-sdk-" followed by two
    lower-case hexadecimal digits for each random byte (39 characters for
    the 16 bytes the code draws), it counts as a key for [HasAPIKey], and
    different random bytes give different keys. *)
Theorem api_key_format (u : User.t) (bytes : list Byte.byte) :
  ∃ key,
    User.GenerateAPIKey u (Some bytes) = Some (User.set_APIKey (Some key) u) ∧
    key = "sk-sdk-" +:+ EncodeToString bytes ∧
    String.length key = (7 + 2 * length bytes)%nat ∧
    Forall (λ c, c ∈ hexchars) (list_ascii_of_string (EncodeToString bytes)) ∧
    User.HasAPIKey (User.set_APIKey (Some key) u) = true ∧
    ∀ u' bytes',
      User.APIKey <$> User.GenerateAPIKey u' (Some bytes') = Some (Some key) →
      bytes' = bytes.
Proof.
  exists ("sk-sdk-" +:+ EncodeToString bytes).
  split; [done|]. split; [done|]. split; [|split; [|split]].
  - by rewrite string_length_app, EncodeToString_length.
  - apply EncodeToString_hexchars.
  - done.
  - intros u' bytes' Heq. cbn in Heq. injection Heq as Heq.
    by apply EncodeToString_inj.
Qed.

Lemma api_key_format_witness :
  ∃ key, User.APIKey <$> User.GenerateAPIKey (User.mk "ann@example.com" "bcrypt:secret"
                                                 "customer" None) (Some sixteen_bytes)
         = Some (Some key) ∧
         String.length key = 39%nat.
Proof.
  destruct (api_key_format (User.mk "ann@example.com" "bcrypt:secret" "customer" None)
              sixteen_bytes) as (key & Hgen & _ & Hlen & _).
  exists key. split; [by rewrite Hgen | exact Hlen].
Defined.

(** ** The middleware *)

Lemma substring_all (s : string) : String.substring 0 (String.length s) s = s.
Proof. induction s as [|c s IH]; simpl; [done | by rewrite IH]. Qed.

Lemma append_cons (a : ascii) (s s' : string) : String a s +:+ s' = String a (s +:+ s').
Proof. reflexivity. Qed.

Lemma HasPrefix_split (s prefix : string) :
  middleware.HasPrefix s prefix = true →
  s = prefix +:+
      String.substring (String.length prefix) (String.length s - String.length prefix) s.
Proof.
  unfold middleware.HasPrefix. revert s.
  induction prefix as [|a prefix IH]; intros s Hp.
  - change (EmptyString +:+ ?x) with x. simpl. by rewrite Nat.sub_0_r, substring_all.
  - destruct s as [|b s]; [done|]. simpl in Hp.
    destruct (ascii_dec a b) as [<-|]; [|done].
    rewrite append_cons. simpl. f_equal. by apply IH.
Qed.

Lemma HasPrefix_append (prefix s : string) :
  middleware.HasPrefix (prefix +:+ s) prefix = true.
Proof.
  unfold middleware.HasPrefix. induction prefix as [|a prefix IH].
  - change (EmptyString +:+ s) with s. by destruct s.
  - rewrite append_cons. simpl. by destruct (ascii_dec a a).
Qed.

Lemma append_inj_r (prefix s s' : string) : prefix +:+ s = prefix +:+ s' → s = s'.
Proof.
  induction prefix as [|a prefix IH]; [done|].
  rewrite !append_cons. intros [= Heq]. by apply IH.
Qed.

Lemma TrimPrefix_append (prefix s : string) :
  middleware.TrimPrefix (prefix +:+ s) prefix = s.
Proof.
  unfold middleware.TrimPrefix. rewrite HasPrefix_append.
  apply (append_inj_r prefix). symmetry. apply HasPrefix_split, HasPrefix_append.
Qed.

Lemma Bearer_longer (s : string) : "Bearer " +:+ s ≠ s.
Proof.
  intros Heq. apply (f_equal String.length) in Heq.
  rewrite string_length_app in Heq. simpl in Heq. lia.
Qed.

Lemma TrimPrefix_changed (s : string) :
  String.eqb (middleware.TrimPrefix s "Bearer ") s = false →
  s = "Bearer " +:+ middleware.TrimPrefix s "Bearer ".
Proof.
  unfold middleware.TrimPrefix.
  destruct (middleware.HasPrefix s "Bearer ") eqn:Hp.
  - intros _. by apply HasPrefix_split.
  - by rewrite String.eqb_refl.
Qed.

Lemma JWTAuth_Next `{middleware.JWT} authHeader now c c' :
  middleware.JWTAuth authHeader now c = middleware.Next c' ↔
  ∃ tokenString claims,
    authHeader = "Bearer " +:+ tokenString ∧
    middleware.jwt_ParseWithClaims tokenString now = Some claims ∧
    c' = keys_of (middleware.UserID claims) (middleware.Email claims)
                 (middleware.Role claims).
Proof.
  unfold middleware.JWTAuth. split.
  - destruct (String.eqb authHeader EmptyString); [done|].
    destruct (String.eqb (middleware.TrimPrefix _ _) authHeader) eqn:Ht; [done|].
    apply TrimPrefix_changed in Ht.
    destruct (middleware.jwt_ParseWithClaims _ now) as [claims|] eqn:Hp; [|done].
    intros [= <-]. by exists (middleware.TrimPrefix authHeader "Bearer "), claims.
  - intros (tok & claims & -> & Hp & ->).
    rewrite TrimPrefix_append, Hp.
    destruct (String.eqb_spec tok ("Bearer " +:+ tok)) as [Heq|_]; [|done].
    by destruct (Bearer_longer tok).
Qed.

(** X16.  The route groups of the web API.  A request passes into the admin
    group exactly when its Authorization header is "Bearer " followed by a
    token that parses as valid with the role claim "admin", and into the
    customer group exactly when the role claim is "customer"; the handler
    then sees the claims as the keys [user_id], [user_email], [user_role].
    No request passes into both groups, and a request that is turned away
    is answered 401 (no valid bearer token) or 403 (valid token of another
    role). *)
Theorem route_groups_spec `{middleware.JWT} (authHeader : string) (now : Time) :
  let passes (role : string) (c : middleware.Keys) :=
    ∃ tokenString claims,
      authHeader = "Bearer " +:+ tokenString ∧
      middleware.jwt_ParseWithClaims tokenString now = Some claims ∧
      middleware.Role claims = role ∧
      c = keys_of (middleware.UserID claims) (middleware.Email claims) role in
  (∀ c, admin_group authHeader now = middleware.Next c ↔ passes "admin" c) ∧
  (∀ c, customer_group authHeader now = middleware.Next c ↔ passes "customer" c) ∧
  (∀ c c', admin_group authHeader now = middleware.Next c →
           customer_group authHeader now = middleware.Next c' → False) ∧
  (∀ code error,
      admin_group authHeader now = middleware.Abort code error ∨
      customer_group authHeader now = middleware.Abort code error →
      code = StatusUnauthorized ∨
      (code = StatusForbidden ∧
       ∃ c, middleware.JWTAuth authHeader now middleware.no_keys = middleware.Next c)).
Proof.
  cbv zeta. unfold admin_group, customer_group.
  assert (Hgroup : ∀ (only : middleware.Keys → middleware.Result) role message,
    (∀ c, only c = match middleware.user_role c with
                   | Some r => if negb (String.eqb r role)
                               then middleware.Abort StatusForbidden message
                               else middleware.Next c
                   | None => middleware.Abort StatusForbidden message
                   end) →
    ∀ c, and_then (middleware.JWTAuth authHeader now middleware.no_keys) only
         = middleware.Next c ↔
         ∃ tokenString claims,
           authHeader = "Bearer " +:+ tokenString ∧
           middleware.jwt_ParseWithClaims tokenString now = Some claims ∧
           middleware.Role claims = role ∧
           c = keys_of (middleware.UserID claims) (middleware.Email claims) role).
  { intros only role message Honly c. split.
    - destruct (middleware.JWTAuth _ _ _) as [|c0] eqn:Hj; [done|]. cbn [and_then].
      apply JWTAuth_Next in Hj as (tok & claims & -> & Hp & ->).
      rewrite Honly. cbn [keys_of middleware.user_role].
      destruct (String.eqb_spec (middleware.Role claims) role) as [Hr|]; [|done].
      intros [= <-]. exists tok, claims. by rewrite Hr.
    - intros (tok & claims & -> & Hp & Hr & ->).
      assert (Hj : middleware.JWTAuth ("Bearer " +:+ tok) now middleware.no_keys
                   = middleware.Next (keys_of (middleware.UserID claims)
                                              (middleware.Email claims) role)).
      { apply JWTAuth_Next. exists tok, claims. by rewrite Hr. }
      rewrite Hj. cbn [and_then]. rewrite Honly. cbn [keys_of middleware.user_role].
      by rewrite String.eqb_refl. }
  pose proof (Hgroup middleware.AdminOnly "admin" "Admin access required"
                (λ c, eq_refl)) as Hadmin.
  pose proof (Hgroup middleware.CustomerOnly "customer" "Customer access required"
                (λ c, eq_refl)) as Hcustomer.
  split; [exact Hadmin|]. split; [exact Hcustomer|]. split.
  - intros c c' Ha Hc. apply Hadmin in Ha as (tok & claims & Hh & Hp & Hr & _).
    apply Hcustomer in Hc as (tok' & claims' & Hh' & Hp' & Hr' & _).
    rewrite Hh in Hh'. apply append_inj_r in Hh' as <-.
    rewrite Hp in Hp'. injection Hp' as <-. rewrite Hr in Hr'. discriminate.
  - intros code error.
    unfold middleware.JWTAuth.
    destruct (String.eqb authHeader EmptyString); cbn [and_then];
      [intros [[= <- _]|[= <- _]]; by left|].
    destruct (String.eqb (middleware.TrimPrefix _ _) authHeader); cbn [and_then];
      [intros [[= <- _]|[= <- _]]; by left|].
    destruct (middleware.jwt_ParseWithClaims _ now) as [claims|]; cbn [and_then];
      [|intros [[= <- _]|[= <- _]]; by left].
    unfold middleware.AdminOnly, middleware.CustomerOnly. cbn [middleware.user_role].
    intros [Ha|Hc]; right.
    + destruct (negb _); [|done]. injection Ha as <- _. split; [done|]. by eexists.
    + destruct (negb _); [|done]. injection Hc as <- _. split; [done|]. by eexists.
Qed.

Lemma route_groups_spec_witness :
  @customer_group demo_jwt ("Bearer " +:+ "jwt:ann@example.com") t0
  = middleware.Next (keys_of 1%N "ann@example.com" "customer").
Proof.
  apply (proj1 (proj2 (@route_groups_spec demo_jwt ("Bearer " +:+ "jwt:ann@example.com") t0))).
  exists "jwt:ann@example.com", (middleware.mkClaims 1%N "ann@example.com" "customer").
  repeat split.
Defined.

Lemma find_user_by_email_role_Some db email role id user :
  find_user_by_email_role db email role = Some (id, user) →
  by_id (users db) id = Some user ∧ User.Email user = email ∧ User.Role user = role.
Proof.
  unfold find_user_by_email_role. intros Hf. apply first_where_Some in Hf as [Hl Hc].
  apply andb_true_iff in Hc as [He Hr]. by apply String.eqb_eq in He, Hr.
Qed.

(** What a successful admin or customer login answers with. *)
Lemma jwt_login_success `{Crypto} kind db req now random id token user :
  kind ≠ SDKLoginKind →
  issued_token (login kind db (Some req) now random).1 = Some (id, token, user) →
  ∃ stored,
    by_id (users db) id = Some stored ∧
    User.Email stored = LoginRequest.Email req ∧
    User.Role stored = login_role kind ∧
    User.CheckPassword stored (LoginRequest.Password req) = true ∧
    UserHandler.generateJWT id stored now = Some token ∧
    user = User.set_APIKey None (User.set_Password EmptyString stored).
Proof.
  intros Hkind.
  destruct kind; [| |done]; cbn [login login_role];
    unfold UserHandler.AdminLogin, UserHandler.CustomerLogin;
    (destruct (find_user_by_email_role db _ _) as [[uid stored]|] eqn:Hf; [|done]);
    (destruct (User.CheckPassword stored _) eqn:Hp; [|done]); cbn [negb];
    (destruct (UserHandler.generateJWT uid stored now) as [tok|] eqn:Hj; [|done]);
    intros [= <- <- <-];
    apply find_user_by_email_role_Some in Hf as (Hl & He & Hr);
    by exists stored.
Qed.

(** X17.  The token of a login opens the routes of its own role and no
    others.  When an admin or customer login has succeeded and its token
    parses back to the claims it was signed with, a request that carries
    "Bearer " and the token passes into the group of the login's role with
    [user_id] set to the logged-in user, who is found again by
    [GetCurrentUser]; the group of the other role answers it 403. *)
Theorem login_token_routes `{Crypto} `{middleware.JWT}
  (kind : LoginKind) (db : DB) (req : LoginRequest.t) (now now' : Time)
  (random : option (list Byte.byte)) (id : N) (token : string) (user : User.t)
  (Hkind : kind ≠ SDKLoginKind)
  (Hlogin : issued_token (login kind db (Some req) now random).1 = Some (id, token, user))
  (Hparse : middleware.jwt_ParseWithClaims token now'
            = Some (middleware.mkClaims id (User.Email user) (User.Role user))) :
  own_group kind ("Bearer " +:+ token) now'
  = middleware.Next (keys_of id (LoginRequest.Email req) (login_role kind)) ∧
  (∃ code error, other_group kind ("Bearer " +:+ token) now' = middleware.Abort code error ∧
                 code = StatusForbidden) ∧
  (∃ stored, GetCurrentUser db (Some id) = Some (id, stored, customer_of_user db id) ∧
             User.Email stored = LoginRequest.Email req ∧
             User.Role stored = login_role kind).
Proof.
  destruct (jwt_login_success kind db req now random id token user Hkind Hlogin)
    as (stored & Hl & He & Hr & _ & _ & ->).
  cbn [User.Email User.Role User.set_APIKey User.set_Password] in Hparse.
  rewrite He, Hr in Hparse.
  assert (Hj : ∀ c, middleware.JWTAuth ("Bearer " +:+ token) now' c
               = middleware.Next (keys_of id (LoginRequest.Email req) (login_role kind))).
  { intros c. apply JWTAuth_Next. by exists token, (middleware.mkClaims id
      (LoginRequest.Email req) (login_role kind)). }
  split; [|split].
  - destruct kind; [| |done]; cbn [own_group login_role] in *;
      unfold admin_group, customer_group; by rewrite Hj.
  - destruct kind; [| |done]; cbn [other_group login_role] in *;
      unfold admin_group, customer_group; rewrite Hj; by eexists _, _.
  - exists stored. unfold GetCurrentUser. by rewrite Hl.
Qed.

Lemma login_token_routes_witness :
  @own_group demo_jwt CustomerLoginKind ("Bearer " +:+ "jwt:ann@example.com") new_year_2025
  = middleware.Next (keys_of 1%N "ann@example.com" "customer").
Proof.
  refine (proj1 (@login_token_routes demo_crypto demo_jwt CustomerLoginKind sample_db
                   ann_login t0 new_year_2025 None 1%N "jwt:ann@example.com"
                   (User.mk "ann@example.com" EmptyString "customer" None) _ _ _)).
  - discriminate.
  - vm_compute. reflexivity.
  - vm_compute. reflexivity.
Defined.

Lemma has_key_true apiKey i u :
  middleware.has_key apiKey i u = true ↔ User.APIKey u = Some apiKey.
Proof.
  unfold middleware.has_key. destruct (User.APIKey u) as [k|]; [|done].
  rewrite String.eqb_eq. split; congruence.
Qed.

Lemma APIKeyAuth_found apiKey db id user c :
  apiKey ≠ EmptyString →
  first_where (middleware.has_key apiKey) (users db) = Some (id, user) →
  middleware.APIKeyAuth apiKey (Some db) c
  = middleware.Next (keys_of id (User.Email user) (User.Role user)).
Proof.
  intros Hne Hf. unfold middleware.APIKeyAuth. rewrite Hf.
  apply String.eqb_neq in Hne as Hne'. rewrite Hne'.
  apply first_where_Some in Hf as [_ Hk]. apply has_key_true in Hk.
  unfold User.HasAPIKey. by rewrite Hk, Hne'.
Qed.

Lemma APIKeyAuth_holder apiKey db id user c :
  apiKey ≠ EmptyString → unique_api_keys db →
  rows (users db) !! id = Some user → User.APIKey user = Some apiKey →
  middleware.APIKeyAuth apiKey (Some db) c
  = middleware.Next (keys_of id (User.Email user) (User.Role user)).
Proof.
  intros Hne Huniq Hl Hk.
  apply (APIKeyAuth_found apiKey db id user c Hne).
  apply first_where_unique; [done | by apply has_key_true |].
  intros j b Hj Hb. apply has_key_true in Hb. by apply (Huniq j id b user apiKey).
Qed.

(** X18.  The SDK routes.  A request with an empty X-API-Key header is
    answered 401 "API key required"; with a non-empty key it is answered
    401 "Invalid API key" exactly when no user has that key, and otherwise
    passes with the keys of a user who has it (the check of [HasAPIKey]
    after the lookup never fails).  Where API keys are unique, that user is
    the holder of the key. *)
Theorem APIKeyAuth_spec (apiKey : string) (db : DB) :
  (apiKey = EmptyString → sdk_group apiKey db = api_key_required) ∧
  (apiKey ≠ EmptyString →
     (sdk_group apiKey db = invalid_api_key ↔
      ∀ i u, rows (users db) !! i = Some u → User.APIKey u ≠ Some apiKey) ∧
     (sdk_group apiKey db ≠ invalid_api_key →
      ∃ id user, rows (users db) !! id = Some user ∧ User.APIKey user = Some apiKey ∧
                 sdk_group apiKey db
                 = middleware.Next (keys_of id (User.Email user) (User.Role user))) ∧
     (∀ id user, unique_api_keys db →
                 rows (users db) !! id = Some user → User.APIKey user = Some apiKey →
                 sdk_group apiKey db
                 = middleware.Next (keys_of id (User.Email user) (User.Role user)))).
Proof.
  unfold sdk_group. split.
  - intros ->. done.
  - intros Hne.
    destruct (first_where (middleware.has_key apiKey) (users db)) as [[id user]|] eqn:Hf.
    + rewrite (APIKeyAuth_found apiKey db id user _ Hne Hf).
      pose proof Hf as Hf'. apply first_where_Some in Hf' as [Hl Hk].
      apply has_key_true in Hk. split; [|split].
      * split; [done|]. intros Hnone. by destruct (Hnone id user Hl).
      * intros _. by exists id, user.
      * intros id' user' Huniq Hl' Hk'.
        rewrite <- (APIKeyAuth_found apiKey db id user middleware.no_keys Hne Hf).
        by apply APIKeyAuth_holder.
    + assert (Hnone : ∀ i u, rows (users db) !! i = Some u → User.APIKey u ≠ Some apiKey).
      { intros i u Hl Hk. rewrite first_where_None in Hf.
        apply (has_key_true apiKey i) in Hk. by rewrite (Hf i u Hl) in Hk. }
      assert (Hout : middleware.APIKeyAuth apiKey (Some db) middleware.no_keys
                     = invalid_api_key).
      { unfold middleware.APIKeyAuth. rewrite Hf.
        apply String.eqb_neq in Hne. by rewrite Hne. }
      rewrite Hout. split; [|split].
      * done.
      * done.
      * intros id user _ Hl Hk. by destruct (Hnone id user Hl).
Qed.

Lemma APIKeyAuth_spec_witness :
  sdk_group "sk-sdk-unknown" sample_db = invalid_api_key.
Proof.
  destruct (APIKeyAuth_spec "sk-sdk-unknown" sample_db) as [_ Hspec].
  destruct (Hspec ltac:(discriminate)) as (Hinvalid & _).
  apply Hinvalid. intros i u Hl. cbn in Hl.
  apply lookup_singleton_Some in Hl as [_ <-]. discriminate.
Defined.

(** X19.  The key of an SDK login opens the SDK routes for its user.  Where
    API keys are unique, a request that carries the key a successful SDK
    login answered with passes [APIKeyAuth] on the database the login left,
    with [user_id] set to the user who logged in, the email of the login
    and the role "customer". *)
Theorem sdk_key_authenticates `{Crypto}
  (db : DB) (req : LoginRequest.t) (random : option (list Byte.byte)) (id : N) (key : string)
  (Hunique : unique_emails db ∧ unique_api_keys db)
  (Hlogin : issued_key (SDKHandler.Login db (Some req) random).1 = Some (id, key)) :
  sdk_group key (SDKHandler.Login db (Some req) random).2
  = middleware.Next (keys_of id (LoginRequest.Email req) "customer").
Proof.
  pose proof (run_user_op_users (OpLogin SDKLoginKind (Some req) t0 random) db) as Hw.
  cbn [run_user_op login] in Hw.
  assert (Huniq' : unique_api_keys (SDKHandler.Login db (Some req) random).2).
  { destruct Hw as [Hsame | [(u & i & tbl' & Hcu & Hu) | (u & i & tbl' & Hsu & Hu)]].
    - by apply (unique_users_only db).
    - apply (unique_users_only (with_users tbl' db)); [done|].
      by apply (create_user_unique db u i).
    - apply (unique_users_only (with_users tbl' db)); [done|].
      by apply (save_user_unique db u i). }
  clear Hw. unfold sdk_group.
  destruct (SDKLogin_success db req random id key Hlogin) as (user & Hf & _ & Hcases).
  apply find_user_by_email_role_Some in Hf as (Hl & He & Hr).
  set (db' := (SDKHandler.Login db (Some req) random).2) in *.
  destruct Hcases as [(Hhas & Hkey & Hdb) | (_ & bytes & _ & -> & Hdb)].
  - apply HasAPIKey_true in Hhas as (k & Hk & Hne).
    assert (k = key) as -> by congruence.
    rewrite (APIKeyAuth_holder key db' id user); [by rewrite He, Hr | done | done | | done].
    rewrite Hdb. exact Hl.
  - rewrite (APIKeyAuth_holder _ db' id
               (User.set_APIKey (Some ("sk-sdk-" +:+ EncodeToString bytes)) user));
      [|done|done| |done].
    + cbn [User.Email User.Role User.set_APIKey]. by rewrite He, Hr.
    + rewrite Hdb. cbn. by rewrite lookup_insert_eq.
Qed.

Lemma sdk_key_authenticates_witness :
  sdk_group ("sk-sdk-" +:+ EncodeToString sixteen_bytes)
            (@SDKHandler.Login demo_crypto sample_db (Some ann_login) (Some sixteen_bytes)).2
  = middleware.Next (keys_of 1%N "ann@example.com" "customer").
Proof.
  apply (@sdk_key_authenticates demo_crypto sample_db ann_login (Some sixteen_bytes) 1%N
           ("sk-sdk-" +:+ EncodeToString sixteen_bytes)).
  - apply unique_sample_db.
  - vm_compute. reflexivity.
Defined.

(** ** The default admin *)

Lemma count_admins_zero db :
  (count_where is_admin (users db) =? 0)%Z = true ↔ ¬ has_admin db.
Proof.
  assert (Hneg : (count_where is_admin (users db) =? 0)%Z
                 = negb (0 <? count_where is_admin (users db))%Z).
  { unfold count_where. by destruct (length _). }
  rewrite Hneg, negb_true_iff, count_where_zero. unfold has_admin, is_admin. split.
  - intros Hall (i & u & Hl & Hr). specialize (Hall i u Hl).
    apply String.eqb_neq in Hall. done.
  - intros Hno i u Hl. apply String.eqb_neq. intros Hr. apply Hno. by exists i, u.
Qed.

Lemma createDefaultAdmin_cases `{Crypto} db :
  (createDefaultAdmin db = db) ∨
  (¬ has_admin db ∧
   ∃ h, bcrypt_GenerateFromPassword "admin123" = Some h ∧
        find_user_by_email db "admin@example.com" = None ∧
        createDefaultAdmin db
        = with_users (create (users db) (User.mk "admin@example.com" h "admin" None)).2 db).
Proof.
  unfold createDefaultAdmin. cbv zeta.
  destruct (count_where is_admin (users db) =? 0)%Z eqn:Hc; [|by left].
  apply count_admins_zero in Hc.
  unfold User.HashPassword. cbn [User.Password].
  destruct (bcrypt_GenerateFromPassword "admin123") as [h|] eqn:Hh; [|by left].
  destruct (create_user _ _) as [[id utbl]|] eqn:Hcu; [|by left].
  right. split; [done|]. exists h. split; [done|].
  pose proof Hcu as Hnone. unfold create_user in Hnone.
  destruct (first_where _ _) eqn:Hf in Hnone; [discriminate|]. clear Hnone.
  apply create_user_Some in Hcu as [-> ->]. split; [|done].
  unfold find_user_by_email. apply first_where_None. intros i u Hl.
  apply String.eqb_neq. by apply (no_collision None _ (users db) Hf i u).
Qed.

(** X20.  [createDefaultAdmin] adds at most one user, and only to a
    database without an admin: with an admin present it changes nothing,
    running it a second time changes nothing, and whenever it has run and
    the database has no admin still, either hashing failed or the email
    admin@example.com belongs to a user who is not an admin.  It keeps
    emails and API keys unique. *)
Theorem createDefaultAdmin_spec `{Crypto} (db : DB) :
  (has_admin db → createDefaultAdmin db = db) ∧
  createDefaultAdmin (createDefaultAdmin db) = createDefaultAdmin db ∧
  (¬ has_admin (createDefaultAdmin db) →
   createDefaultAdmin db = db ∧
   (bcrypt_GenerateFromPassword "admin123" = None ∨
    ∃ i u, rows (users db) !! i = Some u ∧ User.Email u = "admin@example.com" ∧
           User.Role u ≠ "admin")) ∧
  (unique_emails db ∧ unique_api_keys db →
   unique_emails (createDefaultAdmin db) ∧ unique_api_keys (createDefaultAdmin db)).
Proof.
  assert (Hpresent : ∀ db0, has_admin db0 → createDefaultAdmin db0 = db0).
  { intros db0 Hadmin. unfold createDefaultAdmin. cbv zeta.
    destruct (count_where is_admin (users db0) =? 0)%Z eqn:Hc; [|done].
    apply count_admins_zero in Hc. by destruct Hc. }
  assert (Hcreated : ∀ h, has_admin (with_users
            (create (users db) (User.mk "admin@example.com" h "admin" None)).2 db)).
  { intros h. exists (next_id (users db)), (User.mk "admin@example.com" h "admin" None).
    cbn. by rewrite lookup_insert_eq. }
  split; [apply Hpresent|]. split; [|split].
  - destruct (createDefaultAdmin_cases db) as [Hsame | (_ & h & _ & _ & Hnew)].
    + by rewrite !Hsame.
    + rewrite Hnew. apply Hpresent, Hcreated.
  - intros Hnone.
    destruct (createDefaultAdmin_cases db) as [Hsame | (_ & h & _ & _ & Hnew)].
    2:{ rewrite Hnew in Hnone. by destruct Hnone. }
    split; [done|]. rewrite Hsame in Hnone.
    apply count_admins_zero in Hnone as Hc.
    unfold createDefaultAdmin in Hsame. cbv zeta in Hsame. rewrite Hc in Hsame.
    unfold User.HashPassword in Hsame. cbn [User.Password] in Hsame.
    destruct (bcrypt_GenerateFromPassword "admin123") as [h|]; [right | by left].
    destruct (create_user _ _) as [[id utbl]|] eqn:Hcu.
    { apply create_user_Some in Hcu as [-> ->]. destruct Hnone.
      rewrite <- Hsame. apply Hcreated. }
    unfold create_user in Hcu.
    destruct (first_where _ _) as [[i u]|] eqn:Hf; [|discriminate].
    apply first_where_Some in Hf as [Hl Hcol]. unfold user_collides in Hcol.
    cbn [User.Email User.APIKey User.set_Password] in Hcol.
    rewrite orb_false_r in Hcol. apply andb_true_iff in Hcol as [_ He].
    apply String.eqb_eq in He. exists i, u. split; [done|]. split; [done|].
    intros Hr. apply Hnone. by exists i, u.
  - intros Huniq.
    destruct (createDefaultAdmin_cases db) as [Hsame | (_ & h & _ & Hfree & Hnew)].
    + by rewrite Hsame.
    + rewrite Hnew.
      apply (create_user_unique db (User.mk "admin@example.com" h "admin" None)
               (next_id (users db))); [|done].
      by apply (create_user_without_key db (User.mk "admin@example.com" h "admin" None)).
Qed.

Lemma createDefaultAdmin_spec_witness :
  @createDefaultAdmin demo_crypto (@createDefaultAdmin demo_crypto sample_db)
  = @createDefaultAdmin demo_crypto sample_db.
Proof.
  exact (proj1 (proj2 (@createDefaultAdmin_spec demo_crypto sample_db))).
Defined.

(** X21.  After [createDefaultAdmin] has run on a database that had no
    admin and no user with the email admin@example.com, the admin login
    accepts admin@example.com with the password "admin123" and answers with
    the new user, while the customer login and the SDK login refuse the
    same credentials.  This holds where hashing the password succeeds, the
    hash verifies against it and signing a token succeeds. *)
Theorem default_admin_can_log_in `{Crypto} (db : DB) (now : Time)
  (Hno_admin : ¬ has_admin db)
  (Hfree : find_user_by_email db "admin@example.com" = None)
  (Hhash : is_Some (bcrypt_GenerateFromPassword "admin123"))
  (Hbcrypt : bcrypt_sound "admin123")
  (Hsign : signing_total) :
  let db' := createDefaultAdmin db in
  logged_in (UserHandler.AdminLogin db' (Some default_admin_login) now).1
  = Some (next_id (users db)) ∧
  (∀ random, UserHandler.CustomerLogin db' (Some default_admin_login) now
             = (invalid_credentials, db') ∧
             SDKHandler.Login db' (Some default_admin_login) random
             = (invalid_credentials, db')).
Proof.
  intros db'. destruct Hhash as [h Hh].
  assert (Hdb' : db' = with_users
            (create (users db) (User.mk "admin@example.com" h "admin" None)).2 db).
  { unfold db', createDefaultAdmin. cbv zeta.
    apply count_admins_zero in Hno_admin. rewrite Hno_admin.
    unfold User.HashPassword. cbn [User.Password]. rewrite Hh.
    unfold User.set_Password. cbn [User.Email User.Role User.APIKey].
    by rewrite (create_user_without_key db (User.mk "admin@example.com" h "admin" None)). }
  set (admin := User.mk "admin@example.com" h "admin" None) in *.
  assert (Hl : rows (users db') !! next_id (users db) = Some admin).
  { rewrite Hdb'. cbn. by rewrite lookup_insert_eq. }
  assert (Honly : ∀ j b, rows (users db') !! j = Some b →
                         User.Email b = "admin@example.com" → j = next_id (users db)).
  { intros j b Hj He. rewrite Hdb' in Hj. cbn in Hj.
    apply lookup_insert_Some in Hj as [[? _]|[_ Hj]]; [done|].
    unfold find_user_by_email in Hfree. rewrite first_where_None in Hfree.
    apply Hfree in Hj. by apply String.eqb_neq in Hj. }
  assert (Hfind : find_user_by_email_role db' "admin@example.com" "admin"
                  = Some (next_id (users db), admin)).
  { apply first_where_unique; [done | done |].
    intros j b Hj Hc. apply andb_true_iff in Hc as [He _].
    apply (Honly j b Hj). by apply String.eqb_eq. }
  assert (Hnone : find_user_by_email_role db' "admin@example.com" "customer" = None).
  { apply first_where_None. intros j b Hj.
    destruct (String.eqb_spec (User.Email b) "admin@example.com") as [He|]; [|done].
    pose proof (Honly j b Hj He) as ->. by simplify_eq. }
  split.
  - unfold UserHandler.AdminLogin.
    cbn [default_admin_login LoginRequest.Email LoginRequest.Password].
    rewrite Hfind. unfold User.CheckPassword. cbn [admin User.Password].
    rewrite (Hbcrypt h Hh). cbn [negb]. unfold UserHandler.generateJWT.
    by destruct (Hsign (next_id (users db)) (User.Email admin) (User.Role admin)
                   (unix now + 24 * 3600)%Z (unix now)) as [token ->].
  - intros random. split.
    + by apply (login_unknown_email CustomerLoginKind db' default_admin_login now None).
    + by apply (login_unknown_email SDKLoginKind db' default_admin_login now random).
Qed.

Lemma default_admin_can_log_in_witness :
  logged_in (@UserHandler.AdminLogin demo_crypto (@createDefaultAdmin demo_crypto sample_db)
               (Some default_admin_login) t0).1
  = Some 2%N.
Proof.
  refine (proj1 (@default_admin_can_log_in demo_crypto sample_db t0 _ _ _ _ _)).
  - intros (i & u & Hl & Hr). cbn in Hl. apply lookup_singleton_Some in Hl as [_ <-].
    discriminate Hr.
  - vm_compute. reflexivity.
  - cbn. by eexists.
  - intros h Hh. cbn in Hh. injection Hh as <-. vm_compute. reflexivity.
  - intros id email role exp iat. cbn. by eexists.
Defined.

(** ** Customers: update and soft delete *)

Lemma UpdateCustomer_live db id c req :
  find_customer db id = Some c →
  customer_handlers.UpdateCustomer db (Some id) (Some req)
  = (SuccessResponse (DCustomer id (updated req c)) "Customer updated successfully",
     with_customers (save (customers db) id (updated req c)) db).
Proof.
  intros Hlive. unfold customer_handlers.UpdateCustomer, updated. rewrite Hlive.
  destruct c as [uid name phone deleted]. cbn [Customer.UserID Customer.Name
    Customer.Phone Customer.DeletedAt].
  by destruct (String.eqb (UpdateCustomerRequest.Name req) EmptyString),
    (String.eqb (UpdateCustomerRequest.Phone req) EmptyString).
Qed.

Lemma UpdateProfile_live db user_id id c req :
  GetCurrentCustomer db user_id = Some (id, c) →
  customer_handlers.UpdateProfile db user_id (Some req)
  = (SuccessResponse (DCustomer id (updated req c)) "Profile updated successfully",
     with_customers (save (customers db) id (updated req c)) db).
Proof.
  intros Hcur. unfold customer_handlers.UpdateProfile, updated. rewrite Hcur.
  destruct c as [uid name phone deleted]. cbn [Customer.UserID Customer.Name
    Customer.Phone Customer.DeletedAt].
  by destruct (String.eqb (UpdateCustomerRequest.Name req) EmptyString),
    (String.eqb (UpdateCustomerRequest.Phone req) EmptyString).
Qed.

Lemma find_customer_Some db id c :
  find_customer db id = Some c ↔
  rows (customers db) !! id = Some c ∧ Customer.DeletedAt c = None.
Proof.
  unfold find_customer, by_id, live_customer.
  destruct (rows (customers db) !! id) as [c'|]; [|by split; [|intros [? _]]].
  destruct (Customer.DeletedAt c') eqn:Hd; split.
  - done.
  - intros [[= ->] Hd']. congruence.
  - by intros [= <-].
  - by intros [[= ->] _].
Qed.

Lemma find_customer_saved db id c :
  find_customer (with_customers (save (customers db) id c) db) id
  = if live_customer c then Some c else None.
Proof. unfold find_customer, by_id. cbn. by rewrite lookup_insert_eq. Qed.

Lemma updated_twice req c : updated req (updated req c) = updated req c.
Proof.
  unfold updated. cbn.
  by destruct (String.eqb (UpdateCustomerRequest.Name req) EmptyString),
    (String.eqb (UpdateCustomerRequest.Phone req) EmptyString).
Qed.

Lemma updated_empty req c :
  UpdateCustomerRequest.Name req = EmptyString →
  UpdateCustomerRequest.Phone req = EmptyString → updated req c = c.
Proof. intros Hn Hp. unfold updated. rewrite Hn, Hp. by destruct c. Qed.

(** X22.  Updating a customer, by the admin or by the customer through the
    profile route, overwrites the name and the phone with the non-empty
    fields of the request and leaves the user and the deletion mark of the
    profile as they were: the profile stays live, a name that was not
    empty cannot become empty, and the other customers and the other tables
    are untouched.  The same request a second time stores the same name
    and phone, and a request with both fields empty stores the name and
    the phone it found.  The profile route
    answers with and stores the columns the admin route stores for the
    customer of the authenticated user.  The update time that [Save] moves
    on each of these requests is not among the columns spoken of. *)
Theorem customer_update_spec
  (db : DB) (id : N) (c : Customer.t) (req : UpdateCustomerRequest.t)
  (Hlive : find_customer db id = Some c) :
  let result := customer_handlers.UpdateCustomer db (Some id) (Some req) in
  let again := customer_handlers.UpdateCustomer result.2 (Some id) (Some req) in
  result.1 = SuccessResponse (DCustomer id (updated req c)) "Customer updated successfully" ∧
  find_customer result.2 id = Some (updated req c) ∧
  Customer.UserID (updated req c) = Customer.UserID c ∧
  Customer.DeletedAt (updated req c) = Customer.DeletedAt c ∧
  Customer.Name (updated req c)
  = (if String.eqb (UpdateCustomerRequest.Name req) EmptyString
     then Customer.Name c else UpdateCustomerRequest.Name req) ∧
  Customer.Phone (updated req c)
  = (if String.eqb (UpdateCustomerRequest.Phone req) EmptyString
     then Customer.Phone c else UpdateCustomerRequest.Phone req) ∧
  (Customer.Name c ≠ EmptyString → Customer.Name (updated req c) ≠ EmptyString) ∧
  (∀ j, j ≠ id → by_id (customers result.2) j = by_id (customers db) j) ∧
  (users result.2 = users db ∧ subscription_packs result.2 = subscription_packs db ∧
   subscriptions result.2 = subscriptions db) ∧
  (∃ c2, find_customer again.2 id = Some c2 ∧
         Customer.Name c2 = Customer.Name (updated req c) ∧
         Customer.Phone c2 = Customer.Phone (updated req c)) ∧
  (UpdateCustomerRequest.Name req = EmptyString →
   UpdateCustomerRequest.Phone req = EmptyString →
   ∃ c1, find_customer result.2 id = Some c1 ∧
         Customer.Name c1 = Customer.Name c ∧ Customer.Phone c1 = Customer.Phone c) ∧
  (∀ user_id, GetCurrentCustomer db user_id = Some (id, c) →
     let profile := customer_handlers.UpdateProfile db user_id (Some req) in
     profile.1 = SuccessResponse (DCustomer id (updated req c))
                                 "Profile updated successfully" ∧
     find_customer profile.2 id = Some (updated req c)).
Proof.
  cbv zeta. rewrite (UpdateCustomer_live db id c req Hlive). cbn [fst snd].
  apply find_customer_Some in Hlive as Hrow. destruct Hrow as [Hl Hd].
  assert (Hstored : ∀ db0, find_customer
                      (with_customers (save (customers db0) id (updated req c)) db0) id
                    = Some (updated req c)).
  { intros db0. rewrite find_customer_saved. unfold live_customer, updated. cbn.
    by rewrite Hd. }
  split; [done|]. split; [apply Hstored|]. split; [done|]. split; [done|].
  split; [done|]. split; [done|]. split.
  { unfold updated. cbn. intros Hname.
    by destruct (String.eqb_spec (UpdateCustomerRequest.Name req) EmptyString). }
  split.
  { intros j Hj. unfold by_id. cbn. by rewrite lookup_insert_ne. }
  split; [done|]. split.
  { rewrite (UpdateCustomer_live _ id (updated req c) req (Hstored db)).
    rewrite updated_twice. cbn [fst snd]. exists (updated req c).
    split; [apply Hstored | done]. }
  split.
  { intros Hn Hp. exists (updated req c). split; [apply Hstored|].
    by rewrite (updated_empty req c Hn Hp). }
  intros user_id Hcur. rewrite (UpdateProfile_live db user_id id c req Hcur).
  cbn [fst snd]. split; [done | apply Hstored].
Qed.

Lemma customer_update_spec_witness :
  find_customer
    (customer_handlers.UpdateCustomer sample_db (Some 1%N)
       (Some (UpdateCustomerRequest.mk "Ann Lee" EmptyString))).2 1%N
  = Some (Customer.mk 1%N "Ann Lee" "555" None).
Proof.
  refine (proj1 (proj2 (customer_update_spec sample_db 1%N (Customer.mk 1%N "Ann" "555" None)
                          (UpdateCustomerRequest.mk "Ann Lee" EmptyString) _))).
  vm_compute. reflexivity.
Defined.

Lemma DeleteCustomer_live db id c now :
  find_customer db id = Some c →
  customer_handlers.DeleteCustomer db (Some id) now
  = (SuccessResponse (DMessage "Customer deleted successfully") EmptyString,
     with_customers (save (customers db) id (soft_deleted c now)) db).
Proof. intros Hlive. unfold customer_handlers.DeleteCustomer. by rewrite Hlive. Qed.

(** X23.  Deleting a customer is a soft delete: the row stays, stamped with
    the time of the request, and no other row of any table changes; but
    from then on the admin routes treat the customer as absent: get, update
    and a second delete answer 404 "Customer not found" and write nothing,
    and so do creating a subscription for the customer and assigning one of
    the customer's subscriptions. *)
Theorem DeleteCustomer_spec
  (db : DB) (id : N) (c : Customer.t) (now : Time)
  (Hlive : find_customer db id = Some c) :
  let result := customer_handlers.DeleteCustomer db (Some id) now in
  let db' := result.2 in
  result.1 = SuccessResponse (DMessage "Customer deleted successfully") EmptyString ∧
  by_id (customers db') id = Some (soft_deleted c now) ∧
  (∀ j, j ≠ id → by_id (customers db') j = by_id (customers db) j) ∧
  (users db' = users db ∧ subscription_packs db' = subscription_packs db ∧
   subscriptions db' = subscriptions db) ∧
  customer_handlers.GetCustomer db' (Some id) = (customer_not_found, db') ∧
  (∀ req, customer_handlers.UpdateCustomer db' (Some id) (Some req)
          = (customer_not_found, db')) ∧
  (∀ now', customer_handlers.DeleteCustomer db' (Some id) now' = (customer_not_found, db')) ∧
  (∀ sku now',
      SubscriptionHandler.CreateSubscription db'
        (Some (CreateSubscriptionRequest.mk id sku)) now' = (customer_not_found, db')) ∧
  (∀ sid s now',
      by_id (subscriptions db) sid = Some s → Subscription.CustomerID s = id →
      Subscription.CanTransitionTo s StatusActive = true →
      SubscriptionHandler.AssignSubscription db' (Some sid) now' = (customer_not_found, db')).
Proof.
  cbv zeta. rewrite (DeleteCustomer_live db id c now Hlive). cbn [fst snd].
  set (db' := with_customers _ db).
  assert (Hgone : find_customer db' id = None) by apply find_customer_saved.
  split; [done|]. split; [by unfold by_id; cbn; rewrite lookup_insert_eq|]. split.
  { intros j Hj. unfold by_id. cbn. by rewrite lookup_insert_ne. }
  split; [done|]. split.
  { unfold customer_handlers.GetCustomer. by rewrite Hgone. }
  split.
  { intros req. unfold customer_handlers.UpdateCustomer. by rewrite Hgone. }
  split.
  { intros now'. unfold customer_handlers.DeleteCustomer. by rewrite Hgone. }
  split.
  { intros sku now'. unfold SubscriptionHandler.CreateSubscription.
    cbn [CreateSubscriptionRequest.CustomerID]. by rewrite Hgone. }
  intros sid s now' Hs <- Ht. unfold SubscriptionHandler.AssignSubscription.
  change (subscriptions db') with (subscriptions db). by rewrite Hs, Ht, Hgone.
Qed.

Lemma DeleteCustomer_spec_witness :
  customer_handlers.GetCustomer
    (customer_handlers.DeleteCustomer sample_db (Some 1%N) new_year_2025).2 (Some 1%N)
  = (customer_not_found,
     (customer_handlers.DeleteCustomer sample_db (Some 1%N) new_year_2025).2).
Proof.
  refine (proj1 (proj2 (proj2 (proj2 (proj2
            (DeleteCustomer_spec sample_db 1%N (Customer.mk 1%N "Ann" "555" None)
               new_year_2025 _)))))).
  vm_compute. reflexivity.
Defined.

(** A login reads the users, and the customers only for the profile it
    sends along. *)
Lemma login_outcome_users `{Crypto} kind db1 db2 req now random :
  users db1 = users db2 →
  without_customer (login kind db1 req now random).1
  = without_customer (login kind db2 req now random).1.
Proof.
  intros Hu. destruct kind; cbn [login];
    unfold UserHandler.AdminLogin, UserHandler.CustomerLogin, SDKHandler.Login,
      find_user_by_email_role; rewrite Hu; by repeat case_match.
Qed.

Lemma answered_user_without_customer o :
  answered_user (without_customer o) = answered_user o.
Proof. destruct o as [code [success [[]|] message error]|]; reflexivity. Qed.

(** The profile a customer or SDK login sends is the live profile of the
    user it answers with. *)
Lemma login_sent_customer `{Crypto} kind db req now random uid :
  kind ≠ AdminLoginKind →
  answered_user (login kind db req now random).1 = Some uid →
  sent_customer (login kind db req now random).1 = customer_of_user db uid.
Proof.
  intros Hkind. destruct kind; [done| |]; cbn [login];
    unfold UserHandler.CustomerLogin, SDKHandler.Login;
    repeat (case_match; try discriminate); cbn; by intros [= <-].
Qed.

Lemma no_customer_after_delete db id c now :
  find_customer db id = Some c → unique_customer_users db →
  customer_of_user (with_customers (save (customers db) id (soft_deleted c now)) db)
                   (Customer.UserID c) = None.
Proof.
  intros Hlive Huniq. apply find_customer_Some in Hlive as [Hl _].
  unfold customer_of_user. apply first_where_None. intros j c' Hj. cbn in Hj.
  apply lookup_insert_Some in Hj as [[_ <-] | [Hne Hj]].
  - cbn. by rewrite andb_false_r.
  - apply andb_false_iff. left. apply N.eqb_neq. intros He.
    apply Hne. symmetry. by apply (Huniq j id c' c).
Qed.

Lemma customer_of_live_profile db id c :
  find_customer db id = Some c → unique_customer_users db →
  customer_of_user db (Customer.UserID c) = Some (id, c).
Proof.
  intros Hlive Huniq. apply find_customer_Some in Hlive as [Hl Hd].
  unfold customer_of_user. apply first_where_unique; [done | |].
  - unfold live_customer. by rewrite N.eqb_refl, Hd.
  - intros j c' Hj Hc. apply andb_true_iff in Hc as [Hu _]. apply N.eqb_eq in Hu.
    by apply (Huniq j id c' c).
Qed.

(** X24.  A customer whose profile has been deleted is locked out but not
    removed.  The user behind the profile is still there, so every login
    answers as it did before the deletion, the customer profile in the
    body apart: the admin login sends none, and a customer or SDK login
    that answers with the user of the deleted profile sent the profile
    before the deletion and sends none after it.  Every route of the
    customer (profile, current subscription, request, deactivate, on the
    web and through the SDK) then answers 401 "Customer not found" and
    writes nothing, and the email cannot be registered again.  Profiles
    are taken to belong to distinct users. *)
Theorem deleted_customer_locked_out `{Crypto}
  (db : DB) (id : N) (c : Customer.t) (u : User.t) (now : Time)
  (Hlive : find_customer db id = Some c)
  (Hunique : unique_customer_users db)
  (Huser : by_id (users db) (Customer.UserID c) = Some u) :
  let db' := (customer_handlers.DeleteCustomer db (Some id) now).2 in
  let user_id := Some (Customer.UserID c) in
  (∀ kind req now' random,
      without_customer (login kind db' req now' random).1
      = without_customer (login kind db req now' random).1 ∧
      (kind ≠ AdminLoginKind →
       answered_user (login kind db req now' random).1 = user_id →
       answered_user (login kind db' req now' random).1 = user_id ∧
       sent_customer (login kind db req now' random).1 = Some (id, c) ∧
       sent_customer (login kind db' req now' random).1 = None)) ∧
  customer_handlers.GetProfile db' user_id = (no_customer, db') ∧
  (∀ req, customer_handlers.UpdateProfile db' user_id req = (no_customer, db')) ∧
  SubscriptionHandler.GetCurrentSubscription db' user_id = (no_customer, db') ∧
  SDKHandler.GetCurrentSubscription db' user_id = (no_customer, db') ∧
  (∀ req now', SubscriptionHandler.RequestSubscription db' user_id req now'
               = (no_customer, db') ∧
               SDKHandler.RequestSubscription db' user_id req now' = (no_customer, db')) ∧
  (∀ now', SubscriptionHandler.DeactivateSubscription db' user_id now' = (no_customer, db') ∧
           SDKHandler.DeactivateSubscription db' user_id now' = (no_customer, db')) ∧
  (∀ password name phone random now',
      UserHandler.CustomerSignup db'
        (Some (SignupRequest.mk (User.Email u) password name phone)) random now'
      = (email_taken, db')).
Proof.
  cbv zeta. rewrite (DeleteCustomer_live db id c now Hlive). cbn [snd].
  pose proof (no_customer_after_delete db id c now Hlive Hunique) as Hnone.
  set (db' := with_customers _ db) in *.
  assert (Hcur : GetCurrentCustomer db' (Some (Customer.UserID c)) = None).
  { unfold GetCurrentCustomer, GetCurrentUser.
    change (users db') with (users db). by rewrite Huser. }
  split.
  { intros kind req now' random.
    assert (Hsame : without_customer (login kind db' req now' random).1
                    = without_customer (login kind db req now' random).1)
      by (by apply login_outcome_users).
    split; [exact Hsame|]. intros Hkind Hanswered.
    assert (Hanswered' : answered_user (login kind db' req now' random).1
                         = Some (Customer.UserID c)).
    { by rewrite <- answered_user_without_customer, Hsame,
        answered_user_without_customer. }
    split; [exact Hanswered'|].
    rewrite (login_sent_customer kind db req now' random _ Hkind Hanswered).
    rewrite (login_sent_customer kind db' req now' random _ Hkind Hanswered').
    split; [by apply customer_of_live_profile | exact Hnone]. }
  unfold customer_handlers.GetProfile, customer_handlers.UpdateProfile,
    SubscriptionHandler.GetCurrentSubscription, SDKHandler.GetCurrentSubscription,
    SubscriptionHandler.RequestSubscription, SDKHandler.RequestSubscription,
    SubscriptionHandler.DeactivateSubscription, SDKHandler.DeactivateSubscription.
  rewrite Hcur. repeat (split; [done|]).
  intros password name phone random now'. unfold UserHandler.CustomerSignup.
  cbn [SignupRequest.Email].
  destruct (first_where_is_Some (λ _ v, String.eqb (User.Email v) (User.Email u))
              (users db') (Customer.UserID c) u Huser (String.eqb_refl _)) as [existing Hf].
  unfold find_user_by_email. by rewrite Hf.
Qed.

(** Ann logs in before and after her profile is deleted. *)
Lemma deleted_customer_locked_out_witness :
  let db' := (customer_handlers.DeleteCustomer sample_db (Some 1%N) new_year_2025).2 in
  sent_customer (@UserHandler.CustomerLogin demo_crypto sample_db (Some ann_login) t0).1
  = Some (1%N, Customer.mk 1%N "Ann" "555" None) ∧
  sent_customer (@UserHandler.CustomerLogin demo_crypto db' (Some ann_login) t0).1 = None ∧
  customer_handlers.GetProfile db' (Some 1%N) = (no_customer, db').
Proof.
  intros db'.
  destruct (@deleted_customer_locked_out demo_crypto sample_db 1%N
              (Customer.mk 1%N "Ann" "555" None)
              (User.mk "ann@example.com" "bcrypt:secret" "customer" None)
              new_year_2025) as (Hlogin & Hprofile & _).
  - vm_compute. reflexivity.
  - intros i j a b Hi Hj _. cbn in Hi, Hj.
    apply lookup_singleton_Some in Hi as [<- _].
    by apply lookup_singleton_Some in Hj as [<- _].
  - vm_compute. reflexivity.
  - destruct (Hlogin CustomerLoginKind (Some ann_login) t0 None) as [_ Hsent].
    destruct Hsent as (_ & Hbefore & Hafter);
      [discriminate | vm_compute; reflexivity |].
    by repeat split.
Defined.

(** ** Packs: soft delete *)

Lemma find_pack_Some db id p :
  find_pack db id = Some p ↔
  rows (subscription_packs db) !! id = Some p ∧ SubscriptionPack.DeletedAt p = None.
Proof.
  unfold find_pack, by_id, SubscriptionPack.IsValid.
  destruct (rows (subscription_packs db) !! id) as [p'|]; [|by split; [|intros [? _]]].
  destruct (SubscriptionPack.DeletedAt p') eqn:Hd; split.
  - done.
  - intros [[= ->] Hd']. congruence.
  - by intros [= <-].
  - by intros [[= ->] _].
Qed.

Lemma DeletePack_live db id pack now :
  find_pack db id = Some pack →
  pack_handlers.DeletePack db (Some id) now
  = (SuccessResponse (DMessage "Subscription pack deleted successfully") EmptyString,
     with_subscription_packs (save (subscription_packs db) id (retired pack now)) db).
Proof. intros Hlive. unfold pack_handlers.DeletePack. by rewrite Hlive. Qed.

Lemma no_sku_after_delete db id pack now :
  find_pack db id = Some pack → unique_skus db →
  find_pack_by_sku
    (with_subscription_packs (save (subscription_packs db) id (retired pack now)) db)
    (SubscriptionPack.SKU pack) = None.
Proof.
  intros Hlive Huniq. apply find_pack_Some in Hlive as [Hl _].
  unfold find_pack_by_sku. apply first_where_None. intros j p Hj. cbn in Hj.
  apply lookup_insert_Some in Hj as [[_ <-] | [Hne Hj]].
  - cbn. by rewrite andb_false_r.
  - apply andb_false_iff. left. apply String.eqb_neq. intros He.
    apply Hne. symmetry. by apply (Huniq j id p pack).
Qed.

(** X25.  Deleting a pack is a soft delete with consequences for the
    subscriptions that refer to it.  The row stays, stamped with the time
    of the request, and the subscriptions are untouched; a second delete
    answers 404.  From then on no request for the pack's SKU creates a
    subscription (the customer's request, on the web and through the SDK,
    and the admin's creation are refused with a 4xx and write nothing), and
    assigning a subscription of that pack which passes all the handler's
    checks ends in a panic (the pack is no longer preloaded) without
    writing.  SKUs are taken to be unique. *)
Theorem DeletePack_spec
  (db : DB) (id : N) (pack : SubscriptionPack.t) (now : Time)
  (Hlive : find_pack db id = Some pack)
  (Hunique : unique_skus db) :
  let result := pack_handlers.DeletePack db (Some id) now in
  let db' := result.2 in
  let sku := SubscriptionPack.SKU pack in
  result.1 = SuccessResponse (DMessage "Subscription pack deleted successfully") EmptyString ∧
  by_id (subscription_packs db') id = Some (retired pack now) ∧
  (∀ j, j ≠ id → by_id (subscription_packs db') j = by_id (subscription_packs db) j) ∧
  (users db' = users db ∧ customers db' = customers db ∧
   subscriptions db' = subscriptions db) ∧
  (∀ now', pack_handlers.DeletePack db' (Some id) now' = (pack_not_found, db')) ∧
  (∀ user_id now',
      let web := SubscriptionHandler.RequestSubscription db' user_id
                   (Some (SubscriptionRequest.mk sku)) now' in
      let sdk := SDKHandler.RequestSubscription db' user_id
                   (Some (SubscriptionRequest.mk sku)) now' in
      client_error web.1 ∧ web.2 = db' ∧ client_error sdk.1 ∧ sdk.2 = db') ∧
  (∀ customerID now',
      let created := SubscriptionHandler.CreateSubscription db'
                       (Some (CreateSubscriptionRequest.mk customerID sku)) now' in
      client_error created.1 ∧ created.2 = db') ∧
  (∀ sid s customer now',
      by_id (subscriptions db) sid = Some s → Subscription.PackID s = id →
      Subscription.CanTransitionTo s StatusActive = true →
      find_customer db (Subscription.CustomerID s) = Some customer →
      Customer.HasActiveSubscription (Subscription.CustomerID s) (subscriptions db) = false →
      SubscriptionHandler.AssignSubscription db' (Some sid) now' = (Panicked, db')).
Proof.
  cbv zeta. rewrite (DeletePack_live db id pack now Hlive). cbn [fst snd].
  pose proof (no_sku_after_delete db id pack now Hlive Hunique) as Hsku.
  set (db' := with_subscription_packs _ db) in *.
  assert (Hgone : find_pack db' id = None).
  { unfold find_pack, by_id, db'. cbn. by rewrite lookup_insert_eq. }
  split; [done|]. split; [by unfold by_id; cbn; rewrite lookup_insert_eq|]. split.
  { intros j Hj. unfold by_id. cbn. by rewrite lookup_insert_ne. }
  split; [done|]. split.
  { intros now'. unfold pack_handlers.DeletePack. by rewrite Hgone. }
  split.
  { intros user_id now'.
    unfold SubscriptionHandler.RequestSubscription, SDKHandler.RequestSubscription.
    cbn [SubscriptionRequest.PackSKU]. rewrite Hsku.
    destruct (GetCurrentCustomer db' user_id) as [[cid customer]|]; cbn [fst snd];
      [|repeat split; by apply client_error_ErrorResponse].
    destruct (Customer.HasActiveSubscription cid (subscriptions db')); cbn [fst snd];
      repeat split; by apply client_error_ErrorResponse. }
  split.
  { intros customerID now'. unfold SubscriptionHandler.CreateSubscription.
    cbn [CreateSubscriptionRequest.PackSKU CreateSubscriptionRequest.CustomerID].
    rewrite Hsku.
    destruct (find_customer db' customerID); cbn [fst snd];
      split; try done; by apply client_error_ErrorResponse. }
  intros sid s customer now' Hs Hp Ht Hc Ha.
  apply (AssignSubscription_deleted_pack db' sid s customer now'); try done.
  by rewrite Hp.
Qed.

Lemma unique_skus_sample db :
  subscription_packs db = subscription_packs sample_db → unique_skus db.
Proof.
  intros Hp i j a b Hi Hj _. rewrite Hp in Hi, Hj. cbn in Hi, Hj.
  apply lookup_singleton_Some in Hi as [<- _].
  by apply lookup_singleton_Some in Hj as [<- _].
Qed.

(** Subscription 2 of the sample data is approved; its customer's active
    subscription 1 is unassigned first. *)
Lemma DeletePack_spec_witness :
  let db := (run_op (OpUnassign (Some 1%N) new_year_2025) sample_active_db).2 in
  let db' := (pack_handlers.DeletePack db (Some 1%N) new_year_2025).2 in
  SubscriptionHandler.AssignSubscription db' (Some 2%N) new_year_2025 = (Panicked, db').
Proof.
  intros db db'.
  refine (proj2 (proj2 (proj2 (proj2 (proj2 (proj2 (proj2
            (DeletePack_spec db 1%N (SubscriptionPack.mk "Basic" "One month" "basic" 1 None)
               new_year_2025 _ _)))))))
            2%N (Subscription.mk 1%N 1%N StatusApproved t0 (Some t0) None None None)
            (Customer.mk 1%N "Ann" "555" None) new_year_2025 _ _ _ _ _);
    try (vm_compute; reflexivity).
  apply unique_skus_sample. vm_compute. reflexivity.
Defined.

(** ** Pagination *)

(** X26.  The pagination of the list handlers.  Whatever the query says,
    the page used is at least 1 and the limit between 1 and 100 (10 when
    out of range, not the nearest bound), and normalising twice changes
    nothing.  The offset is (page - 1) * limit and not negative as long as
    that product fits an [int]; beyond that it wraps around, and the
    largest page number with limit 10 gives the offset -20. *)
Theorem pagination_spec (page limit : Z) (Hpage : is_int page) (Hlimit : is_int limit) :
  let '(page', limit', offset) := pagination page limit in
  (1 ≤ page')%Z ∧ (1 ≤ limit' ≤ 100)%Z ∧
  (page' = Z.max 1 page) ∧
  (limit' = if bool_decide (1 ≤ limit ≤ 100)%Z then limit else 10%Z) ∧
  pagination page' limit' = (page', limit', offset) ∧
  ((page' - 1) * limit' < 2 ^ 63 → offset = (page' - 1) * limit' ∧ 0 ≤ offset)%Z ∧
  is_int offset ∧
  pagination (2 ^ 63 - 1) 10 = (2 ^ 63 - 1, 10, -20)%Z.
Proof.
  unfold pagination. cbv zeta.
  set (page' := if (page <? 1)%Z then 1%Z else page).
  set (limit' := if (limit <? 1)%Z || (limit >? 100)%Z then 10%Z else limit).
  assert (Hp : (1 ≤ page')%Z ∧ page' = Z.max 1 page).
  { unfold page'. destruct (Z.ltb_spec page 1); lia. }
  assert (Hl : (1 ≤ limit' ≤ 100)%Z ∧
               limit' = if bool_decide (1 ≤ limit ≤ 100)%Z then limit else 10%Z).
  { unfold limit'. destruct (Z.ltb_spec limit 1), (Z.gtb_spec limit 100); cbn [orb];
      case_bool_decide; lia. }
  destruct Hp as [Hp Hpmax], Hl as [Hl Hlcase].
  split; [done|]. split; [done|]. split; [done|]. split; [done|]. split.
  { destruct (Z.ltb_spec page' 1); [lia|].
    destruct (Z.ltb_spec limit' 1), (Z.gtb_spec limit' 100); cbn [orb]; (lia || done). }
  split.
  { intros Hfit. rewrite wrap_int_small; [nia|]. unfold is_int. nia. }
  split.
  { unfold wrap_int, is_int.
    pose proof (Z.mod_pos_bound ((page' - 1) * limit' + 2 ^ 63) (2 ^ 64) ltac:(lia)). lia. }
  vm_compute. reflexivity.
Qed.

Lemma pagination_spec_witness :
  pagination 0 1000 = (1, 10, 0)%Z.
Proof.
  pose proof (pagination_spec 0 1000 ltac:(unfold is_int; lia) ltac:(unfold is_int; lia))
    as Hspec.
  destruct (pagination 0 1000) as [[p l] o] eqn:Hpag.
  destruct Hspec as (_ & _ & -> & -> & _ & Hoff & _).
  destruct Hoff as [-> _]; [vm_compute; reflexivity|]. vm_compute. reflexivity.
Defined.
